(** * Volovo Putevoy: the trip-sheet front end ([putevoy/js/app.js])

    A shallow embedding of the calculation and normalisation code of
    [app.js]: the row calculator ([coeffByWidth], [recalcRowKm]), the totals
    ([recalcTotals]), the route catalogue ([loadRoutes], [fillRouteRowParams])
    and the trip geometry normaliser ([normalizeLatLngsFromTrip],
    [renderTripsFromApiData]); and of what surrounds it: the dates and the
    request for trips ([setDefaultDateTimes], [dtLocalToApi], [loadTrips]),
    the vehicle list ([loadOids]) and the listener of the load button.

    JavaScript numbers are IEEE 754 binary64 values; they are modelled by
    Rocq's primitive [float], which is the same format with the same
    round-to-nearest-even arithmetic.  Strings are byte strings (UTF-8). *)

From Stdlib Require Import ZArith List String Ascii Bool Lia Floats.
Import ListNotations.

Set Warnings "-inexact-float,-register-all".

(** ** The JavaScript runtime used by [app.js] *)

Module JS.

Local Open Scope Z_scope.

(** *** Numbers *)

Definition isNaN (x : float) : bool := PrimFloat.is_nan x.

(** [Number.isFinite] on a value that is already a Number. *)
Definition isFinite (x : float) : bool := PrimFloat.is_finite x.

(** The Number nearest to the rational [num / den] ([den > 0], [num >= 0]),
    ties to even, with sign [neg]: the rounding ECMAScript applies to the
    mathematical value of a numeric literal. *)
Definition round_ratio (neg : bool) (num den : Z) : float :=
  match num with
  | Z0 => if neg then neg_zero else zero
  | _ =>
      let '(q, e, l) := SFdiv_core_binary prec emax num 0 den 0 in
      SF2Prim (binary_round_aux prec emax neg q e l)
  end.

(** [m * 10^e] as a Number. *)
Definition of_decimal (neg : bool) (m e : Z) : float :=
  if 0 <=? e then round_ratio neg (m * 10 ^ e) 1
  else round_ratio neg m (10 ^ (- e)).

(** The exact value of a finite Number, as [(negative, mantissa, exponent)],
    meaning [mantissa * 2^exponent]. *)
Definition exact (x : float) : option (bool * Z * Z) :=
  match Prim2SF x with
  | S754_zero s => Some (s, 0, 0)
  | S754_finite s m e => Some (s, Zpos m, e)
  | _ => None
  end.

(** *** Strings *)

Definition chars := list ascii.

Definition str (s : string) : chars := list_ascii_of_string s.

Definition code (c : ascii) : Z := Z.of_N (N_of_ascii c).

Fixpoint starts_with (p s : chars) : option chars :=
  match p, s with
  | [], _ => Some s
  | a :: p', b :: s' => if Ascii.eqb a b then starts_with p' s' else None
  | _ :: _, [] => None
  end.

(** [String.prototype.replace(a, b)] with string arguments: the first
    occurrence only. *)
Fixpoint replace_first (a b s : chars) : chars :=
  match starts_with a s with
  | Some rest => b ++ rest
  | None => match s with
            | [] => []
            | c :: s' => c :: replace_first a b s'
            end
  end.

Definition replace (a b s : string) : string :=
  string_of_list_ascii (replace_first (str a) (str b) (str s)).

(** *** [StringToNumber] *)

Definition byte (n : Z) : ascii := ascii_of_N (Z.to_N n).

(** [WhiteSpace] and [LineTerminator] code points, in UTF-8. *)
Definition str_white_space : list chars :=
  [ [byte 9]; [byte 10]; [byte 11]; [byte 12]; [byte 13]; [byte 32];
    [byte 194; byte 160];               (* U+00A0 *)
    [byte 225; byte 154; byte 128];     (* U+1680 *)
    [byte 226; byte 128; byte 128]; [byte 226; byte 128; byte 129];
    [byte 226; byte 128; byte 130]; [byte 226; byte 128; byte 131];
    [byte 226; byte 128; byte 132]; [byte 226; byte 128; byte 133];
    [byte 226; byte 128; byte 134]; [byte 226; byte 128; byte 135];
    [byte 226; byte 128; byte 136]; [byte 226; byte 128; byte 137];
    [byte 226; byte 128; byte 138];     (* U+2000 .. U+200A *)
    [byte 226; byte 128; byte 168];     (* U+2028 *)
    [byte 226; byte 128; byte 169];     (* U+2029 *)
    [byte 226; byte 128; byte 175];     (* U+202F *)
    [byte 226; byte 129; byte 159];     (* U+205F *)
    [byte 227; byte 128; byte 128];     (* U+3000 *)
    [byte 239; byte 187; byte 191] ].   (* U+FEFF *)

Fixpoint strip_one (ws : list chars) (s : chars) : option chars :=
  match ws with
  | [] => None
  | w :: ws' => match starts_with w s with
                | Some r => Some r
                | None => strip_one ws' s
                end
  end.

Fixpoint strip_leading (ws : list chars) (fuel : nat) (s : chars) : chars :=
  match fuel with
  | O => s
  | S fuel' => match strip_one ws s with
               | Some r => strip_leading ws fuel' r
               | None => s
               end
  end.

Definition trim (s : chars) : chars :=
  let s1 := strip_leading str_white_space (List.length s) s in
  rev (strip_leading (map (@rev ascii) str_white_space) (List.length s1) (rev s1)).

Definition digit_of (base : Z) (c : ascii) : option Z :=
  let n := code c in
  let d := if (48 <=? n) && (n <=? 57) then n - 48
           else if (97 <=? n) && (n <=? 102) then n - 87
           else if (65 <=? n) && (n <=? 70) then n - 55
           else 99 in
  if d <? base then Some d else None.

(** The longest prefix of digits, and what follows it. *)
Fixpoint take_digits (base : Z) (s : chars) : list Z * chars :=
  match s with
  | [] => ([], [])
  | c :: s' => match digit_of base c with
               | Some d => let '(ds, r) := take_digits base s' in (d :: ds, r)
               | None => ([], s)
               end
  end.

Definition digits_value (base : Z) (ds : list Z) : Z :=
  fold_left (fun a d => a * base + d) ds 0.

Definition is_char (c : ascii) (s : string) : bool :=
  existsb (Ascii.eqb c) (str s).

(** [ExponentPart], optional, up to the end of the string. *)
Definition parse_exponent (s : chars) : option Z :=
  match s with
  | [] => Some 0
  | c :: t =>
      if is_char c "eE" then
        let '(neg, t') :=
          match t with
          | sg :: u => if is_char sg "+" then (false, u)
                       else if is_char sg "-" then (true, u) else (false, t)
          | [] => (false, t)
          end in
        match take_digits 10 t' with
        | ((_ :: _) as ds, []) =>
            Some (if neg then - digits_value 10 ds else digits_value 10 ds)
        | _ => None
        end
      else None
  end.

(** [StrUnsignedDecimalLiteral] other than [Infinity]: mantissa and decimal
    exponent. *)
Definition parse_unsigned_decimal (s : chars) : option (Z * Z) :=
  let '(ip, r1) := take_digits 10 s in
  let '(dot, fp, r2) :=
    match r1 with
    | c :: t => if is_char c "." then
                  let '(fp, r) := take_digits 10 t in (true, fp, r)
                else (false, [], r1)
    | [] => (false, [], r1)
    end in
  match ip, fp with
  | [], [] => None
  | _, _ =>
      match parse_exponent r2 with
      | Some e => Some (digits_value 10 (ip ++ fp), e - Z.of_nat (List.length fp))
      | None => None
      end
  end.

Definition parse_str_decimal (s : chars) : float :=
  let '(neg, u) :=
    match s with
    | sg :: t => if is_char sg "+" then (false, t)
                 else if is_char sg "-" then (true, t) else (false, s)
    | [] => (false, s)
    end in
  match starts_with (str "Infinity") u with
  | Some [] => if neg then neg_infinity else infinity
  | _ => match parse_unsigned_decimal u with
         | Some (m, e) => of_decimal neg m e
         | None => nan
         end
  end.

(** [NonDecimalIntegerLiteral]: ["0x"], ["0o"], ["0b"] and their digits. *)
Definition parse_non_decimal (s : chars) : option float :=
  match s with
  | z :: p :: t =>
      if is_char z "0" then
        let base := if is_char p "xX" then 16
                    else if is_char p "oO" then 8
                    else if is_char p "bB" then 2 else 0 in
        if base =? 0 then None
        else match take_digits base t with
             | ((_ :: _) as ds, []) => Some (round_ratio false (digits_value base ds) 1)
             | _ => Some nan
             end
      else None
  | _ => None
  end.

(** [StringToNumber]: what [Number(s)] returns for a string [s]. *)
Definition StringToNumber (s : string) : float :=
  match trim (str s) with
  | [] => zero
  | t => match parse_non_decimal t with
         | Some x => x
         | None => parse_str_decimal t
         end
  end.

(** *** [Number::toString] and [Number.prototype.toFixed] *)

Fixpoint digits_loop (fuel : nat) (n : Z) (acc : chars) : chars :=
  match fuel with
  | O => acc
  | S fuel' =>
      let acc' := byte (48 + n mod 10) :: acc in
      if n <? 10 then acc' else digits_loop fuel' (n / 10) acc'
  end.

(** The decimal representation of an integer [n >= 0]. *)
Definition decimal (n : Z) : chars :=
  digits_loop (S (Z.to_nat (Z.log2 n))) n [].

Definition zeros (n : Z) : chars := repeat (byte 48) (Z.to_nat n).

(** A positive finite Number as a fraction [num / den]. *)
Definition ratio_of (m e : Z) : Z * Z :=
  if 0 <=? e then (m * 2 ^ e, 1) else (m, 2 ^ (- e)).

(** [num / den] divided by [10^p]. *)
Definition scale10 (num den p : Z) : Z * Z :=
  if 0 <=? p then (num, den * 10 ^ p) else (num * 10 ^ (- p), den).

Fixpoint decade_up (fuel : nat) (num den k : Z) : Z :=
  match fuel with
  | O => k
  | S fuel' => if num <? den * 10 ^ k then k else decade_up fuel' num den (k + 1)
  end.

Fixpoint decade_down (fuel : nat) (num den j : Z) : Z :=
  match fuel with
  | O => 1 - j
  | S fuel' => if den <=? num * 10 ^ j then 1 - j else decade_down fuel' num den (j + 1)
  end.

(** The [n] with [10^(n-1) <= num/den < 10^n]. *)
Definition decade (num den : Z) : Z :=
  if den <=? num then decade_up 400 num den 1 else decade_down 400 num den 1.

(** The shortest digit string [s] (of [k] digits, [k] from [k0] on) and
    the exponent [n] with [s * 10^(n-k)] rounding to [x]; of two candidates
    the one nearer to [x], the even one on a tie. *)
Fixpoint shortest (fuel : nat) (x : float) (num den n k : Z) : Z * Z :=
  match fuel with
  | O => (n, 0)
  | S fuel' =>
      let p := n - k in
      let '(a, b) := scale10 num den p in
      let lo := a / b in
      let hi := lo + 1 in
      let ok_lo := Leibniz.eqb (of_decimal false lo p) x in
      let ok_hi := Leibniz.eqb (of_decimal false hi p) x in
      let pick_hi := if hi =? 10 ^ k then (n + 1, 1) else (n, hi) in
      if ok_lo && ok_hi then
        match 2 * a ?= (2 * lo + 1) * b with
        | Lt => (n, lo)
        | Gt => pick_hi
        | Eq => if Z.even lo then (n, lo) else pick_hi
        end
      else if ok_lo then (n, lo)
      else if ok_hi then pick_hi
      else shortest fuel' x num den n (k + 1)
  end.

Definition split_at (n : Z) (s : chars) : chars * chars :=
  (firstn (Z.to_nat n) s, skipn (Z.to_nat n) s).

(** [Number::toString] of a positive finite Number [m * 2^e]. *)
Definition positive_to_chars (x : float) (m e : Z) : chars :=
  let '(num, den) := ratio_of m e in
  let '(n, s) := shortest 17 x num den (decade num den) 1 in
  let ds := decimal s in
  let k := Z.of_nat (List.length ds) in
  if (k <=? n) && (n <=? 21) then ds ++ zeros (n - k)
  else if (0 <? n) && (n <=? 21) then
    let '(a, b) := split_at n ds in a ++ str "." ++ b
  else if (-6 <? n) && (n <=? 0) then str "0." ++ zeros (- n) ++ ds
  else
    let ex := n - 1 in
    let sg := if ex <? 0 then str "-" else str "+" in
    let '(a, b) := split_at 1 ds in
    (if k =? 1 then ds else a ++ str "." ++ b)
      ++ str "e" ++ sg ++ decimal (Z.abs ex).

Definition NumberToString (x : float) : string :=
  string_of_list_ascii
    match Prim2SF x with
    | S754_nan => str "NaN"
    | S754_zero _ => str "0"
    | S754_infinity s => if s then str "-Infinity" else str "Infinity"
    | S754_finite s m e =>
        (if s then str "-" else []) ++ positive_to_chars (abs x) (Zpos m) e
    end.

(** [x.toFixed(f)] for [0 <= f <= 100]. *)
Definition toFixed (x : float) (f : Z) : string :=
  match Prim2SF x with
  | S754_finite s m e =>
      if (1e21 <=? abs x)%float then NumberToString x
      else
        let '(num, den) := ratio_of (Zpos m) e in
        let n := (2 * num * 10 ^ f + den) / (2 * den) in
        let ds := decimal n in
        let k := Z.of_nat (List.length ds) in
        let ds' := if k <=? f then zeros (f + 1 - k) ++ ds else ds in
        let k' := Z.of_nat (List.length ds') in
        let '(a, b) := split_at (k' - f) ds' in
        string_of_list_ascii
          ((if s then str "-" else [])
             ++ (if f =? 0 then ds' else a ++ str "." ++ b))
  | S754_zero _ =>
      string_of_list_ascii
        (if f =? 0 then str "0" else str "0." ++ zeros f)
  | _ => NumberToString x
  end.

(** *** Values

    The values [app.js] handles are those [JSON.parse] produces, and
    [undefined] (a missing property).  Arrays and objects parsed from JSON
    are fresh: no two of them are the same object.  An object lists its
    own properties, each key once. *)

Inductive value :=
  | Undefined
  | Null
  | Bool (b : bool)
  | Num (x : float)
  | Str (s : string)
  | Arr (elems : list value)
  | Obj (props : list (string * value)).

Fixpoint join (sep : string) (l : list string) : string :=
  match l with
  | [] => EmptyString
  | [a] => a
  | a :: l' => (a ++ sep ++ join sep l')%string
  end.

(** [ToString], for a value whose conversion returns (see [unconvertible]
    below); an array is joined with commas ([Array.prototype.toString]),
    [null] and [undefined] elements giving the empty string. *)
Fixpoint ToString (v : value) : string :=
  match v with
  | Undefined => "undefined"
  | Null => "null"
  | Bool b => if b then "true" else "false"
  | Num x => NumberToString x
  | Str s => s
  | Arr l =>
      join ","
        (map (fun e => match e with
                       | Undefined | Null => EmptyString
                       | _ => ToString e
                       end) l)
  | Obj _ => "[object Object]"
  end.

(** [ToNumber], the conversion [Number(v)] applies, for a value whose
    conversion returns. *)
Definition ToNumber (v : value) : float :=
  match v with
  | Undefined => nan
  | Null => zero
  | Bool b => if b then one else zero
  | Num x => x
  | Str s => StringToNumber s
  | Arr _ | Obj _ => StringToNumber (ToString v)
  end.

(** Whether [k] is an own property. *)
Definition has_own (k : string) (props : list (string * value)) : bool :=
  existsb (fun kv => String.eqb (fst kv) k) props.

(** Whether converting [v] to a primitive throws.  [Number(v)] and
    [String(v)] call the [toString] of an object ([valueOf] returns the
    object itself).  For an object parsed from JSON that is
    [Object.prototype.toString], unless the object has an own property
    [toString]: that one is not callable, being a JSON value, and the
    conversion throws a [TypeError].  An array is joined, which converts
    each element other than [null] to a string. *)
Fixpoint unconvertible (v : value) : bool :=
  match v with
  | Obj props => has_own "toString" props
  | Arr l => existsb unconvertible l
  | _ => false
  end.

(** [ToBoolean]: what [if (v)], [!v] and [v ? a : b] test. *)
Definition truthy (v : value) : bool :=
  match v with
  | Undefined | Null => false
  | Bool b => b
  | Num x => negb ((x =? zero)%float || isNaN x)
  | Str s => negb (String.eqb s "")
  | Arr _ | Obj _ => true
  end.

Definition isArray (v : value) : bool :=
  match v with Arr _ => true | _ => false end.

Definition elems_of (v : value) : list value :=
  match v with Arr l => l | _ => [] end.

Fixpoint lookup (k : string) (props : list (string * value)) : value :=
  match props with
  | [] => Undefined
  | (k', v) :: props' => if String.eqb k' k then v else lookup k props'
  end.

(** [v.k] for a [v] that is neither [null] nor [undefined], and a key [k]
    that no prototype defines (all the keys [app.js] reads are such). *)
Definition get (v : value) (k : string) : value :=
  match v with
  | Obj props => lookup k props
  | _ => Undefined
  end.

(** [v?.k] *)
Definition get_opt (v : value) (k : string) : value :=
  match v with
  | Undefined | Null => Undefined
  | _ => get v k
  end.

(** [v ?? d] *)
Definition coalesce (v d : value) : value :=
  match v with
  | Undefined | Null => d
  | _ => v
  end.

(** [a[i]] for an array [a]. *)
Definition index (a : value) (i : nat) : value :=
  nth i (elems_of a) Undefined.

(** The number of elements, as a Number. *)
Definition length_of {A} (l : list A) : float :=
  round_ratio false (Z.of_nat (List.length l)) 1.

(** *** [Map]

    Entries in insertion order.  Keys are compared by [SameValueZero];
    [set] on a key already present replaces the value and keeps the entry's
    place. *)

Definition SameValueZero (a b : value) : bool :=
  match a, b with
  | Undefined, Undefined => true
  | Null, Null => true
  | Bool x, Bool y => Bool.eqb x y
  | Num x, Num y => (x =? y)%float || (isNaN x && isNaN y)
  | Str x, Str y => String.eqb x y
  | _, _ => false
  end.

Section Map.
Context {V : Type}.

Definition Map := list (value * V).

Fixpoint map_get (k : value) (m : Map) : option V :=
  match m with
  | [] => None
  | (k', v) :: m' => if SameValueZero k' k then Some v else map_get k m'
  end.

Fixpoint map_set (k : value) (v : V) (m : Map) : Map :=
  match m with
  | [] => [(match k with
            | Num x => if (x =? zero)%float then Num zero else k
            | _ => k
            end, v)]
  | (k', v') :: m' =>
      if SameValueZero k' k then (k', v) :: m' else (k', v') :: map_set k v m'
  end.

Definition map_keys (m : Map) : list value := map fst m.
End Map.

Arguments Map : clear implicits.

(** *** Exceptions

    A call either returns or throws: a [TypeError] of the engine (a
    property read on [null] or [undefined], a conversion to a primitive
    that fails), or an error raised inside a library, recorded by its
    message.  What a call had drawn before it threw is not recorded. *)

Inductive result (A : Type) :=
  | Ok (a : A)
  | TypeError
  | LibraryError (message : string).

Arguments Ok {A} a.
Arguments TypeError {A}.
Arguments LibraryError {A} message.

Definition bind {A B} (r : result A) (f : A -> result B) : result B :=
  match r with
  | Ok a => f a
  | TypeError => TypeError
  | LibraryError message => LibraryError message
  end.

Notation "x <- r ;; k" := (bind r (fun x => k))
  (at level 61, r at next level, right associativity).

(** [v.k] where [v] may be [null] or [undefined]: reading a property of
    those throws. *)
Definition get_strict (v : value) (k : string) : result value :=
  match v with
  | Undefined | Null => TypeError
  | _ => Ok (get v k)
  end.

Fixpoint mapM {A B} (f : A -> result B) (l : list A) : result (list B) :=
  match l with
  | [] => Ok []
  | a :: l' => b <- f a ;; bs <- mapM f l' ;; Ok (b :: bs)
  end.

(** [Number(v)] *)
Definition Number_of (v : value) : result float :=
  if unconvertible v then TypeError else Ok (ToNumber v).

(** *** [trim], [padStart], [URLSearchParams] *)

(** [s.trim()] *)
Definition trimmed (s : string) : string := string_of_list_ascii (trim (str s)).

(** [s.padStart(n, fill)] with a one-character [fill], for a string [s] of
    ASCII characters (those of a printed Number are). *)
Definition padStart (s : string) (n : nat) (fill : ascii) : string :=
  (string_of_list_ascii (repeat fill (n - String.length s)) ++ s)%string.

Definition hex_digit (n : Z) : ascii :=
  if n <? 10 then byte (48 + n) else byte (55 + n).

(** The bytes the [application/x-www-form-urlencoded] serializer keeps:
    ASCII letters and digits, [*], [-], [.] and [_]. *)
Definition url_kept (c : ascii) : bool :=
  let n := code c in
  ((48 <=? n) && (n <=? 57)) || ((65 <=? n) && (n <=? 90))
  || ((97 <=? n) && (n <=? 122)) || is_char c "*-._".

(** A space becomes [+], every other byte [%XX]. *)
Definition urlencode_byte (c : ascii) : chars :=
  if url_kept c then [c]
  else if is_char c " " then str "+"
  else "%"%char :: hex_digit (code c / 16) :: hex_digit (code c mod 16) :: [].

Definition urlencode (s : string) : string :=
  string_of_list_ascii (flat_map urlencode_byte (str s)).

(** [new URLSearchParams(obj).toString()] for an object [obj] of string
    properties, in the order they were written. *)
Definition URLSearchParams (obj : list (string * string)) : string :=
  join "&" (map (fun p => (urlencode (fst p) ++ "=" ++ urlencode (snd p))%string) obj).

(** *** Errors with a message

    What a call, awaited when it is asynchronous, gives: the value it
    returns, or the [message] of the error it throws. *)

Inductive outcome (A : Type) :=
  | Returned (a : A)
  | Thrown (message : string).

Arguments Returned {A} a.
Arguments Thrown {A} message.

End JS.

(** ** [putevoy/js/app.js] *)

Module App.

Import JS.
Local Open Scope string_scope.

(** *** The page

    A table row ([tr.data-row]) as [app.js] reads and writes it: what
    [row.querySelector] finds for each selector ([None] when there is no
    such element), with the element's [value] or [textContent]. *)

Record Row := {
  route_select : option string;   (* select.route, its value *)
  trip_tons : option string;      (* .trip-tons, its value *)
  trip_km : option string;        (* .trip-km, its text *)
  js_width : option string;       (* .js-width, its text *)
  js_length : option string;      (* .js-length, its text *)
  js_tons : option string         (* .js-tons, its text *)
}.

Definition set_trip_km (row : Row) (text : string) : Row :=
  {| route_select := route_select row; trip_tons := trip_tons row;
     trip_km := Some text; js_width := js_width row;
     js_length := js_length row; js_tons := js_tons row |}.

(** The cells of the totals, by element id. *)
Record Totals := {
  total_tons_sum_cell : string;
  total_km_sum_cell : string;
  vehicle_tonnage_cell : string;
  trips_count_cell : string;
  total_tons_cell : string
}.

(** *** Vehicles and routes *)

Record Vehicle := { name : string; tonnage : float }.

Definition VEHICLES : Map Vehicle :=
  [ (Num 716, {| name := "КАМАЗ 532150 Е015НВ48 (дут)"; tonnage := 9 |});
    (Num 719, {| name := "КАМАЗ 532150 М435КХ48 (дут)"; tonnage := 9 |});
    (Num 182, {| name := "Камаз О537КР48 (дут)"; tonnage := 14 |});
    (Num 432, {| name := "Камаз М968ОН48 (дут)"; tonnage := 14 |});
    (Num 717, {| name := "КАМАЗ ЭД-405А Е102КХ48 (дут)"; tonnage := 9 |}) ].

(** An entry of [ROUTES]: the three fields as the backend sent them. *)
Record Route := {
  road_width_m : value;
  road_length_km : value;
  pss_tonnage_t : value
}.

(** *** util *)

Definition fmt2 (x : value) : string :=
  match x with
  | Null | Undefined | Str EmptyString => ""
  | _ =>
      if isNaN (ToNumber x) then ""
      else replace "." "," (toFixed (ToNumber x) 2)
  end.

Definition numOr0 (v : value) : float :=
  let n := ToNumber v in
  if isFinite n then n else zero.

Definition getVehicleTonnage (oidSelect : string) : float :=
  let oid := ToNumber (Str oidSelect) in
  match map_get (Num oid) VEHICLES with
  | Some v => tonnage v
  | None => zero
  end.

Definition coeffByWidth (widthM : value) : float :=
  let w := ToNumber widthM in
  if (abs (w - 7) <? 0.01)%float then 1.4%float
  else if (abs (w - 6) <? 0.01)%float then 1.2%float
  else 1.2%float.

Definition getRowWidth (row : Row) : float :=
  let w := match js_width row with
           | Some text => ToNumber (Str (replace "," "." text))
           | None => nan
           end in
  if isFinite w then w else nan.

Definition text_or_empty (cell : option string) : string :=
  match cell with
  | Some text => text
  | None => ""
  end.

Definition selected (row : Row) : bool :=
  match route_select row with
  | Some v => truthy (Str v)
  | None => false
  end.

Definition recalcRowKm (row : Row) : Row :=
  match trip_km row, trip_tons row with
  | Some _, Some tonsValue =>
      if negb (selected row) then set_trip_km row ""
      else
        let tons := numOr0 (Str tonsValue) in
        if (tons <=? zero)%float then set_trip_km row ""
        else
          let widthM := getRowWidth row in
          let k := coeffByWidth (Num widthM) in
          let km := (tons / k)%float in
          let maxLen :=
            ToNumber (Str (replace "," "." (text_or_empty (js_length row)))) in
          let km := if isFinite maxLen && (maxLen <? km)%float then maxLen else km in
          set_trip_km row (fmt2 (Num km))
  | _, _ => row
  end.

Definition em_dash : string := "—".

Definition recalcTotals (rows : list Row) (oidSelect : string) : Totals :=
  let tonsSum :=
    fold_left
      (fun acc row =>
         (acc + numOr0 (match trip_tons row with
                        | Some v => Str v
                        | None => Undefined
                        end))%float)
      rows zero in
  let kmSum :=
    fold_left
      (fun acc row =>
         let n := ToNumber (Str (replace "," "." (text_or_empty (trip_km row)))) in
         if isFinite n then (acc + n)%float else acc)
      rows zero in
  let tonnage := getVehicleTonnage oidSelect in
  let trips :=
    fold_left
      (fun acc row => if selected row then (acc + 1)%float else acc)
      rows zero in
  {| total_tons_sum_cell := fmt2 (Num tonsSum);
     total_km_sum_cell := fmt2 (Num kmSum);
     vehicle_tonnage_cell := if truthy (Num tonnage) then fmt2 (Num tonnage) else em_dash;
     trips_count_cell := if truthy (Num trips) then ToString (Num trips) else em_dash;
     total_tons_cell := if truthy (Num tonsSum) then fmt2 (Num tonsSum) else em_dash |}.

(** [fmt2Safe] and [fmt1Safe], for a value [Number] converts: the fields
    of a route are such unless the backend sent an [unconvertible] one. *)
Definition fmt2Safe (x : value) : string :=
  let n := ToNumber x in
  if isFinite n then fmt2 (Num n) else "".

Definition fmt1Safe (x : value) : string :=
  let n := ToNumber x in
  if negb (isFinite n) then "" else replace "." "," (toFixed n 1).

Definition fillRouteRowParams (ROUTES : Map Route) (row : Row) (routeName : string) : Row :=
  let put (cell : option string) (text : string) :=
    match cell with Some _ => Some text | None => None end in
  match map_get (Str routeName) ROUTES with
  | None =>
      {| route_select := route_select row; trip_tons := trip_tons row;
         trip_km := trip_km row; js_width := put (js_width row) "";
         js_length := put (js_length row) ""; js_tons := put (js_tons row) "" |}
  | Some r =>
      {| route_select := route_select row; trip_tons := trip_tons row;
         trip_km := trip_km row;
         js_width := put (js_width row) (fmt1Safe (road_width_m r));
         js_length := put (js_length row) (fmt2Safe (road_length_km r));
         js_tons := put (js_tons row) (fmt2Safe (pss_tonnage_t r)) |}
  end.

(** *** init loaders *)

(** The loop of [loadRoutes] over the backend's list, from an empty
    [ROUTES]. *)
Definition fill_routes (routes : list value) : Map Route :=
  fold_left
    (fun ROUTES r =>
       if negb (truthy (get_opt r "name")) then ROUTES
       else map_set (get r "name")
              {| road_width_m := get r "road_width_m";
                 road_length_km := get r "road_length_km";
                 pss_tonnage_t := get r "pss_tonnage_t" |}
              ROUTES)
    routes [].

(** An [option] element of a [select]: value and text. *)
Definition route_options (ROUTES : Map Route) : list (string * string) :=
  ("", "— маршрут —")
    :: map (fun nm => (ToString nm, ToString nm)) (map_keys ROUTES).

(** [loadRoutes] once the backend has answered [data]: the new [ROUTES] and
    the options every [select.route] is filled with. *)
Definition loadRoutes (data : value) : Map Route * list (string * string) :=
  let routes :=
    if isArray (get_opt data "routes") then elems_of (get_opt data "routes") else [] in
  let ROUTES := fill_routes routes in
  (ROUTES, route_options ROUTES).

(** The change handler of a row's [select.route] ([attachEvents]), the
    select already showing the chosen route. *)
Definition on_route_change (ROUTES : Map Route) (row : Row) : Row :=
  recalcRowKm (fillRouteRowParams ROUTES row (text_or_empty (route_select row))).

(** *** Trips on the map

    Leaflet is outside [app.js]: a layer is recorded as what it was built
    from, and [fitBounds] as the layers the map was fitted to, none when
    [map.fitBounds] was not called.  What [L.geoJSON] does with a payload
    is Leaflet's answer, [L_geoJSON] below: it throws (it runs the
    [coordsToLatLng] callback as it builds the layer), or it returns a
    layer, and then the answer tells whether the bounds of that layer are
    valid.  Drawing a line through finite points and fitting the map to
    valid bounds return; the bounds of a line are valid when the line has
    a point. *)

Definition LatLngs := list (float * float).

Inductive layer :=
  | GeoJSON (data : value)
  | Polyline (ll : LatLngs).

Record MapView := {
  tripsLayer : list layer;
  fitBounds : list layer;
  mapInfo : string
}.

Definition finite_pair (p : float * float) : bool :=
  isFinite (fst p) && isFinite (snd p).

(** [line.getBounds().isValid()] for a line through [ll]. *)
Definition isValid (ll : list (float * float)) : bool :=
  match ll with [] => false | _ => true end.

Definition coords_pair (p : value) : result (option (float * float)) :=
  if isArray p then
    lat <- Number_of (index p 0) ;;
    lon <- Number_of (index p 1) ;;
    Ok (Some (lat, lon))
  else Ok None.

Definition point_pair (p : value) : result (float * float) :=
  lat_v <- get_strict p "lat" ;;
  lat <- Number_of lat_v ;;
  lon_v <- get_strict p "lon" ;;
  lon <- Number_of lon_v ;;
  Ok (lat, lon).

Definition keep_coords (l : list (option (float * float))) : LatLngs :=
  flat_map (fun p => match p with
                     | Some q => if finite_pair q then [q] else []
                     | None => []
                     end) l.

Definition nonempty {A} (l : list A) : bool :=
  match l with [] => false | _ => true end.

Definition points_of_trip (trip : value) : result LatLngs :=
  if isArray (get_opt trip "points") && nonempty (elems_of (get_opt trip "points")) then
    ps <- mapM point_pair (elems_of (get_opt trip "points")) ;;
    Ok (filter finite_pair ps)
  else Ok [].

Definition normalizeLatLngsFromTrip (trip : value) : result LatLngs :=
  from_coords <-
    (if isArray (get_opt trip "coords") && nonempty (elems_of (get_opt trip "coords")) then
       ps <- mapM coords_pair (elems_of (get_opt trip "coords")) ;;
       Ok (keep_coords ps)
     else Ok []) ;;
  if nonempty from_coords then Ok from_coords
  else points_of_trip trip.

Definition at_least_two {A} (l : list A) : bool :=
  match l with _ :: _ :: _ => true | _ => false end.

Definition is_feature_collection (data : value) : bool :=
  match get_opt data "type" with
  | Str t => String.eqb t "FeatureCollection" && isArray (get data "features")
  | _ => false
  end.

Definition trips_of (data : value) : list value :=
  if isArray (get_opt data "trips") then elems_of (get_opt data "trips")
  else if isArray data then elems_of data else [].

Definition renderTripsFromApiData (L_geoJSON : value -> result bool) (data : value)
  : result MapView :=
  if is_feature_collection data then
    valid <- L_geoJSON data ;;
    Ok {| tripsLayer := [GeoJSON data];
          fitBounds := if valid then [GeoJSON data] else [];
          mapInfo := "GeoJSON: "
                       ++ ToString (Num (length_of (elems_of (get data "features"))))
                       ++ " шт." |}
  else if nonempty (trips_of data) then
    lls <- mapM normalizeLatLngsFromTrip (trips_of data) ;;
    let drawn := filter at_least_two lls in
    let lines := map Polyline drawn in
    let total := fold_left (fun n _ => (n + 1)%float) lines zero in
    Ok {| tripsLayer := lines;
          fitBounds := if nonempty drawn && existsb isValid drawn then lines else [];
          mapInfo := "Рейсов: " ++ ToString (Num total) |}
  else
    let no_routes :=
      Ok {| tripsLayer := []; fitBounds := [];
            mapInfo := "Маршруты не найдены (пустой ответ)" |} in
    if isArray (get_opt data "points") && nonempty (elems_of (get_opt data "points")) then
      ps <- mapM point_pair (elems_of (get_opt data "points")) ;;
      let ll := filter finite_pair ps in
      if at_least_two ll then
        Ok {| tripsLayer := [Polyline ll];
              fitBounds := if isValid ll then [Polyline ll] else [];
              mapInfo := "Точек: " ++ ToString (Num (length_of ll)) |}
      else no_routes
    else no_routes.

(** *** Dates and the trips request *)

Definition pad2 (n : float) : string := padStart (NumberToString n) 2 "0".

(** What [new Date()] answers to [getFullYear()], [getMonth()] and
    [getDate()]. *)
Record Now := { getFullYear : float; getMonth : float; getDate : float }.

(** [setDefaultDateTimes]: the values of [dtFrom] and [dtTo] after it, the
    ones it assigns or the ones the fields had. *)
Definition setDefaultDateTimes (now : Now) (dtFrom dtTo : string) : string * string :=
  let y := getFullYear now in
  let m := pad2 (getMonth now + 1) in
  let d := pad2 (getDate now) in
  let date := NumberToString y ++ "-" ++ m ++ "-" ++ d in
  (if negb (truthy (Str dtFrom)) then date ++ "T00:00" else dtFrom,
   if negb (truthy (Str dtTo)) then date ++ "T23:59" else dtTo).

Definition dtLocalToApi (v : string) : string :=
  if negb (truthy (Str v)) then "" else replace "T" " " v ++ ":00".

(** The values of the form's fields, by element id. *)
Record Form := {
  oidSelect : string;
  dtFrom : string;
  dtTo : string;
  maxJump : string;
  maxSpeed : string;
  minTripKm : string
}.

(** [x || d] on Numbers. *)
Definition or_else (x d : float) : float := if truthy (Num x) then x else d.

(** [loadTrips] up to its request: the URL it hands to [fetchJSON], or the
    error it throws before asking.  (The status text it shows while waiting
    is replaced when the listener ends.) *)
Definition loadTrips (form : Form) : outcome string :=
  let oid := trimmed (oidSelect form) in
  if negb (truthy (Str oid)) then Thrown "Выбери авто (OID)."
  else
    let from := dtLocalToApi (dtFrom form) in
    let to := dtLocalToApi (dtTo form) in
    let params :=
      URLSearchParams
        [ ("oid", oid); ("from", from); ("to", to);
          ("max_jump_km", NumberToString (or_else (numOr0 (Str (maxJump form))) 1));
          ("max_speed_kmh", NumberToString (or_else (numOr0 (Str (maxSpeed form))) 180));
          ("min_trip_km", NumberToString (or_else (numOr0 (Str (minTripKm form))) 1)) ] in
    Returned ("/api/trips_for_map?" ++ params).

(** *** The vehicle list *)

(** The [option] [loadOids] builds for an item of the backend's list. *)
Definition oid_option (item : value) : result (string * string) :=
  oid_v <- get_strict item "oid" ;;
  oid <- Number_of oid_v ;;
  cnt_v <- get_strict item "points_cnt" ;;
  cnt <- Number_of (coalesce cnt_v (Num zero)) ;;
  let name := match map_get (Num oid) VEHICLES with
              | Some v => name v
              | None => "OID " ++ NumberToString oid
              end in
  Ok (NumberToString oid,
      name ++ " (OID " ++ NumberToString oid ++ ", точек: " ++ NumberToString cnt ++ ")").

(** The loop of [loadOids]: the options of [oidSelect] when it ends, and
    whether it ended by an exception. *)
Fixpoint append_oids (items : list value) (options : list (string * string))
  : list (string * string) * result unit :=
  match items with
  | [] => (options, Ok tt)
  | item :: items' =>
      match oid_option item with
      | Ok o => append_oids items' (options ++ [o])
      | TypeError => (options, TypeError)
      | LibraryError message => (options, LibraryError message)
      end
  end.

(** [loadOids] once the backend has answered [data]. *)
Definition loadOids (data : value) : list (string * string) * result unit :=
  let oids :=
    if isArray (get_opt data "oids") then elems_of (get_opt data "oids") else [] in
  append_oids oids [("", "— выбери —")].

(** *** The page after a load

    [renderTripsFromApiData] draws as it goes: when a trip makes it throw,
    the lines of the trips before it are on the map already, the label is
    still the empty one [clearTripsOnMap] left, and the map has not been
    fitted. *)

(** The map as [clearTripsOnMap] leaves it. *)
Definition cleared : MapView := {| tripsLayer := []; fitBounds := []; mapInfo := "" |}.

(** The loop over the trips: the lines on the map when it ends, and
    whether it ended by an exception. *)
Fixpoint draw_trips (trips : list value) (lines : list layer) : list layer * result unit :=
  match trips with
  | [] => (lines, Ok tt)
  | t :: trips' =>
      match normalizeLatLngsFromTrip t with
      | Ok ll =>
          draw_trips trips' (if at_least_two ll then lines ++ [Polyline ll] else lines)
      | TypeError => (lines, TypeError)
      | LibraryError message => (lines, LibraryError message)
      end
  end.

(** The lines among [layers], as their points. *)
Definition lines_of (layers : list layer) : list LatLngs :=
  flat_map (fun l => match l with Polyline ll => [ll] | GeoJSON _ => [] end) layers.

(** The map after [renderTripsFromApiData(data)], also when it throws. *)
Definition render_page (L_geoJSON : value -> result bool) (data : value)
  : MapView * result unit :=
  if is_feature_collection data then
    match L_geoJSON data with
    | Ok valid =>
        ({| tripsLayer := [GeoJSON data];
            fitBounds := if valid then [GeoJSON data] else [];
            mapInfo := "GeoJSON: "
                         ++ ToString (Num (length_of (elems_of (get data "features"))))
                         ++ " шт." |}, Ok tt)
    | TypeError => (cleared, TypeError)
    | LibraryError message => (cleared, LibraryError message)
    end
  else if nonempty (trips_of data) then
    match draw_trips (trips_of data) [] with
    | (lines, Ok _) =>
        let total := fold_left (fun n _ => (n + 1)%float) lines zero in
        ({| tripsLayer := lines;
            fitBounds := if nonempty lines && existsb isValid (lines_of lines)
                         then lines else [];
            mapInfo := "Рейсов: " ++ ToString (Num total) |}, Ok tt)
    | (lines, TypeError) =>
        ({| tripsLayer := lines; fitBounds := []; mapInfo := "" |}, TypeError)
    | (lines, LibraryError message) =>
        ({| tripsLayer := lines; fitBounds := []; mapInfo := "" |}, LibraryError message)
    end
  else
    let no_routes :=
      ({| tripsLayer := []; fitBounds := [];
          mapInfo := "Маршруты не найдены (пустой ответ)" |}, Ok tt) in
    if isArray (get_opt data "points") && nonempty (elems_of (get_opt data "points")) then
      match mapM point_pair (elems_of (get_opt data "points")) with
      | Ok ps =>
          let ll := filter finite_pair ps in
          if at_least_two ll then
            ({| tripsLayer := [Polyline ll];
                fitBounds := if isValid ll then [Polyline ll] else [];
                mapInfo := "Точек: " ++ ToString (Num (length_of ll)) |}, Ok tt)
          else no_routes
      | TypeError => (cleared, TypeError)
      | LibraryError message => (cleared, LibraryError message)
      end
    else no_routes.

(** [setStat]: the status line, when the page has one. *)
Definition setStat (text : string) (stat : option string) : option string :=
  match stat with
  | Some _ => Some text
  | None => None
  end.

(** The click listener of [btnLoad]: the map and the status line when it
    has run.  [fetchJSON] is what awaiting the request gives, the parsed
    answer or an error with its message; [typeError] is the message the
    engine gives the [TypeError] thrown in this run, if one is. *)
Definition btnLoad_click (form : Form) (fetchJSON : string -> outcome value)
    (L_geoJSON : value -> result bool)
    (typeError : string) (stat : option string) : MapView * option string :=
  let failed := fun message => setStat ("Ошибка загрузки рейсов: " ++ message) stat in
  match loadTrips form with
  | Thrown message => (cleared, failed message)
  | Returned url =>
      match fetchJSON url with
      | Thrown message => (cleared, failed message)
      | Returned data =>
          match render_page L_geoJSON data with
          | (view, Ok _) => (view, setStat "Готово." stat)
          | (view, TypeError) => (view, failed typeError)
          | (view, LibraryError message) => (view, failed message)
          end
      end
  end.

End App.

(** ** Rounding in [SpecFloat]: definitions used to reason about it *)

Module SF.

Local Open Scope Z_scope.

(** Whether a shifted mantissa has lost non-zero bits. *)
Definition inexact (mrs : shr_record) : bool := shr_r mrs || shr_s mrs.


(** What [binary_round_aux] does once the mantissa has been rounded to
    [m2] at exponent [e1]. *)
Definition finish (s : bool) (m2 e1 : Z) : spec_float :=
  let e2 := Z.max e1 (fexp prec emax (Zdigits2 m2 + e1)) in
  match m2 / 2 ^ (e2 - e1) with
  | Z0 => S754_zero s
  | Zpos p => if e2 <=? emax - prec then S754_finite s p e2 else S754_infinity s
  | Zneg _ => S754_nan
  end.



(** 1e21, from which on [toFixed] prints as [Number::toString] does. *)
Definition sf_1e21 : spec_float := S754_finite false 7629394531250000 17.

End SF.

(** ** Printed decimal literals: definitions used to reason about them *)

Module Literal.

Import JS.
Local Open Scope Z_scope.

Definition comma : ascii := ","%char.
Definition dot : ascii := "."%char.

Definition is_digit (c : ascii) : bool :=
  match digit_of 10 c with Some _ => true | None => false end.

Definition digit_val (c : ascii) : Z :=
  match digit_of 10 c with Some d => d | None => 0 end.

Definition digit (d : Z) : ascii := byte (48 + d).

Definition value_of (l : chars) : Z := digits_value 10 (map digit_val l).

Definition is_plain (c : ascii) : bool := is_digit c || is_char c "+-.e".

Definition frac_part (b : option chars) : chars :=
  match b with Some b => dot :: b | None => [] end.

Definition exp_part (d : option chars) : chars :=
  match d with Some d => "e"%char :: "+"%char :: d | None => [] end.

Definition frac_digits (b : option chars) : chars :=
  match b with Some b => b | None => [] end.

Definition exp_value (d : option chars) : Z :=
  match d with Some d => value_of d | None => 0 end.

Definition digits_opt (b : option chars) : Prop :=
  match b with Some b => forallb is_digit b = true | None => True end.

Definition exp_ok (d : option chars) : Prop :=
  match d with Some d => d <> [] /\ forallb is_digit d = true | None => True end.

Definition literal (neg : bool) (a : chars) (b d : option chars) : chars :=
  (if neg then ["-"%char] else []) ++ a ++ frac_part b ++ exp_part d.

(** What [shortest] may return for a Number [x] of decade [n0]. *)
Definition shortest_ok (x : float) (n0 : Z) (r : Z * Z) : Prop :=
  r = (n0, 0) \/
  exists k, 1 <= k <= n0 /\
    ((fst r = n0 /\ 10 ^ (k - 1) <= snd r < 10 ^ k /\
      of_decimal false (snd r) (n0 - k) = x) \/
     (r = (n0 + 1, 1) /\ of_decimal false (10 ^ k) (n0 - k) = x)).

End Literal.

(** ** Specification-side definitions *)

Module Spec.

Import JS App.
Local Open Scope string_scope.


(** The tonnage a row delivers: [numOr0] of its tonnage input. *)
Definition deliveredTonnage (row : Row) : float :=
  numOr0 (match trip_tons row with Some v => Str v | None => Undefined end).

(** The road length [recalcRowKm] reads from the row. *)
Definition rowLength (row : Row) : float :=
  ToNumber (Str (replace "," "." (text_or_empty (js_length row)))).

(** The cap of step 4: clamp to the road length when that is a valid
    number and is exceeded. *)
Definition capped (km maxLen : float) : float :=
  if isFinite maxLen && (maxLen <? km)%float then maxLen else km.

(** The Number a distance cell shows. *)
Definition shownKm (row : Row) : float :=
  ToNumber (Str (replace "," "." (text_or_empty (trip_km row)))).

(** The sums of [recalcTotals]. *)
Definition tonsSum (rows : list Row) : float :=
  fold_left (fun acc row => (acc + deliveredTonnage row)%float) rows zero.

Definition kmSum (rows : list Row) : float :=
  fold_left (fun acc row => if isFinite (shownKm row) then (acc + shownKm row)%float else acc)
    rows zero.

Definition tripsCount (rows : list Row) : float :=
  fold_left (fun acc row => if selected row then (acc + 1)%float else acc) rows zero.

(** The allocated distance of a row (steps 1 to 4 of the row calculator):
    undefined without a route or with a tonnage that is not positive. *)
Definition allocation (row : Row) : option float :=
  if negb (selected row) then None
  else if (deliveredTonnage row <=? zero)%float then None
  else Some (capped (deliveredTonnage row / coeffByWidth (Num (getRowWidth row)))
               (rowLength row)).


(** The Number the tonnage input holds ([NaN] without an input). *)
Definition tonnageInput (row : Row) : float :=
  ToNumber (match trip_tons row with Some v => Str v | None => Undefined end).

(** The catalogue, as the design describes it: the name of a backend
    entry, the entries that have one, and the fields stored for an entry. *)
Definition route_name (r : value) : value := get_opt r "name".

Definition named (routes : list value) : list value :=
  filter (fun r => truthy (route_name r)) routes.

Definition route_of (r : value) : Route :=
  {| road_width_m := get r "road_width_m";
     road_length_km := get r "road_length_km";
     pss_tonnage_t := get r "pss_tonnage_t" |}.


(** The last entry named [k]. *)
Definition last_named (k : value) (routes : list value) : option value :=
  find (fun r => SameValueZero (route_name r) k) (rev (named routes)).


(** One turn of the loop of [loadRoutes]. *)
Definition step (ROUTES : Map Route) (r : value) : Map Route :=
  if negb (truthy (get_opt r "name")) then ROUTES
  else map_set (get r "name") (route_of r) ROUTES.

(** The list [loadRoutes] iterates over. *)
Definition routes_of (data : value) : list value :=
  if isArray (get_opt data "routes") then elems_of (get_opt data "routes") else [].

(** The coordinate pairs of a payload, converted by [Number]: those of a
    [coords] list (its elements that are arrays) and those of a [points]
    list. *)
Definition coords_list (trip : value) : list value :=
  if isArray (get_opt trip "coords") then elems_of (get_opt trip "coords") else [].

Definition coords_pairs (trip : value) : LatLngs :=
  flat_map (fun p => if isArray p then [(ToNumber (index p 0), ToNumber (index p 1))]
                     else [])
    (coords_list trip).

Definition lat_lon (p : value) : float * float :=
  (ToNumber (get p "lat"), ToNumber (get p "lon")).

Definition points_list (v : value) : list value :=
  if isArray (get_opt v "points") then elems_of (get_opt v "points") else [].

(** The valid pairs of a list, in order. *)
Definition valid_pairs (l : LatLngs) : LatLngs := filter finite_pair l.

(** An element of [coords] the normaliser cannot convert: an array whose
    first or second component [Number()] throws on. *)
Definition bad_coords (p : value) : bool :=
  isArray p && (unconvertible (index p 0) || unconvertible (index p 1)).

(** A point the normaliser cannot read: [null] or [undefined], or one
    whose [lat] or [lon] [Number()] throws on. *)
Definition bad_point (p : value) : bool :=
  match p with
  | Undefined | Null => true
  | _ => unconvertible (get p "lat") || unconvertible (get p "lon")
  end.

(** A trip on which the normaliser throws: one of its [coords] cannot be
    converted, or its [coords] give no valid pair and one of its [points]
    cannot be read. *)
Definition bad_trip (trip : value) : bool :=
  existsb bad_coords (coords_list trip)
  || (negb (nonempty (valid_pairs (coords_pairs trip)))
      && existsb bad_point (points_list trip)).

(** What the normaliser makes of a trip it can read: the valid pairs of
    its [coords] when there is one, else those of its [points]. *)
Definition trip_line (trip : value) : LatLngs :=
  if nonempty (valid_pairs (coords_pairs trip)) then valid_pairs (coords_pairs trip)
  else valid_pairs (map lat_lon (points_list trip)).

(** Whether a component is a finite Number, or text that spells one: what
    "parses to a finite number" says of a JSON value. *)
Definition parses_finite (v : value) : bool :=
  match v with
  | Num x => isFinite x
  | Str s => negb (String.eqb (trimmed s) "") && isFinite (StringToNumber s)
  | _ => false
  end.

(** A counter after [n] increments. *)
Definition counted_up (n : nat) : float := Nat.iter n (fun x => (x + 1)%float) zero.

(** What [renderTripsFromApiData] shows for a GeoJSON feature
    collection. *)
Definition geojson_view (data : value) (valid : bool) : MapView :=
  {| tripsLayer := [GeoJSON data];
     fitBounds := if valid then [GeoJSON data] else [];
     mapInfo := "GeoJSON: "
                  ++ ToString (Num (length_of (elems_of (get data "features"))))
                  ++ " шт." |}.

(** The backend's answer to [/api/routes] with one route, its fields
    [fields] beside the name. *)
Definition one_route (nm : string) (fields : list (string * value)) : value :=
  Obj [("routes", Arr [Obj (("name", Str nm) :: fields)])].

(** The fields of the route R1 of the design's scenarios. *)
Definition R1 : list (string * value) :=
  [("road_width_m", Num 7); ("road_length_km", Num 10); ("pss_tonnage_t", Num 50)].

(** A row as the form has it: every cell present. *)
Definition mkRow (route tons km width len ref : string) : Row :=
  {| route_select := Some route; trip_tons := Some tons; trip_km := Some km;
     js_width := Some width; js_length := Some len; js_tons := Some ref |}.

(** *** Whole numbers, numerals and requests *)

(** The Number of an integer [n >= 0]. *)
Definition number (n : Z) : float := round_ratio false n 1.

(** The binary64 representation of an integer [0 < n < 2^53]. *)
Definition sf_int (n : Z) : spec_float :=
  S754_finite false (Z.to_pos (n * 2 ^ (53 - Zdigits2 n))%Z) (Zdigits2 n - 53)%Z.

(** The decimal numeral of an integer [n >= 0]. *)
Definition numeral (n : Z) : string := string_of_list_ascii (decimal n).

(** Two decimal digits. *)
Definition two_digits (n : Z) : string :=
  string_of_list_ascii [byte (48 + n / 10)%Z; byte (48 + n mod 10)%Z].

(** The bytes of an encoded query field: those the serializer keeps, [+]
    and the [%XX] escapes. *)
Definition url_safe (c : ascii) : bool := url_kept c || is_char c "+%".

(** A character other than [T]. *)
Definition not_T (c : ascii) : bool := negb (Ascii.eqb "T" c).

(** The limit [loadTrips] sends for a field showing [v], with default [d]:
    the field's Number when that is finite and not zero, the default
    otherwise, and in both cases a finite Number other than zero. *)
Definition sent (v : string) (d x : float) : Prop :=
  isFinite x = true /\ (x =? zero)%float = false /\
  x = (if isFinite (ToNumber (Str v)) && negb (ToNumber (Str v) =? zero)%float
       then ToNumber (Str v) else d).

(** An item [loadOids] throws on: [null] or [undefined], or one whose
    [oid] or [points_cnt] [Number()] throws on. *)
Definition bad_item (item : value) : bool :=
  match item with
  | Undefined | Null => true
  | _ => unconvertible (get item "oid") || unconvertible (get item "points_cnt")
  end.

(** A call that throws. *)
Definition throws {A} (r : result A) : Prop :=
  match r with Ok _ => False | _ => True end.

(** The items before the first one [loadOids] throws on. *)
Fixpoint before_bad (items : list value) : list value :=
  match items with
  | [] => []
  | item :: items' => if bad_item item then [] else item :: before_bad items'
  end.

(** The list [loadOids] iterates over. *)
Definition oids_of (data : value) : list value :=
  if isArray (get_opt data "oids") then elems_of (get_opt data "oids") else [].

End Spec.

(** ** Facts about rounding in [SpecFloat] *)

Module Rounding.

Import SF.
Local Open Scope Z_scope.

Lemma iter_pos_nat {A} (f : A -> A) (p : positive) (x : A) :
  iter_pos f p x = Nat.iter (Pos.to_nat p) f x.
Proof.
  revert x. induction p as [p IH|p IH|]; intros x; cbn [iter_pos].
  - rewrite !IH.
    replace (Pos.to_nat p~1) with (Pos.to_nat p + (Pos.to_nat p + 1))%nat by lia.
    rewrite !Nat.iter_add. reflexivity.
  - rewrite !IH.
    replace (Pos.to_nat p~0) with (Pos.to_nat p + Pos.to_nat p)%nat by lia.
    rewrite Nat.iter_add. reflexivity.
  - reflexivity.
Qed.

Lemma digits2_pos_size (p : positive) : digits2_pos p = Pos.size p.
Proof. induction p; cbn; congruence. Qed.

Lemma Zdigits2_log2 (m : Z) : 0 < m -> Zdigits2 m = Z.log2 m + 1.
Proof.
  destruct m as [|p|p]; try lia. intros _. cbn [Zdigits2].
  rewrite digits2_pos_size. destruct p; cbn [Z.log2 Pos.size]; lia.
Qed.

Lemma Zdigits2_bounds (m : Z) :
  0 < m -> 2 ^ (Zdigits2 m - 1) <= m < 2 ^ Zdigits2 m.
Proof.
  intros H. rewrite Zdigits2_log2 by assumption.
  replace (Z.log2 m + 1 - 1) with (Z.log2 m) by lia.
  replace (Z.log2 m + 1) with (Z.succ (Z.log2 m)) by lia.
  apply Z.log2_spec; assumption.
Qed.

Lemma Zdigits2_nonneg (m : Z) : 0 <= m -> 0 <= Zdigits2 m.
Proof. destruct m; cbn; lia. Qed.

Lemma Zdigits2_pos (m : Z) : 0 < m -> 0 < Zdigits2 m.
Proof. destruct m; cbn; lia. Qed.

Lemma shr_1_m (mrs : shr_record) :
  0 <= shr_m mrs -> shr_m (shr_1 mrs) = shr_m mrs / 2.
Proof.
  destruct mrs as [m r s]. cbn [shr_m]. intros H. rewrite <- Z.div2_div.
  destruct m as [|[p|p|]|p]; try lia; reflexivity.
Qed.

Lemma shr_1_inexact (mrs : shr_record) :
  0 <= shr_m mrs -> inexact (shr_1 mrs) = inexact mrs || Z.odd (shr_m mrs).
Proof.
  destruct mrs as [m r s]. unfold inexact. cbn [shr_m]. intros H.
  destruct m as [|[p|p|]|p]; try lia; cbn; destruct r, s; reflexivity.
Qed.

Lemma mod_pow2_succ (m n : Z) :
  0 <= n ->
  (m mod 2 ^ (n + 1) =? 0) = (m mod 2 ^ n =? 0) && negb (Z.odd (m / 2 ^ n)).
Proof.
  intros Hn.
  assert (Hp : 0 < 2 ^ n) by (apply Z.pow_pos_nonneg; lia).
  rewrite Z.pow_add_r, Z.mul_comm by lia. change (2 ^ 1) with 2.
  rewrite (Z.mul_comm 2), Z.rem_mul_r by lia.
  pose proof (Z.mod_pos_bound m (2 ^ n) Hp) as Hb.
  pose proof (Z.mod_pos_bound (m / 2 ^ n) 2 ltac:(lia)) as Hc.
  rewrite (Zmod_odd (m / 2 ^ n)) in *.
  destruct (Z.odd (m / 2 ^ n)); cbn [negb].
  - rewrite andb_false_r. apply Z.eqb_neq. nia.
  - rewrite andb_true_r. f_equal. lia.
Qed.

Lemma shr_iter (n : nat) (mrs : shr_record) :
  0 <= shr_m mrs ->
  shr_m (Nat.iter n shr_1 mrs) = shr_m mrs / 2 ^ Z.of_nat n /\
  inexact (Nat.iter n shr_1 mrs)
    = inexact mrs || negb (shr_m mrs mod 2 ^ Z.of_nat n =? 0).
Proof.
  intros H0. induction n as [|n [IHm IHi]].
  - change (Nat.iter 0 shr_1 mrs) with mrs. change (2 ^ Z.of_nat 0) with 1.
    rewrite Z.div_1_r, Z.mod_1_r. cbn. rewrite orb_false_r. auto.
  - change (Nat.iter (S n) shr_1 mrs) with (shr_1 (Nat.iter n shr_1 mrs)).
    assert (Hp : 0 < 2 ^ Z.of_nat n) by (apply Z.pow_pos_nonneg; lia).
    assert (Hq : 0 <= shr_m (Nat.iter n shr_1 mrs)).
    { rewrite IHm. apply Z.div_pos; lia. }
    rewrite shr_1_m, shr_1_inexact by assumption.
    rewrite IHm, IHi, Nat2Z.inj_succ.
    replace (Z.succ (Z.of_nat n)) with (Z.of_nat n + 1) by lia.
    split.
    + rewrite Z.pow_add_r by lia. change (2 ^ 1) with 2.
      rewrite Z.div_div by lia. reflexivity.
    + rewrite mod_pow2_succ by lia.
      rewrite negb_andb, negb_involutive, orb_assoc. reflexivity.
Qed.

Lemma shr_spec (mrs : shr_record) (e n : Z) :
  0 <= shr_m mrs ->
  shr_m (fst (shr mrs e n)) = shr_m mrs / 2 ^ Z.max n 0 /\
  snd (shr mrs e n) = e + Z.max n 0 /\
  inexact (fst (shr mrs e n))
    = inexact mrs || negb (shr_m mrs mod 2 ^ Z.max n 0 =? 0).
Proof.
  intros H0. destruct n as [|p|p]; cbn [shr fst snd].
  - change (Z.max 0 0) with 0. change (2 ^ 0) with 1.
    rewrite Z.div_1_r, Z.mod_1_r. cbn. rewrite orb_false_r. repeat split; lia.
  - rewrite iter_pos_nat. destruct (shr_iter (Pos.to_nat p) mrs H0) as [Hm Hi].
    rewrite positive_nat_Z in Hm, Hi.
    replace (Z.max (Z.pos p) 0) with (Z.pos p) by lia. auto.
  - replace (Z.max (Z.neg p) 0) with 0 by lia. change (2 ^ 0) with 1.
    rewrite Z.div_1_r, Z.mod_1_r. cbn. rewrite orb_false_r. repeat split; lia.
Qed.

Lemma rne_cases (mrs : shr_record) :
  let m2 := round_nearest_even (shr_m mrs) (loc_of_shr_record mrs) in
  m2 = shr_m mrs \/ (m2 = shr_m mrs + 1 /\ inexact mrs = true).
Proof.
  destruct mrs as [m [|] [|]]; cbn; auto.
  destruct (Z.even m); auto.
Qed.

Lemma inexact_of_loc (m : Z) (l : location) :
  shr_m (shr_record_of_loc m l) = m /\
  (inexact (shr_record_of_loc m l) = true -> l <> loc_Exact).
Proof.
  destruct l as [|[| |]]; cbn; split; auto; discriminate.
Qed.

Lemma bra_spec (s : bool) (m e : Z) (l : location) :
  0 <= m ->
  let e1 := Z.max e (fexp prec emax (Zdigits2 m + e)) in
  let m1 := m / 2 ^ (e1 - e) in
  exists m2,
    (m2 = m1 \/ (m2 = m1 + 1 /\ (l <> loc_Exact \/ m mod 2 ^ (e1 - e) <> 0))) /\
    binary_round_aux prec emax s m e l = finish s m2 e1.
Proof.
  intros Hm e1 m1. unfold binary_round_aux, shr_fexp.
  destruct (inexact_of_loc m l) as [Hlm Hli].
  destruct (shr_spec (shr_record_of_loc m l) e
              (fexp prec emax (Zdigits2 m + e) - e)) as (Hs & He & Hi).
  { rewrite Hlm. lia. }
  destruct (shr (shr_record_of_loc m l) e (fexp prec emax (Zdigits2 m + e) - e))
    as [mrs' e'] eqn:E1.
  cbn [fst snd] in Hs, He, Hi.
  replace (Z.max (fexp prec emax (Zdigits2 m + e) - e) 0) with (e1 - e) in * by (subst e1; lia).
  rewrite Hlm in Hs, Hi.
  assert (Hp : 0 < 2 ^ (e1 - e)) by (apply Z.pow_pos_nonneg; subst e1; lia).
  assert (Hm1 : 0 <= m1) by (apply Z.div_pos; lia).
  assert (He' : e' = e1) by lia.
  set (m2 := round_nearest_even (shr_m mrs') (loc_of_shr_record mrs')).
  assert (H2 : m2 = m1 \/ (m2 = m1 + 1 /\ (l <> loc_Exact \/ m mod 2 ^ (e1 - e) <> 0))).
  { destruct (rne_cases mrs') as [H|[H Hx]]; fold m2 in H; rewrite Hs in H; fold m1 in H.
    - left; exact H.
    - right; split; [exact H|].
      rewrite Hi in Hx. apply orb_true_iff in Hx. destruct Hx as [Hx|Hx].
      + left; auto.
      + right. apply negb_true_iff, Z.eqb_neq in Hx. exact Hx. }
  exists m2. split; [exact H2|].
  assert (Hm2 : 0 <= m2) by lia.
  destruct (shr_spec (shr_record_of_loc m2 loc_Exact) e'
              (fexp prec emax (Zdigits2 m2 + e') - e')) as (Hs2 & He2 & _).
  { cbn. lia. }
  destruct (shr (shr_record_of_loc m2 loc_Exact) e' (fexp prec emax (Zdigits2 m2 + e') - e'))
    as [mrs'' e''] eqn:E2.
  cbn [fst snd shr_record_of_loc shr_m] in Hs2, He2.
  clear He. subst e'. unfold finish. rewrite Hs2, He2.
  set (F := fexp prec emax (Zdigits2 m2 + e1)).
  replace (e1 + Z.max (F - e1) 0) with (Z.max e1 F) by lia.
  replace (Z.max (F - e1) 0) with (Z.max e1 F - e1) by lia.
  reflexivity.
Qed.

Lemma fexp_eq (x : Z) : fexp prec emax x = Z.max (x - 53) (-1074).
Proof. reflexivity. Qed.

Lemma pow2_pos (k : Z) : 0 <= k -> 0 < 2 ^ k.
Proof. intros. apply Z.pow_pos_nonneg; lia. Qed.

Lemma Zdigits2_le (a b : Z) : 0 <= a <= b -> Zdigits2 a <= Zdigits2 b.
Proof.
  intros [Ha Hab]. destruct (Z.eq_dec a 0) as [->|Hn].
  - apply Zdigits2_nonneg. lia.
  - rewrite !Zdigits2_log2 by lia. pose proof (Z.log2_le_mono a b Hab). lia.
Qed.

Lemma Zdigits2_mul_pow2 (a k : Z) :
  0 < a -> 0 <= k -> Zdigits2 (a * 2 ^ k) = Zdigits2 a + k.
Proof.
  intros Ha Hk. pose proof (pow2_pos k Hk).
  rewrite !Zdigits2_log2 by nia. rewrite Z.log2_mul_pow2 by lia. lia.
Qed.

Lemma Zdigits2_div_pow2 (a k : Z) :
  0 < a -> 0 <= k < Zdigits2 a -> Zdigits2 (a / 2 ^ k) = Zdigits2 a - k.
Proof.
  intros Ha Hk. pose proof (pow2_pos k ltac:(lia)) as Hp.
  pose proof (Zdigits2_bounds a Ha) as [Hlo _].
  assert (Hq : 0 < a / 2 ^ k).
  { apply Z.div_str_pos. split; [lia|].
    apply Z.le_trans with (2 ^ (Zdigits2 a - 1)); [|exact Hlo].
    apply Z.pow_le_mono_r; lia. }
  rewrite !Zdigits2_log2 by lia.
  rewrite <- Z.shiftr_div_pow2 by lia. rewrite Z.log2_shiftr by lia.
  rewrite Zdigits2_log2 in Hk by lia. lia.
Qed.

(** Digits bound the mantissa: fewer digits, smaller number. *)
Lemma Zdigits2_lt_pow2 (a d : Z) : 0 <= a -> a < 2 ^ d -> 0 <= d -> Zdigits2 a <= d.
Proof.
  intros Ha Hlt Hd. destruct (Z.eq_dec a 0) as [->|Hn]; [cbn; lia|].
  destruct (Z_le_gt_dec (Zdigits2 a) d) as [|Hgt]; [assumption|exfalso].
  pose proof (Zdigits2_bounds a ltac:(lia)) as [Hlo _].
  assert (2 ^ d <= 2 ^ (Zdigits2 a - 1)) by (apply Z.pow_le_mono_r; lia). lia.
Qed.

Lemma finish_finite (s : bool) (m2 e1 : Z) :
  0 <= m2 -> e1 <= 971 -> Zdigits2 m2 + e1 <= 1024 ->
  finish s m2 e1 = S754_zero s \/
  exists p e2, finish s m2 e1 = S754_finite s p e2.
Proof.
  intros Hm He Hd. unfold finish. rewrite fexp_eq.
  set (e2 := Z.max e1 (Z.max (Zdigits2 m2 + e1 - 53) (-1074))).
  assert (He2 : e2 <= 971) by lia.
  pose proof (pow2_pos (e2 - e1) ltac:(lia)) as Hp.
  pose proof (Z.div_pos m2 (2 ^ (e2 - e1)) Hm Hp) as Hq.
  destruct (m2 / 2 ^ (e2 - e1)) as [|p|p]; [left; reflexivity| |lia].
  right. exists p, e2.
  replace (e2 <=? emax - prec) with true; [reflexivity|].
  symmetry. apply Z.leb_le. change (emax - prec) with 971. exact He2.
Qed.


Lemma iter_xO (m d : positive) : Zpos (Pos.iter xO m d) = Zpos m * 2 ^ Zpos d.
Proof.
  induction d as [|d IH] using Pos.peano_ind.
  - cbn. lia.
  - rewrite Pos.iter_succ, Pos2Z.inj_xO, IH, Pos2Z.inj_succ.
    rewrite Z.pow_succ_r by lia. lia.
Qed.

Lemma shl_align_spec (mx : positive) (ex ez : Z) :
  let '(mz, ez') := shl_align mx ex ez in
  ez' = Z.min ex ez /\ Zpos mz = Zpos mx * 2 ^ (ex - ez').
Proof.
  unfold shl_align. destruct (ez - ex) as [|d|d] eqn:E.
  - replace (Z.min ex ez) with ex by lia. rewrite Z.sub_diag. cbn [Z.pow]. lia.
  - replace (Z.min ex ez) with ex by lia. rewrite Z.sub_diag. cbn [Z.pow]. lia.
  - replace (Z.min ex ez) with ez by lia. rewrite iter_xO.
    replace (ex - ez) with (Z.pos d) by lia. auto.
Qed.


Lemma Zdigits2_ge (a k : Z) : 0 <= k -> 2 ^ k <= a -> k + 1 <= Zdigits2 a.
Proof.
  intros Hk Ha. pose proof (pow2_pos k Hk).
  pose proof (Zdigits2_bounds a ltac:(lia)) as [_ Hhi].
  pose proof (Zdigits2_pos a ltac:(lia)).
  destruct (Z_le_gt_dec (k + 1) (Zdigits2 a)) as [|Hgt]; [assumption|exfalso].
  assert (2 ^ Zdigits2 a <= 2 ^ k) by (apply Z.pow_le_mono_r; lia). lia.
Qed.






Lemma new_location_exact (n r : Z) : new_location n r = loc_Exact -> r = 0.
Proof.
  unfold new_location, new_location_even, new_location_odd.
  destruct (Z.even n); destruct (r =? 0) eqn:E; try discriminate;
    intros _; apply Z.eqb_eq; exact E.
Qed.

Lemma bounded_inv (m : positive) (e : Z) :
  bounded prec emax m e = true ->
  Z.max (Zdigits2 (Zpos m) + e - 53) (-1074) = e /\ e <= 971.
Proof.
  unfold bounded, canonical_mantissa. intros H.
  apply andb_true_iff in H. destruct H as [H1 H2].
  apply Z.eqb_eq in H1. apply Z.leb_le in H2.
  rewrite fexp_eq in H1. change (emax - prec) with 971 in H2. auto.
Qed.

(** Dividing a Number by a Number in [[1, 2)] never overflows. *)
Lemma SFdiv_finite (sx : bool) (mx : positive) (ex : Z) (sy : bool) (my : positive) :
  bounded prec emax mx ex = true ->
  2 ^ 52 <= Zpos my < 2 ^ 53 ->
  let r := SFdiv prec emax (S754_finite sx mx ex) (S754_finite sy my (-52)) in
  r = S754_zero (xorb sx sy) \/ exists p e, r = S754_finite (xorb sx sy) p e.
Proof.
  intros Hb Hy. apply bounded_inv in Hb. destruct Hb as [Hcan Hex].
  cbn [SFdiv]. unfold SFdiv_core_binary.
  assert (Hd2 : Zdigits2 (Zpos my) = 53).
  { pose proof (Zdigits2_ge (Zpos my) 52 ltac:(lia) ltac:(lia)).
    pose proof (Zdigits2_lt_pow2 (Zpos my) 53 ltac:(lia) ltac:(lia) ltac:(lia)). lia. }
  rewrite Hd2, fexp_eq.
  remember (Zdigits2 (Zpos mx)) as d1 eqn:Hd1.
  pose proof (Zdigits2_pos (Zpos mx) ltac:(lia)) as Hd1p. rewrite <- Hd1 in Hd1p.
  remember (Z.min (Z.max (d1 + ex - (53 + -52) - 53) (-1074)) (ex - -52)) as e' eqn:He'.
  assert (Hs : 0 < ex - -52 - e') by lia.
  destruct (ex - -52 - e') as [|sp|sp] eqn:Es; try lia.
  rewrite Z.shiftl_mul_pow2 by lia. rewrite <- Es.
  pose proof (Z_div_mod (Zpos mx * 2 ^ (ex - -52 - e')) (Zpos my) ltac:(lia)) as Hdm.
  destruct (Z.div_eucl (Zpos mx * 2 ^ (ex - -52 - e')) (Zpos my)) as [q r].
  destruct Hdm as [Hdm Hr].
  (* the dividend in units of 2^e' *)
  remember (Zpos mx * 2 ^ (ex - e')) as U eqn:HU.
  assert (HUp : 0 < U).
  { subst U. pose proof (pow2_pos (ex - e') ltac:(lia)). nia. }
  assert (HmU : Zpos mx * 2 ^ (ex - -52 - e') = U * 2 ^ 52).
  { subst U. replace (ex - -52 - e') with (ex - e' + 52) by lia.
    rewrite Z.pow_add_r by lia. ring. }
  rewrite HmU in Hdm.
  assert (Hq0 : 0 <= q) by nia.
  assert (HqU : q <= U) by nia.
  destruct (bra_spec (xorb sx sy) q e' (new_location (Zpos my) r) Hq0)
    as (m2 & Hm2 & ->).
  rewrite fexp_eq in *.
  remember (Z.max e' (Z.max (Zdigits2 q + e' - 53) (-1074))) as e1 eqn:He1.
  assert (HdU : Zdigits2 U = d1 + (ex - e')).
  { subst U d1. apply Zdigits2_mul_pow2; lia. }
  pose proof (Zdigits2_le q U ltac:(lia)) as Hdq.
  assert (He1x : e' <= e1 <= ex) by lia.
  (* the dividend in units of 2^e1 *)
  remember (Zpos mx * 2 ^ (ex - e1)) as T eqn:HT.
  pose proof (pow2_pos (e1 - e') ltac:(lia)) as Hp.
  assert (HUT : U = T * 2 ^ (e1 - e')).
  { subst U T. replace (ex - e') with (ex - e1 + (e1 - e')) by lia.
    rewrite Z.pow_add_r by lia. ring. }
  assert (HdT : Zdigits2 T = d1 + (ex - e1)).
  { subst T d1. apply Zdigits2_mul_pow2; lia. }
  assert (HTp : 0 < T).
  { subst T. pose proof (pow2_pos (ex - e1) ltac:(lia)). nia. }
  pose proof (Z.div_mod q (2 ^ (e1 - e')) ltac:(lia)) as Hqd.
  pose proof (Z.mod_pos_bound q (2 ^ (e1 - e')) Hp) as Hqm.
  remember (q / 2 ^ (e1 - e')) as m1 eqn:Hm1.
  assert (H2T : 0 <= m2 <= T).
  { destruct Hm2 as [->|[-> Hin]].
    - nia.
    - split; [nia|]. destruct Hin as [Hl|Hq].
      + assert (r <> 0) by (intros ->; apply Hl; destruct (Z.even (Zpos my)) eqn:Ev;
          unfold new_location, new_location_even, new_location_odd; rewrite Ev; reflexivity).
        assert (q < U) by nia. nia.
      + nia. }
  pose proof (Zdigits2_le m2 T H2T) as Hd2T.
  apply finish_finite; lia.
Qed.

Lemma fexp_mono (a b : Z) : a <= b -> fexp prec emax a <= fexp prec emax b.
Proof. intros H. rewrite !fexp_eq. lia. Qed.

Lemma small_div_pow2 (m k : Z) : 0 <= m -> Zdigits2 m <= k -> m / 2 ^ k = 0.
Proof.
  intros Hm Hk. apply Z.div_small. split; [exact Hm|].
  destruct (Z.eq_dec m 0) as [->|Hz].
  - apply pow2_pos. cbn in Hk. exact Hk.
  - pose proof (Zdigits2_bounds m ltac:(lia)) as [_ Hhi].
    pose proof (Zdigits2_pos m ltac:(lia)).
    apply Z.lt_le_trans with (2 ^ Zdigits2 m); [exact Hhi|].
    apply Z.pow_le_mono_r; lia.
Qed.

Lemma finish_valid (s : bool) (m2 e1 : Z) :
  0 <= m2 -> e1 <= fexp prec emax (Zdigits2 m2 + e1) ->
  valid_binary (finish s m2 e1) = true.
Proof.
  intros Hm He. unfold finish.
  remember (fexp prec emax (Zdigits2 m2 + e1)) as F eqn:HF.
  replace (Z.max e1 F) with F by lia.
  destruct (Z_le_gt_dec (Zdigits2 m2) (F - e1)) as [Hbig|Hsmall].
  - rewrite small_div_pow2 by assumption. reflexivity.
  - assert (Hpos : 0 < m2).
    { destruct (Z.eq_dec m2 0) as [->|]; [cbn in Hsmall; lia|lia]. }
    pose proof (Zdigits2_div_pow2 m2 (F - e1) Hpos ltac:(lia)) as Hd.
    destruct (m2 / 2 ^ (F - e1)) as [|p|p] eqn:E; try reflexivity.
    destruct (F <=? emax - prec) eqn:Eb; [|reflexivity].
    cbn [valid_binary]. unfold bounded, canonical_mantissa.
    rewrite Eb, andb_true_r. apply Z.eqb_eq.
    change (Z.pos (digits2_pos p)) with (Zdigits2 (Z.pos p)).
    rewrite Hd. replace (Zdigits2 m2 - (F - e1) + F) with (Zdigits2 m2 + e1) by lia.
    symmetry. exact HF.
Qed.

(** [binary_round_aux] returns a valid float when given enough digits. *)
Lemma bra_valid (s : bool) (m e : Z) (l : location) :
  0 <= m -> e <= fexp prec emax (Zdigits2 m + e) ->
  valid_binary (binary_round_aux prec emax s m e l) = true.
Proof.
  intros Hm He.
  destruct (bra_spec s m e l Hm) as (m2 & Hm2 & ->).
  remember (fexp prec emax (Zdigits2 m + e)) as F eqn:HF.
  replace (Z.max e F) with F in * by lia.
  pose proof (pow2_pos (F - e) ltac:(lia)) as Hp.
  pose proof (Z.div_pos m (2 ^ (F - e)) Hm Hp) as Hm1.
  destruct (Z_le_gt_dec (Zdigits2 m) (F - e)) as [Hbig|Hsmall].
  - (* everything is shifted out *)
    rewrite (small_div_pow2 m (F - e) Hm Hbig) in Hm2.
    assert (HF' : F = -1074) by (rewrite fexp_eq in HF; lia).
    destruct Hm2 as [->|[-> _]].
    + reflexivity.
    + apply finish_valid; [lia|]. rewrite HF'. cbn. lia.
  - assert (Hpos : 0 < m).
    { destruct (Z.eq_dec m 0) as [->|]; [cbn in Hsmall; lia|lia]. }
    pose proof (Zdigits2_div_pow2 m (F - e) Hpos ltac:(lia)) as Hd.
    apply finish_valid; [lia|].
    assert (Hle : 0 <= m / 2 ^ (F - e) <= m2) by lia.
    pose proof (Zdigits2_le _ _ Hle) as Hdl.
    apply Z.le_trans with (fexp prec emax (Zdigits2 (m / 2 ^ (F - e)) + F)).
    + rewrite Hd. replace (Zdigits2 m - (F - e) + F) with (Zdigits2 m + e) by lia. lia.
    + apply fexp_mono. lia.
Qed.

Lemma bra_sign (s : bool) (m e : Z) (l : location) :
  binary_round_aux prec emax (negb s) m e l
  = SFopp (binary_round_aux prec emax s m e l).
Proof.
  unfold binary_round_aux.
  destruct (shr_fexp prec emax m e l) as [mrs' e'].
  destruct (shr_fexp prec emax _ e' loc_Exact) as [mrs'' e''].
  destruct (shr_m mrs''); try reflexivity.
  destruct (e'' <=? emax - prec); reflexivity.
Qed.

Lemma Zdigits2_div (a b : Z) :
  0 < a -> 0 < b -> Zdigits2 a - Zdigits2 b <= Zdigits2 (a / b).
Proof.
  intros Ha Hb.
  pose proof (Zdigits2_bounds a Ha) as [Halo _].
  pose proof (Zdigits2_bounds b Hb) as [_ Hbhi].
  pose proof (Zdigits2_pos a Ha). pose proof (Zdigits2_pos b Hb).
  pose proof (Z.div_pos a b ltac:(lia) Hb) as Hq.
  destruct (Z_le_gt_dec (Zdigits2 a - Zdigits2 b) 0) as [Hle|Hgt].
  - pose proof (Zdigits2_nonneg (a / b) Hq). lia.
  - remember (Zdigits2 a - 1 - Zdigits2 b) as k eqn:Hk.
    assert (H2 : 2 ^ (Zdigits2 a - 1) = 2 ^ k * 2 ^ Zdigits2 b).
    { rewrite <- Z.pow_add_r by lia. f_equal. lia. }
    pose proof (pow2_pos k ltac:(lia)) as Hpk.
    assert (2 ^ k <= a / b).
    { apply Z.div_le_lower_bound; [lia|]. nia. }
    pose proof (Zdigits2_ge (a / b) k ltac:(lia) ltac:(lia)). lia.
Qed.

(** The quotient [SFdiv_core_binary] hands to the rounding, for a fraction
    [num / den]. *)
Lemma core_ratio (num den : Z) :
  0 < num -> 0 < den ->
  exists q e l,
    SFdiv_core_binary prec emax num 0 den 0 = (q, e, l) /\
    0 <= q /\ e <= 0 /\ e <= fexp prec emax (Zdigits2 q + e) /\
    q * den <= num * 2 ^ (- e).
Proof.
  intros Hn Hd. unfold SFdiv_core_binary.
  rewrite !Z.add_0_r, Z.sub_0_r.
  remember (Z.min (fexp prec emax (Zdigits2 num - Zdigits2 den)) 0) as e eqn:He.
  assert (He0 : e <= 0) by lia.
  replace (0 - e) with (- e) by lia.
  assert (Hm : (match - e with
                | 0 => num
                | Z.pos _ => Z.shiftl num (- e)
                | Z.neg _ => 0
                end) = num * 2 ^ (- e)).
  { destruct (- e) as [|p|p] eqn:E; [cbn; lia| |lia].
    rewrite Z.shiftl_mul_pow2 by lia. reflexivity. }
  rewrite Hm.
  pose proof (pow2_pos (- e) ltac:(lia)) as Hp.
  pose proof (Z_div_mod (num * 2 ^ (- e)) den ltac:(lia)) as Hdm.
  pose proof (Zdigits2_div (num * 2 ^ (- e)) den ltac:(nia) Hd) as Hdd.
  unfold Z.div in Hdd.
  destruct (Z.div_eucl (num * 2 ^ (- e)) den) as [q r]. cbn [fst] in Hdd.
  destruct Hdm as [Hdm Hr].
  exists q, e, (new_location den r). split; [reflexivity|].
  rewrite Zdigits2_mul_pow2 in Hdd by lia.
  split; [nia|]. split; [exact He0|]. split; [|nia].
  apply Z.le_trans with (fexp prec emax (Zdigits2 num - Zdigits2 den)); [lia|].
  apply fexp_mono. lia.
Qed.

Lemma mantissa_bounds (m : positive) (e : Z) :
  bounded prec emax m e = true ->
  Zpos m < 2 ^ 53 /\ -1074 <= e <= 971 /\ (-1074 < e -> 2 ^ 52 <= Zpos m).
Proof.
  intros Hb. apply bounded_inv in Hb. destruct Hb as [Hc He].
  pose proof (Zdigits2_bounds (Zpos m) ltac:(lia)) as [Hlo Hhi].
  pose proof (Zdigits2_pos (Zpos m) ltac:(lia)) as Hd.
  assert (Hd53 : Zdigits2 (Zpos m) <= 53) by lia.
  split; [|split; [lia|]].
  - apply Z.lt_le_trans with (2 ^ Zdigits2 (Zpos m)); [exact Hhi|].
    apply Z.pow_le_mono_r; lia.
  - intros Hn. assert (Zdigits2 (Zpos m) = 53) as Heq by lia.
    rewrite Heq in Hlo. exact Hlo.
Qed.

End Rounding.

(** ** Facts about Numbers *)

Module NumberFacts.

Import JS Rounding.

Lemma Prim2SF_zero : Prim2SF zero = S754_zero false.
Proof. reflexivity. Qed.

Lemma of_SF (x : float) (sf : spec_float) : Prim2SF x = sf -> x = SF2Prim sf.
Proof. intros <-. symmetry. apply SF2Prim_Prim2SF. Qed.

(** A Number that compares equal to zero is [+0] or [-0]. *)
Lemma eqb_zero_inv (x : float) :
  (x =? zero)%float = true -> x = zero \/ x = neg_zero.
Proof.
  rewrite eqb_spec, Prim2SF_zero.
  destruct (Prim2SF x) as [[|]|[|]| |[|] m e] eqn:E; cbn; try discriminate; intros _.
  - right. now apply of_SF in E.
  - left. now apply of_SF in E.
Qed.

(** [t > 0] excludes [t <= 0]. *)
Lemma ltb_zero_leb (t : float) :
  (zero <? t)%float = true -> (t <=? zero)%float = false.
Proof.
  rewrite ltb_spec, leb_spec, Prim2SF_zero.
  destruct (Prim2SF t) as [[|]|[|]| |[|] m e]; cbn; congruence.
Qed.

(** **** Finite Numbers *)

Lemma isFinite_spec (x : float) :
  isFinite x = match Prim2SF x with
               | S754_zero _ | S754_finite _ _ _ => true
               | _ => false
               end.
Proof.
  unfold isFinite, is_finite, is_nan, is_infinity.
  rewrite !eqb_spec, abs_spec.
  change (Prim2SF infinity) with (S754_infinity false).
  destruct (Prim2SF x) as [[|]|[|]| |[|] m e]; try reflexivity;
    unfold SFeqb; cbn [SFabs SFcompare];
    rewrite Z.compare_refl, Pos.compare_cont_refl; reflexivity.
Qed.

Lemma isNaN_spec (x : float) :
  isNaN x = match Prim2SF x with S754_nan => true | _ => false end.
Proof.
  unfold isNaN, is_nan. rewrite eqb_spec.
  destruct (Prim2SF x) as [[|]|[|]| |[|] m e]; try reflexivity;
    unfold SFeqb; cbn [SFcompare];
    rewrite Z.compare_refl, Pos.compare_cont_refl; reflexivity.
Qed.

Lemma isFinite_not_NaN (x : float) : isFinite x = true -> isNaN x = false.
Proof.
  rewrite isFinite_spec, isNaN_spec. destruct (Prim2SF x); congruence.
Qed.

(** **** The width test of [coeffByWidth] *)



(** **** Division by a coefficient in [[1, 2)] *)

Lemma div_finite (t k : float) (sy : bool) (my : positive) :
  Prim2SF k = S754_finite sy my (-52) ->
  (2 ^ 52 <= Zpos my < 2 ^ 53)%Z ->
  isFinite t = true -> isFinite (t / k)%float = true.
Proof.
  intros Hk Hmy. rewrite !isFinite_spec, div_spec, Hk.
  pose proof (Prim2SF_valid t) as Hv.
  destruct (Prim2SF t) as [s|s| |s m e]; try discriminate; intros _.
  - reflexivity.
  - destruct (Rounding.SFdiv_finite s m e sy my Hv Hmy) as [H|(p & e' & H)];
      unfold SF64div; rewrite H; reflexivity.
Qed.

Lemma div_14_finite (t : float) : isFinite t = true -> isFinite (t / 1.4)%float = true.
Proof.
  apply div_finite with (sy := false) (my := 6305039478318694%positive);
    [reflexivity|lia].
Qed.

Lemma div_12_finite (t : float) : isFinite t = true -> isFinite (t / 1.2)%float = true.
Proof.
  apply div_finite with (sy := false) (my := 5404319552844595%positive);
    [reflexivity|lia].
Qed.

(** **** Equality of Numbers *)

Lemma SFeqb_true (x y : spec_float) :
  SFeqb x y = true ->
  (exists s s', x = S754_zero s /\ y = S754_zero s') \/ (x = y /\ x <> S754_nan).
Proof.
  unfold SFeqb.
  destruct x as [sx|sx| |sx mx ex], y as [sy|sy| |sy my ey]; cbn [SFcompare];
    try discriminate; try (destruct sx; discriminate); try (destruct sy; discriminate).
  - intros _. left. eauto.
  - destruct sx, sy; try discriminate; intros _; right; split; congruence.
  - destruct sx, sy; try discriminate;
      destruct (Z.compare_spec ex ey) as [->| |]; try discriminate;
      rewrite Pos.compare_cont_spec; cbn [Pos.switch_Eq];
      destruct (Pos.compare_spec mx my) as [->| |]; try discriminate;
      intros _; right; split; congruence.
Qed.

Lemma SFeqb_refl (x : spec_float) : x <> S754_nan -> SFeqb x x = true.
Proof.
  unfold SFeqb. destruct x as [s|[|]| |[|] m e]; cbn [SFcompare]; try congruence;
    rewrite Z.compare_refl, Pos.compare_cont_refl; reflexivity.
Qed.

Lemma SFeqb_sym (x y : spec_float) : SFeqb x y = true -> SFeqb y x = true.
Proof.
  intros H. destruct (SFeqb_true x y H) as [(s & s' & -> & ->)|[-> Hn]].
  - reflexivity.
  - apply SFeqb_refl; exact Hn.
Qed.

Lemma SFeqb_trans (x y z : spec_float) :
  SFeqb x y = true -> SFeqb y z = true -> SFeqb x z = true.
Proof.
  intros H1 H2.
  destruct (SFeqb_true x y H1) as [(s & s' & -> & ->)|[-> Hn]].
  - destruct (SFeqb_true _ z H2) as [(t & t' & _ & ->)|[<- _]]; reflexivity.
  - exact H2.
Qed.

Lemma eqb_sym (x y : float) : (x =? y)%float = (y =? x)%float.
Proof.
  rewrite !eqb_spec.
  destruct (SFeqb (Prim2SF x) (Prim2SF y)) eqn:E1, (SFeqb (Prim2SF y) (Prim2SF x)) eqn:E2;
    try reflexivity.
  - apply SFeqb_sym in E1. congruence.
  - apply SFeqb_sym in E2. congruence.
Qed.

Lemma eqb_trans (x y z : float) :
  (x =? y)%float = true -> (y =? z)%float = true -> (x =? z)%float = true.
Proof. rewrite !eqb_spec. apply SFeqb_trans. Qed.

Lemma eqb_not_NaN (x y : float) : (x =? y)%float = true -> isNaN x = false /\ isNaN y = false.
Proof.
  rewrite eqb_spec, !isNaN_spec. intros H.
  destruct (SFeqb_true _ _ H) as [(s & s' & -> & ->)|[<- Hn]]; [auto|].
  destruct (Prim2SF x); auto; congruence.
Qed.

Lemma SameValueZero_sym (a b : value) : SameValueZero a b = SameValueZero b a.
Proof.
  destruct a, b; cbn [SameValueZero]; try reflexivity.
  - destruct b, b0; reflexivity.
  - rewrite eqb_sym, andb_comm. reflexivity.
  - apply String.eqb_sym.
Qed.

Lemma SameValueZero_trans (a b c : value) :
  SameValueZero a b = true -> SameValueZero b c = true -> SameValueZero a c = true.
Proof.
  destruct a, b; cbn [SameValueZero]; try discriminate; destruct c; try discriminate;
    try reflexivity.
  - destruct b, b0, b1; cbn; congruence.
  - intros H1 H2. apply orb_true_iff in H1, H2. apply orb_true_iff.
    destruct H1 as [H1|H1], H2 as [H2|H2].
    + left. eapply eqb_trans; eassumption.
    + apply eqb_not_NaN in H1. apply andb_true_iff in H2. destruct H1, H2. congruence.
    + apply eqb_not_NaN in H2. apply andb_true_iff in H1. destruct H1, H2. congruence.
    + right. apply andb_true_iff in H1, H2. apply andb_true_iff. tauto.
  - intros H1 H2. apply String.eqb_eq in H1, H2. apply String.eqb_eq. congruence.
Qed.

(** **** Adding zero, and sums that are not [-0] *)





(** **** Rounding a fraction to a Number *)

Local Open Scope Z_scope.

Lemma isFinite_SF2Prim (sf : spec_float) :
  valid_binary sf = true ->
  isFinite (SF2Prim sf)
  = match sf with S754_zero _ | S754_finite _ _ _ => true | _ => false end.
Proof.
  intros Hv. rewrite isFinite_spec, Prim2SF_SF2Prim by exact Hv. reflexivity.
Qed.

Lemma round_ratio_sign (neg : bool) (num den : Z) :
  0 <= num -> 0 < den ->
  isFinite (round_ratio neg num den) = isFinite (round_ratio false num den).
Proof.
  intros Hn Hd. unfold round_ratio.
  destruct num as [|p|p]; [destruct neg; reflexivity| |lia].
  destruct (core_ratio (Z.pos p) den ltac:(lia) Hd) as (q & e & l & -> & Hq & _ & He & _).
  rewrite !isFinite_SF2Prim by (apply bra_valid; assumption).
  destruct neg; [|reflexivity].
  change true with (negb false) at 1. rewrite bra_sign.
  destruct (binary_round_aux prec emax false q e l); reflexivity.
Qed.

(** A fraction below [2^1000] rounds to a finite Number. *)
Lemma round_ratio_finite (neg : bool) (num den : Z) :
  0 <= num -> 0 < den -> num < den * 2 ^ 1000 ->
  isFinite (round_ratio neg num den) = true.
Proof.
  intros Hn Hd Hb. unfold round_ratio.
  destruct num as [|p|p]; [destruct neg; reflexivity| |lia].
  destruct (core_ratio (Z.pos p) den ltac:(lia) Hd)
    as (q & e & l & -> & Hq & He0 & He & Hqd).
  rewrite isFinite_SF2Prim by (apply bra_valid; assumption).
  destruct (bra_spec neg q e l Hq) as (m2 & Hm2 & ->).
  remember (fexp prec emax (Zdigits2 q + e)) as F eqn:HF.
  replace (Z.max e F) with F in * by lia.
  pose proof (pow2_pos (- e) ltac:(lia)) as Hpe.
  pose proof (pow2_pos (F - e) ltac:(lia)) as Hp.
  (* q < 2^(1000 - e) *)
  assert (Hq2 : q < 2 ^ (1000 - e)).
  { replace (1000 - e) with (1000 + - e) by lia. rewrite Z.pow_add_r by lia.
    nia. }
  pose proof (Zdigits2_lt_pow2 q (1000 - e) Hq Hq2 ltac:(lia)) as Hdq.
  assert (HF1 : F <= 947) by (rewrite fexp_eq in HF; lia).
  pose proof (Z.div_pos q (2 ^ (F - e)) Hq Hp) as Hm1.
  assert (Hm1b : q / 2 ^ (F - e) < 2 ^ (1000 - F)).
  { apply Z.div_lt_upper_bound; [lia|].
    rewrite <- Z.pow_add_r by lia. replace (F - e + (1000 - F)) with (1000 - e) by lia.
    exact Hq2. }
  assert (Hm2b : 0 <= m2 < 2 ^ (1001 - F)).
  { replace (1001 - F) with (Z.succ (1000 - F)) by lia.
    rewrite Z.pow_succ_r by lia. lia. }
  pose proof (Zdigits2_lt_pow2 m2 (1001 - F) ltac:(lia) ltac:(lia) ltac:(lia)) as Hd2.
  destruct (finish_finite neg m2 F ltac:(lia) ltac:(lia) ltac:(lia))
    as [->|(p' & e' & ->)]; reflexivity.
Qed.

Lemma isFinite_abs (x : float) : isFinite x = true -> isFinite (abs x) = true.
Proof.
  rewrite !isFinite_spec, abs_spec. destruct (Prim2SF x); auto.
Qed.

Lemma of_decimal_sign (neg : bool) (v p : Z) :
  0 <= v -> 0 <= p ->
  isFinite (of_decimal neg v p) = isFinite (of_decimal false v p).
Proof.
  intros Hv Hp. unfold of_decimal. rewrite (proj2 (Z.leb_le 0 p) Hp).
  apply round_ratio_sign; [|lia].
  pose proof (Z.pow_pos_nonneg 10 p ltac:(lia) Hp). nia.
Qed.

End NumberFacts.

(** ** Facts about printing Numbers and reading them back *)

Module Printing.

Import JS App Spec SF Literal Rounding NumberFacts.
Local Open Scope Z_scope.

(** **** Strings *)

Lemma str_of_chars (l : chars) : str (string_of_list_ascii l) = l.
Proof. apply list_ascii_of_string_of_list_ascii. Qed.

Lemma replace_first_single (a b c : ascii) (l : chars) :
  replace_first [a] [b] (c :: l)
  = if Ascii.eqb a c then b :: l else c :: replace_first [a] [b] l.
Proof. cbn. destruct (Ascii.eqb a c); reflexivity. Qed.

(** Swapping the first point for a comma and back restores a text
    without commas. *)
Lemma replace_back (l : chars) :
  ~ In comma l ->
  replace_first [comma] [dot] (replace_first [dot] [comma] l) = l.
Proof.
  induction l as [|c l IH]; intros Hn; [reflexivity|].
  rewrite replace_first_single.
  destruct (Ascii.eqb dot c) eqn:E.
  - apply Ascii.eqb_eq in E. subst c. reflexivity.
  - rewrite replace_first_single.
    destruct (Ascii.eqb comma c) eqn:E2.
    + apply Ascii.eqb_eq in E2. subst c. exfalso. apply Hn. left. reflexivity.
    + rewrite IH; [reflexivity|]. intros H. apply Hn. right. exact H.
Qed.

Lemma replace_first_nonempty (a b : ascii) (l : chars) :
  l <> [] -> replace_first [a] [b] l <> [].
Proof.
  destruct l as [|c l]; [congruence|]. intros _. rewrite replace_first_single.
  destruct (Ascii.eqb a c); discriminate.
Qed.

Lemma replace_chars (a b : ascii) (l : chars) :
  replace (String a EmptyString) (String b EmptyString) (string_of_list_ascii l)
  = string_of_list_ascii (replace_first [a] [b] l).
Proof. unfold replace. rewrite str_of_chars. reflexivity. Qed.

(** **** Decimal digits *)

Lemma digit_spec (d : Z) : 0 <= d <= 9 -> digit_of 10 (digit d) = Some d.
Proof.
  intros H.
  assert (d = 0 \/ d = 1 \/ d = 2 \/ d = 3 \/ d = 4 \/ d = 5 \/ d = 6 \/ d = 7
          \/ d = 8 \/ d = 9) as Hd by lia.
  repeat (destruct Hd as [->|Hd]; [reflexivity|]). subst d. reflexivity.
Qed.

Lemma digit_is_digit (d : Z) : 0 <= d <= 9 -> is_digit (digit d) = true.
Proof. intros H. unfold is_digit. rewrite digit_spec by exact H. reflexivity. Qed.

Lemma digit_val_digit (d : Z) : 0 <= d <= 9 -> digit_val (digit d) = d.
Proof. intros H. unfold digit_val. rewrite digit_spec by exact H. reflexivity. Qed.

Lemma take_digits_all (a rest : chars) :
  forallb is_digit a = true ->
  match rest with [] => True | c :: _ => is_digit c = false end ->
  take_digits 10 (a ++ rest) = (map digit_val a, rest).
Proof.
  intros Ha Hr. induction a as [|c a IH]; cbn [app map].
  - destruct rest as [|c rest]; [reflexivity|]. cbn [take_digits].
    unfold is_digit in Hr. destruct (digit_of 10 c); [discriminate|reflexivity].
  - cbn [forallb] in Ha. apply andb_true_iff in Ha. destruct Ha as [Hc Ha].
    cbn [take_digits]. unfold digit_val at 1. unfold is_digit in Hc.
    destruct (digit_of 10 c); [|discriminate]. rewrite (IH Ha). reflexivity.
Qed.

Lemma digits_value_from (ds : list Z) (acc : Z) :
  fold_left (fun a d => a * 10 + d) ds acc
  = acc * 10 ^ Z.of_nat (List.length ds) + digits_value 10 ds.
Proof.
  unfold digits_value. revert acc. induction ds as [|d ds IH]; intros acc.
  - cbn. lia.
  - cbn [fold_left List.length]. rewrite IH, (IH (0 * 10 + d)).
    rewrite Nat2Z.inj_succ, Z.pow_succ_r by lia. ring.
Qed.

Lemma digits_value_cons (d : Z) (ds : list Z) :
  digits_value 10 (d :: ds) = d * 10 ^ Z.of_nat (List.length ds) + digits_value 10 ds.
Proof.
  unfold digits_value at 1. cbn [fold_left]. rewrite digits_value_from. ring.
Qed.

Lemma digits_value_app (l1 l2 : list Z) :
  digits_value 10 (l1 ++ l2)
  = digits_value 10 l1 * 10 ^ Z.of_nat (List.length l2) + digits_value 10 l2.
Proof.
  unfold digits_value at 1. rewrite fold_left_app.
  fold (digits_value 10 l1). apply digits_value_from.
Qed.

Lemma value_of_cons (d : Z) (l : chars) :
  0 <= d <= 9 ->
  value_of (digit d :: l) = d * 10 ^ Z.of_nat (List.length l) + value_of l.
Proof.
  intros H. unfold value_of. cbn [map]. rewrite digits_value_cons, length_map.
  rewrite digit_val_digit by exact H. reflexivity.
Qed.

Lemma digits_loop_spec (fuel : nat) (n : Z) (acc : chars) :
  0 <= n < 10 ^ Z.of_nat fuel ->
  value_of (digits_loop fuel n acc) = n * 10 ^ Z.of_nat (List.length acc) + value_of acc /\
  (forallb is_digit acc = true -> forallb is_digit (digits_loop fuel n acc) = true).
Proof.
  revert n acc. induction fuel as [|fuel IH]; intros n acc Hn.
  - cbn in Hn. assert (n = 0) as -> by lia. cbn [digits_loop]. split; [lia|auto].
  - cbn [digits_loop]. fold (digit (n mod 10)).
    pose proof (Z.mod_pos_bound n 10 ltac:(lia)) as Hm.
    pose proof (Z.div_mod n 10 ltac:(lia)) as Hd.
    destruct (n <? 10) eqn:E.
    + apply Z.ltb_lt in E. rewrite Z.mod_small by lia. split.
      * rewrite value_of_cons by lia. reflexivity.
      * intros Ha. cbn [forallb]. rewrite digit_is_digit by lia. exact Ha.
    + apply Z.ltb_ge in E.
      rewrite Nat2Z.inj_succ, Z.pow_succ_r in Hn by lia.
      destruct (IH (n / 10) (digit (n mod 10) :: acc)) as [Hv Hall].
      { split; [apply Z.div_pos; lia|apply Z.div_lt_upper_bound; lia]. }
      split.
      * rewrite Hv, value_of_cons by lia. cbn [List.length].
        rewrite Nat2Z.inj_succ, Z.pow_succ_r by lia. nia.
      * intros Ha. apply Hall. cbn [forallb]. rewrite digit_is_digit by lia. exact Ha.
Qed.

Lemma digits_loop_length (fuel : nat) (n k : Z) (acc : chars) :
  0 <= n < 10 ^ k -> (k = 1 \/ 10 ^ (k - 1) <= n) -> 1 <= k <= Z.of_nat fuel ->
  Z.of_nat (List.length (digits_loop fuel n acc)) = k + Z.of_nat (List.length acc).
Proof.
  revert n k acc. induction fuel as [|fuel IH]; intros n k acc Hn Hk Hf; [lia|].
  cbn [digits_loop].
  destruct (n <? 10) eqn:E.
  - apply Z.ltb_lt in E. cbn [List.length].
    assert (k = 1); [|lia].
    destruct Hk as [|Hk]; [assumption|].
    destruct (Z.eq_dec k 1); [assumption|exfalso].
    assert (10 ^ 1 <= 10 ^ (k - 1)) by (apply Z.pow_le_mono_r; lia). lia.
  - apply Z.ltb_ge in E.
    assert (Hk1 : 1 < k).
    { destruct (Z_lt_le_dec 1 k); [assumption|exfalso].
      assert (k = 1) as -> by lia. lia. }
    assert (Hp : 10 ^ k = 10 * 10 ^ (k - 1)).
    { replace k with (Z.succ (k - 1)) at 1 by lia. apply Z.pow_succ_r. lia. }
    rewrite (IH (n / 10) (k - 1)).
    + cbn [List.length]. lia.
    + split; [apply Z.div_pos; lia|apply Z.div_lt_upper_bound; lia].
    + destruct (Z.eq_dec (k - 1) 1) as [|Hne]; [left; assumption|right].
      apply Z.div_le_lower_bound; [lia|].
      replace (10 * 10 ^ (k - 1 - 1)) with (10 ^ (k - 1)).
      * destruct Hk; lia.
      * replace (k - 1) with (Z.succ (k - 1 - 1)) at 1 by lia. apply Z.pow_succ_r. lia.
    + lia.
Qed.

Lemma decimal_fuel (n : Z) : 0 <= n -> n < 10 ^ Z.of_nat (S (Z.to_nat (Z.log2 n))).
Proof.
  intros Hn. destruct (Z.eq_dec n 0) as [->|Hz]; [reflexivity|].
  pose proof (Z.log2_spec n ltac:(lia)) as [_ Hhi].
  pose proof (Z.log2_nonneg n).
  rewrite Nat2Z.inj_succ, Z2Nat.id by lia.
  apply Z.lt_le_trans with (2 ^ Z.succ (Z.log2 n)); [exact Hhi|].
  apply Z.pow_le_mono_l. lia.
Qed.

Lemma decimal_value (n : Z) : 0 <= n -> value_of (decimal n) = n.
Proof.
  intros Hn. unfold decimal.
  destruct (digits_loop_spec (S (Z.to_nat (Z.log2 n))) n []) as [Hv _].
  { split; [exact Hn|apply decimal_fuel, Hn]. }
  rewrite Hv. cbn. lia.
Qed.

Lemma decimal_digits (n : Z) : 0 <= n -> forallb is_digit (decimal n) = true.
Proof.
  intros Hn. unfold decimal.
  destruct (digits_loop_spec (S (Z.to_nat (Z.log2 n))) n []) as [_ Ha].
  { split; [exact Hn|apply decimal_fuel, Hn]. }
  apply Ha. reflexivity.
Qed.

Lemma decimal_length (n k : Z) :
  0 <= n < 10 ^ k -> (k = 1 \/ 10 ^ (k - 1) <= n) -> 1 <= k ->
  Z.of_nat (List.length (decimal n)) = k.
Proof.
  intros Hn Hk H1. unfold decimal.
  rewrite (digits_loop_length _ n k []); [cbn; lia|assumption|assumption|].
  split; [lia|]. rewrite Nat2Z.inj_succ.
  destruct (Z.eq_dec k 1) as [->|Hne]; [lia|].
  destruct Hk as [|Hk]; [contradiction|].
  assert (Hp : 0 < n).
  { pose proof (Z.pow_pos_nonneg 10 (k - 1) ltac:(lia) ltac:(lia)). lia. }
  rewrite Z2Nat.id by apply Z.log2_nonneg.
  assert (2 ^ (k - 1) <= n).
  { apply Z.le_trans with (10 ^ (k - 1)); [|exact Hk].
    apply Z.pow_le_mono_l. lia. }
  pose proof (Z.log2_le_pow2 n (k - 1) Hp). lia.
Qed.

Lemma decimal_nonempty (n : Z) : 0 <= n -> decimal n <> [].
Proof.
  intros Hn E.
  destruct (Z_lt_le_dec n 10) as [Hlt|Hge].
  - pose proof (decimal_length n 1 ltac:(cbn; lia) ltac:(auto) ltac:(lia)) as H.
    rewrite E in H. discriminate.
  - pose proof (decimal_value n Hn) as H. rewrite E in H. cbn in H. lia.
Qed.

(** **** Reading back a printed Number *)

Ltac each_char c :=
  destruct c as [[|] [|] [|] [|] [|] [|] [|] [|]].

Lemma digit_facts (c : ascii) :
  is_digit c = true ->
  is_plain c = true /\ is_char c "." = false /\ is_char c "+" = false /\
  is_char c "-" = false /\ is_char c "eE" = false /\ is_char c "0" = is_char c "0" /\
  Ascii.eqb "I" c = false /\ c <> comma.
Proof.
  each_char c; intros H; try (cbv in H; discriminate H);
    repeat split; try reflexivity; discriminate.
Qed.

Lemma plain_facts (c : ascii) :
  is_plain c = true ->
  is_char c "xX" = false /\ is_char c "oO" = false /\ is_char c "bB" = false /\
  c <> comma.
Proof.
  each_char c; intros H; try (cbv in H; discriminate H);
    repeat split; try reflexivity; discriminate.
Qed.

Lemma plain_not_space (c : ascii) (s : chars) :
  is_plain c = true ->
  strip_one str_white_space (c :: s) = None /\
  strip_one (map (@rev ascii) str_white_space) (c :: s) = None.
Proof.
  each_char c; intros H; try (cbv in H; discriminate H); split; reflexivity.
Qed.

Lemma strip_leading_none (ws : list chars) (fuel : nat) (s : chars) :
  strip_one ws s = None -> strip_leading ws fuel s = s.
Proof. intros H. destruct fuel; cbn [strip_leading]; [|rewrite H]; reflexivity. Qed.

Lemma trim_plain (l : chars) : forallb is_plain l = true -> trim l = l.
Proof.
  intros H. unfold trim.
  assert (H1 : strip_leading str_white_space (List.length l) l = l).
  { destruct l as [|c l]; [reflexivity|]. cbn [forallb] in H.
    apply andb_true_iff in H. destruct H as [Hc _].
    apply strip_leading_none. exact (proj1 (plain_not_space c l Hc)). }
  rewrite H1.
  assert (Hr : forallb is_plain (rev l) = true).
  { rewrite forallb_forall in *. intros x Hx. apply H. apply in_rev. exact Hx. }
  destruct (rev l) as [|c r] eqn:E.
  - cbn. apply (f_equal (@rev ascii)) in E. rewrite rev_involutive in E. subst l. reflexivity.
  - cbn [forallb] in Hr. apply andb_true_iff in Hr. destruct Hr as [Hc _].
    rewrite strip_leading_none by exact (proj2 (plain_not_space c r Hc)).
    rewrite <- E. apply rev_involutive.
Qed.

Lemma parse_non_decimal_plain (z p : ascii) (t : chars) :
  is_plain p = true -> parse_non_decimal (z :: p :: t) = None.
Proof.
  intros Hp. destruct (plain_facts p Hp) as (Hx & Ho & Hb & _).
  unfold parse_non_decimal. rewrite Hx, Ho, Hb.
  destruct (is_char z "0"); reflexivity.
Qed.

Lemma parse_non_decimal_head (l : chars) :
  forallb is_plain l = true -> parse_non_decimal l = None.
Proof.
  destruct l as [|z [|p t]]; try reflexivity. cbn [forallb].
  intros H. apply andb_true_iff in H. destruct H as [_ H].
  apply andb_true_iff in H. destruct H as [Hp _].
  apply parse_non_decimal_plain, Hp.
Qed.

(** The parts of a decimal literal: fraction and exponent. *)

Lemma parse_exponent_part (d : option chars) :
  exp_ok d -> parse_exponent (exp_part d) = Some (exp_value d).
Proof.
  destruct d as [d|]; [|reflexivity]. intros [Hne Hd].
  cbn [exp_part parse_exponent exp_value].
  change (is_char "e" "eE") with true. change (is_char "+" "+") with true. cbn iota.
  pose proof (take_digits_all d [] Hd I) as Ht. rewrite app_nil_r in Ht. rewrite Ht.
  destruct d as [|c d]; [congruence|]. reflexivity.
Qed.

Lemma exp_part_head (d : option chars) :
  match exp_part d with [] => True | c :: _ => is_digit c = false end.
Proof. destruct d; cbn; auto. Qed.

Lemma parse_unsigned_literal (a : chars) (b d : option chars) :
  a <> [] -> forallb is_digit a = true -> digits_opt b -> exp_ok d ->
  parse_unsigned_decimal (a ++ frac_part b ++ exp_part d)
  = Some (value_of (a ++ frac_digits b),
          exp_value d - Z.of_nat (List.length (frac_digits b))).
Proof.
  intros Hne Ha Hb Hd. unfold parse_unsigned_decimal.
  destruct b as [b|]; cbn [frac_part frac_digits digits_opt app] in *.
  - rewrite (take_digits_all a (dot :: b ++ exp_part d) Ha) by reflexivity.
    change (is_char dot ".") with true. cbn iota.
    rewrite (take_digits_all b (exp_part d) Hb) by apply exp_part_head.
    rewrite parse_exponent_part by exact Hd.
    unfold value_of. rewrite map_app, length_map.
    destruct a as [|c a]; [congruence|]. reflexivity.
  - cbn [app]. rewrite (take_digits_all a (exp_part d) Ha) by apply exp_part_head.
    assert (Hr : (match exp_part d with
                  | [] => (false, @nil Z, exp_part d)
                  | c :: t => if is_char c "."
                              then let '(fp, r) := take_digits 10 t in (true, fp, r)
                              else (false, [], exp_part d)
                  end) = (false, [], exp_part d)).
    { destruct d; reflexivity. }
    rewrite Hr. rewrite parse_exponent_part by exact Hd.
    rewrite !app_nil_r. unfold value_of.
    destruct a as [|c a]; [congruence|]. reflexivity.
Qed.

Lemma literal_plain (neg : bool) (a : chars) (b d : option chars) :
  forallb is_digit a = true -> digits_opt b -> exp_ok d ->
  forallb is_plain (literal neg a b d) = true.
Proof.
  intros Ha Hb Hd.
  assert (Hdp : forall l, forallb is_digit l = true -> forallb is_plain l = true).
  { intros l Hl. rewrite forallb_forall in *. intros x Hx.
    apply (digit_facts x (Hl x Hx)). }
  unfold literal. rewrite !forallb_app.
  rewrite (Hdp a Ha).
  assert (H1 : forallb is_plain (if neg then ["-"%char] else []) = true)
    by (destruct neg; reflexivity).
  assert (H2 : forallb is_plain (frac_part b) = true).
  { destruct b as [b|]; [|reflexivity]. cbn [frac_part forallb].
    rewrite (Hdp b Hb). reflexivity. }
  assert (H3 : forallb is_plain (exp_part d) = true).
  { destruct d as [d|]; [|reflexivity]. cbn [exp_part forallb].
    destruct Hd as [_ Hd]. rewrite (Hdp d Hd). reflexivity. }
  rewrite H1, H2, H3. reflexivity.
Qed.

Lemma StringToNumber_plain (l : chars) :
  l <> [] -> forallb is_plain l = true ->
  StringToNumber (string_of_list_ascii l) = parse_str_decimal l.
Proof.
  intros Hne Hp. unfold StringToNumber. rewrite str_of_chars, trim_plain by exact Hp.
  pose proof (parse_non_decimal_head l Hp) as Hn.
  destruct l as [|c l]; [congruence|]. rewrite Hn. reflexivity.
Qed.

(** [Number] of a printed decimal literal. *)
Lemma Number_of_literal (neg : bool) (a : chars) (b d : option chars) :
  a <> [] -> forallb is_digit a = true -> digits_opt b -> exp_ok d ->
  StringToNumber (string_of_list_ascii (literal neg a b d))
  = of_decimal neg (value_of (a ++ frac_digits b))
      (exp_value d - Z.of_nat (List.length (frac_digits b))).
Proof.
  intros Hne Ha Hb Hd.
  rewrite StringToNumber_plain;
    [|unfold literal; destruct neg, a; cbn; congruence|apply literal_plain; assumption].
  pose proof (parse_unsigned_literal a b d Hne Ha Hb Hd) as Hp.
  destruct a as [|c a]; [congruence|].
  cbn [forallb] in Ha. apply andb_true_iff in Ha. destruct Ha as [Hc Ha].
  destruct (digit_facts c Hc) as (_ & _ & Hplus & Hminus & _ & _ & HI & _).
  unfold literal. destruct neg; cbn [app].
  - unfold parse_str_decimal.
    change (is_char "-" "+") with false. change (is_char "-" "-") with true. cbn iota.
    cbn [app] in Hp. rewrite Hp.
    cbn [str list_ascii_of_string starts_with]. rewrite HI. reflexivity.
  - unfold parse_str_decimal. rewrite Hplus, Hminus.
    cbn [app] in Hp. rewrite Hp.
    cbn [str list_ascii_of_string starts_with]. rewrite HI. reflexivity.
Qed.

Lemma literal_no_comma (neg : bool) (a : chars) (b d : option chars) :
  forallb is_digit a = true -> digits_opt b -> exp_ok d ->
  ~ In comma (literal neg a b d).
Proof.
  intros Ha Hb Hd Hin.
  pose proof (literal_plain neg a b d Ha Hb Hd) as Hp.
  rewrite forallb_forall in Hp. specialize (Hp comma Hin). discriminate Hp.
Qed.

(** **** [toFixed] below 1e21 *)

Lemma ratio_of_bounds (m : positive) (e : Z) :
  bounded prec emax m e = true ->
  0 < fst (ratio_of (Zpos m) e) /\ 0 < snd (ratio_of (Zpos m) e) /\
  fst (ratio_of (Zpos m) e) < snd (ratio_of (Zpos m) e) * 2 ^ 1024.
Proof.
  intros Hb. destruct (mantissa_bounds m e Hb) as (Hm & He & _).
  unfold ratio_of. destruct (0 <=? e) eqn:E; cbn [fst snd].
  - apply Z.leb_le in E. pose proof (pow2_pos e E).
    assert (2 ^ e <= 2 ^ 971) by (apply Z.pow_le_mono_r; lia).
    change (2 ^ 1024) with (2 ^ 53 * 2 ^ 971). nia.
  - apply Z.leb_gt in E. pose proof (pow2_pos (- e) ltac:(lia)).
    assert (2 ^ 53 <= 2 ^ 1024) by (apply Z.pow_le_mono_r; lia). nia.
Qed.

Lemma below_1e21 (s : bool) (m : positive) (e : Z) :
  bounded prec emax m e = true ->
  SFleb sf_1e21 (SFabs (S754_finite s m e)) = false ->
  fst (ratio_of (Zpos m) e) < snd (ratio_of (Zpos m) e) * 2 ^ 70.
Proof.
  intros Hb. destruct (mantissa_bounds m e Hb) as (Hm & He & _).
  unfold SFleb, sf_1e21. cbn [SFabs SFcompare].
  destruct (Z.compare_spec 17 e) as [Heq|Hlt|Hgt]; try discriminate; intros _;
    unfold ratio_of.
  - subst e. cbn [Z.leb Z.compare fst snd]. change (2 ^ 70) with (2 ^ 53 * 2 ^ 17). lia.
  - destruct (0 <=? e) eqn:E; cbn [fst snd].
    + apply Z.leb_le in E. pose proof (pow2_pos e E).
      assert (2 ^ e <= 2 ^ 17) by (apply Z.pow_le_mono_r; lia).
      change (2 ^ 70) with (2 ^ 53 * 2 ^ 17). nia.
    + apply Z.leb_gt in E. pose proof (pow2_pos (- e) ltac:(lia)).
      assert (2 ^ 53 <= 2 ^ 70) by (apply Z.pow_le_mono_r; lia). nia.
Qed.

Lemma zeros_digits (z : Z) : forallb is_digit (zeros z) = true.
Proof.
  unfold zeros. induction (Z.to_nat z) as [|n IH]; [reflexivity|].
  cbn [repeat forallb]. rewrite IH. reflexivity.
Qed.

Lemma zeros_length (z : Z) : 0 <= z -> Z.of_nat (List.length (zeros z)) = z.
Proof. intros H. unfold zeros. rewrite repeat_length. lia. Qed.

Lemma value_of_app (l1 l2 : chars) :
  value_of (l1 ++ l2)
  = value_of l1 * 10 ^ Z.of_nat (List.length l2) + value_of l2.
Proof. unfold value_of. rewrite map_app, digits_value_app, length_map. reflexivity. Qed.

Lemma value_of_zeros (z : Z) : value_of (zeros z) = 0.
Proof.
  unfold zeros. induction (Z.to_nat z) as [|n IH]; [reflexivity|].
  cbn [repeat]. change (byte 48) with (digit 0).
  rewrite value_of_cons by lia. fold (digit 0). change (digit 0) with (byte 48).
  rewrite IH. lia.
Qed.

Lemma forallb_split {A} (p : A -> bool) (n : nat) (l : list A) :
  forallb p l = true ->
  forallb p (firstn n l) = true /\ forallb p (skipn n l) = true.
Proof.
  intros H. rewrite <- (firstn_skipn n l), forallb_app in H.
  apply andb_true_iff in H. exact H.
Qed.

Lemma literal_fixed (neg : bool) (a b : chars) :
  (if neg then str "-" else []) ++ a ++ str "." ++ b = literal neg a (Some b) None.
Proof.
  unfold literal. cbn [frac_part exp_part]. rewrite app_nil_r. reflexivity.
Qed.

Lemma toFixed_small (x : float) (s : bool) (m : positive) (e : Z) :
  Prim2SF x = S754_finite s m e ->
  (1e21 <=? abs x)%float = false ->
  exists a b,
    a <> [] /\ forallb is_digit a = true /\ forallb is_digit b = true /\
    toFixed x 2 = string_of_list_ascii (literal s a (Some b) None) /\
    0 <= value_of (a ++ b) < 2 ^ 77 /\ List.length b = 2%nat.
Proof.
  intros E Hlt. pose proof (Prim2SF_valid x) as Hv. rewrite E in Hv. cbn in Hv.
  pose proof Hlt as Hlt'. rewrite leb_spec, abs_spec, E in Hlt'.
  change (Prim2SF 1e21) with sf_1e21 in Hlt'.
  pose proof (below_1e21 s m e Hv Hlt') as Hb.
  destruct (ratio_of_bounds m e Hv) as (Hnum & Hden & _).
  unfold toFixed. rewrite E, Hlt.
  destruct (ratio_of (Zpos m) e) as [num den]. cbn [fst snd] in *.
  remember ((2 * num * 10 ^ 2 + den) / (2 * den)) as n eqn:Hn.
  assert (Hn0 : 0 <= n) by (subst n; apply Z.div_pos; lia).
  assert (Hn77 : n < 2 ^ 77).
  { subst n. apply Z.div_lt_upper_bound; [lia|].
    change (2 ^ 77) with (128 * 2 ^ 70). change (10 ^ 2) with 100. nia. }
  remember (decimal n) as ds eqn:Hds.
  pose proof (decimal_digits n Hn0) as Hdd. rewrite <- Hds in Hdd.
  pose proof (decimal_value n Hn0) as Hdv. rewrite <- Hds in Hdv.
  pose proof (decimal_nonempty n Hn0) as Hdn. rewrite <- Hds in Hdn.
  remember (if Z.of_nat (List.length ds) <=? 2
            then zeros (2 + 1 - Z.of_nat (List.length ds)) ++ ds else ds) as ds' eqn:Hds'.
  assert (H' : forallb is_digit ds' = true /\ value_of ds' = n /\
               3 <= Z.of_nat (List.length ds')).
  { subst ds'. destruct (Z.of_nat (List.length ds) <=? 2) eqn:Ek.
    - apply Z.leb_le in Ek. rewrite forallb_app, zeros_digits, Hdd.
      rewrite value_of_app, value_of_zeros, length_app, Nat2Z.inj_add.
      rewrite zeros_length by lia. repeat split; lia.
    - apply Z.leb_gt in Ek. repeat split; try assumption; lia. }
  destruct H' as (Hd' & Hv' & Hl').
  change (2 =? 0) with false. cbn iota. unfold split_at.
  remember (Z.to_nat (Z.of_nat (List.length ds') - 2)) as j eqn:Hj.
  exists (firstn j ds'), (skipn j ds').
  assert (Hlen : List.length (firstn j ds') = j) by (rewrite length_firstn; lia).
  split.
  { intros Ha. rewrite Ha in Hlen. cbn in Hlen. lia. }
  split; [apply (forallb_split _ j _ Hd')|]. split; [apply (forallb_split _ j _ Hd')|].
  split; [rewrite literal_fixed; reflexivity|].
  rewrite firstn_skipn, Hv', length_skipn. split; lia.
Qed.

Lemma small_literal_finite (neg : bool) (a b : chars) :
  0 <= value_of (a ++ b) < 2 ^ 77 -> List.length b = 2%nat ->
  isFinite (of_decimal neg (value_of (a ++ frac_digits (Some b)))
              (exp_value None - Z.of_nat (List.length (frac_digits (Some b))))) = true.
Proof.
  intros Hv Hl. cbn [frac_digits exp_value]. rewrite Hl. unfold of_decimal.
  change (0 <=? 0 - Z.of_nat 2) with false. cbn iota.
  apply round_ratio_finite; [lia|reflexivity|].
  change (- (0 - Z.of_nat 2)) with 2.
  assert (2 ^ 77 <= 10 ^ 2 * 2 ^ 1000); [|lia].
  change (10 ^ 2) with 100.
  assert (2 ^ 77 <= 2 ^ 1000) by (apply Z.pow_le_mono_r; lia). lia.
Qed.

(** **** [Number::toString] from 1e21 on *)

Lemma at_least_1e21 (s : bool) (m : positive) (e : Z) :
  bounded prec emax m e = true ->
  SFleb sf_1e21 (SFabs (S754_finite s m e)) = true ->
  0 <= e /\ 10 ^ 21 <= Zpos m * 2 ^ e.
Proof.
  intros Hb. destruct (mantissa_bounds m e Hb) as (Hm & He & Hn).
  unfold SFleb, sf_1e21. cbn [SFabs SFcompare].
  destruct (Z.compare_spec 17 e) as [Heq|Hlt|Hgt]; try discriminate.
  - subst e. rewrite Pos.compare_cont_spec. cbn [Pos.switch_Eq].
    destruct (Pos.compare_spec 7629394531250000 m) as [Hq|Hq|Hq]; try discriminate;
      intros _; (split; [lia|]);
      change (10 ^ 21) with (7629394531250000 * 2 ^ 17); lia.
  - intros _. split; [lia|]. specialize (Hn ltac:(lia)).
    assert (2 ^ 18 <= 2 ^ e) by (apply Z.pow_le_mono_r; lia).
    assert (10 ^ 21 <= 2 ^ 52 * 2 ^ 18) by (vm_compute; discriminate). nia.
Qed.

Lemma decade_up_spec (fuel : nat) (num den k : Z) :
  0 < den -> 1 <= k -> den * 10 ^ (k - 1) <= num ->
  num < den * 10 ^ (k + Z.of_nat fuel - 1) ->
  let n := decade_up fuel num den k in
  k <= n /\ den * 10 ^ (n - 1) <= num < den * 10 ^ n.
Proof.
  revert k. induction fuel as [|fuel IH]; intros k Hd Hk Hlo Hhi; cbn [decade_up].
  - replace (k + Z.of_nat 0 - 1) with (k - 1) in Hhi by lia. lia.
  - destruct (num <? den * 10 ^ k) eqn:E.
    + apply Z.ltb_lt in E. lia.
    + apply Z.ltb_ge in E.
      assert (H1 : den * 10 ^ (k + 1 - 1) <= num)
        by (replace (k + 1 - 1) with k by lia; exact E).
      assert (H2 : num < den * 10 ^ (k + 1 + Z.of_nat fuel - 1)).
      { replace (k + 1 + Z.of_nat fuel - 1) with (k + Z.of_nat (S fuel) - 1) by lia.
        exact Hhi. }
      destruct (IH (k + 1) Hd ltac:(lia) H1 H2) as [Hn Hb]. cbv zeta. lia.
Qed.

Lemma shortest_spec (fuel : nat) (x : float) (num den n0 k : Z) :
  0 < den -> den * 10 ^ (n0 - 1) <= num < den * 10 ^ n0 ->
  1 <= k -> k + Z.of_nat fuel <= n0 + 1 ->
  shortest_ok x n0 (shortest fuel x num den n0 k).
Proof.
  revert k. induction fuel as [|fuel IH]; intros k Hd Hn Hk Hf; cbn [shortest].
  - left. reflexivity.
  - assert (Hp : 0 <= n0 - k) by lia.
    unfold scale10. rewrite (proj2 (Z.leb_le 0 (n0 - k)) Hp).
    pose proof (Z.pow_pos_nonneg 10 (n0 - k) ltac:(lia) Hp) as Hpp.
    pose proof (Z.pow_pos_nonneg 10 (k - 1) ltac:(lia) ltac:(lia)) as Hpk.
    assert (H10k : 10 ^ k = 10 * 10 ^ (k - 1)).
    { replace k with (Z.succ (k - 1)) at 1 by lia. apply Z.pow_succ_r. lia. }
    assert (Hn1 : 10 ^ (n0 - 1) = 10 ^ (n0 - k) * 10 ^ (k - 1)).
    { rewrite <- Z.pow_add_r by lia. f_equal. lia. }
    assert (Hn0 : 10 ^ n0 = 10 ^ (n0 - k) * 10 ^ k).
    { rewrite <- Z.pow_add_r by lia. f_equal. lia. }
    remember (num / (den * 10 ^ (n0 - k))) as lo eqn:Hlo.
    assert (Hlob : 10 ^ (k - 1) <= lo < 10 ^ k).
    { subst lo. split.
      - apply Z.div_le_lower_bound; [nia|]. rewrite Hn1 in Hn. nia.
      - apply Z.div_lt_upper_bound; [nia|]. rewrite Hn0 in Hn. nia. }
    assert (Hok_lo : Leibniz.eqb (of_decimal false lo (n0 - k)) x = true ->
                     shortest_ok x n0 (n0, lo)).
    { intros H. apply Leibniz.eqb_spec in H. right. exists k. split; [lia|].
      left. cbn [fst snd]. auto. }
    assert (Hok_hi : Leibniz.eqb (of_decimal false (lo + 1) (n0 - k)) x = true ->
                     shortest_ok x n0
                       (if lo + 1 =? 10 ^ k then (n0 + 1, 1) else (n0, lo + 1))).
    { intros H. apply Leibniz.eqb_spec in H. right. exists k. split; [lia|].
      destruct (lo + 1 =? 10 ^ k) eqn:E.
      - apply Z.eqb_eq in E. right. rewrite <- E. auto.
      - apply Z.eqb_neq in E. left. cbn [fst snd]. repeat split; try lia. exact H. }
    destruct (Leibniz.eqb (of_decimal false lo (n0 - k)) x) eqn:E1,
             (Leibniz.eqb (of_decimal false (lo + 1) (n0 - k)) x) eqn:E2;
      cbn [andb]; auto.
    + destruct (2 * num ?= (2 * lo + 1) * (den * 10 ^ (n0 - k))); auto.
      destruct (Z.even lo); auto.
    + apply IH; try assumption; lia.
Qed.

Lemma literal_exp (neg : bool) (ds : chars) (d : chars) :
  (if neg then str "-" else [])
    ++ ((if Z.of_nat (List.length ds) =? 1 then ds
         else firstn 1 ds ++ str "." ++ skipn 1 ds)
        ++ str "e" ++ str "+" ++ d)
  = literal neg
      (if Z.of_nat (List.length ds) =? 1 then ds else firstn 1 ds)
      (if Z.of_nat (List.length ds) =? 1 then None else Some (skipn 1 ds))
      (Some d).
Proof.
  unfold literal. destruct (Z.of_nat (List.length ds) =? 1); cbn [frac_part exp_part].
  - reflexivity.
  - rewrite <- !app_assoc. reflexivity.
Qed.

Lemma toFixed_large (x : float) (s : bool) (m : positive) (e : Z) :
  Prim2SF x = S754_finite s m e ->
  (1e21 <=? abs x)%float = true ->
  exists a b d,
    a <> [] /\ forallb is_digit a = true /\ digits_opt b /\ exp_ok d /\
    toFixed x 2 = string_of_list_ascii (literal s a b d) /\
    isFinite (of_decimal s (value_of (a ++ frac_digits b))
                (exp_value d - Z.of_nat (List.length (frac_digits b)))) = true.
Proof.
  intros E Hle. pose proof (Prim2SF_valid x) as Hv. rewrite E in Hv. cbn in Hv.
  pose proof Hle as Hle'. rewrite leb_spec, abs_spec, E in Hle'.
  change (Prim2SF 1e21) with sf_1e21 in Hle'.
  destruct (at_least_1e21 s m e Hv Hle') as [He0 H21].
  destruct (ratio_of_bounds m e Hv) as (Hnum & Hden & Hmax).
  assert (Hfin : isFinite (abs x) = true).
  { apply isFinite_abs. rewrite isFinite_spec, E. reflexivity. }
  unfold toFixed. rewrite E, Hle. unfold NumberToString. rewrite E.
  unfold positive_to_chars.
  assert (Hr : ratio_of (Zpos m) e = (Zpos m * 2 ^ e, 1)).
  { unfold ratio_of. rewrite (proj2 (Z.leb_le 0 e) He0). reflexivity. }
  rewrite Hr in *. cbn [fst snd] in *.
  remember (Zpos m * 2 ^ e) as num eqn:Hnumdef.
  (* the decade *)
  unfold decade. rewrite (proj2 (Z.leb_le 1 num)) by lia.
  destruct (decade_up_spec 400 num 1 1 ltac:(lia) ltac:(lia)) as [Hn1 Hdec].
  { change (10 ^ (1 - 1)) with 1. lia. }
  { assert (2 ^ 1024 <= 10 ^ (1 + Z.of_nat 400 - 1)) by (vm_compute; discriminate). lia. }
  remember (decade_up 400 num 1 1) as n0 eqn:Hn0def.
  assert (Hn22 : 22 <= n0).
  { destruct (Z_le_gt_dec 22 n0) as [|Hgt]; [assumption|exfalso].
    assert (10 ^ n0 <= 10 ^ 21) by (apply Z.pow_le_mono_r; lia). lia. }
  pose proof (shortest_spec 17 (abs x) num 1 n0 1 ltac:(lia) Hdec ltac:(lia) ltac:(lia))
    as Hsh.
  destruct (shortest 17 (abs x) num 1 n0 1) as [n sv].
  (* what was found *)
  assert (Hcase : 22 <= n /\ 0 <= sv /\
            isFinite (of_decimal s sv (n - Z.of_nat (List.length (decimal sv)))) = true).
  { destruct Hsh as [[= -> ->]|(k & Hk & [(Hfst & Hsv & Hx)|([= -> ->] & Hx)])].
    - split; [lia|]. split; [lia|].
      change (Z.of_nat (List.length (decimal 0))) with 1.
      unfold of_decimal. rewrite (proj2 (Z.leb_le 0 (n0 - 1))) by lia.
      cbn [Z.mul]. destruct s; reflexivity.
    - cbn [fst snd] in Hfst, Hsv, Hx. subst n.
      pose proof (Z.pow_pos_nonneg 10 (k - 1) ltac:(lia) ltac:(lia)).
      split; [lia|]. split; [lia|].
      rewrite (decimal_length sv k) by (try right; lia).
      rewrite of_decimal_sign by lia. rewrite Hx. exact Hfin.
    - split; [lia|]. split; [lia|].
      change (Z.of_nat (List.length (decimal 1))) with 1.
      rewrite of_decimal_sign by lia.
      replace (of_decimal false 1 (n0 + 1 - 1)) with (of_decimal false (10 ^ k) (n0 - k)).
      + rewrite Hx. exact Hfin.
      + unfold of_decimal.
        rewrite (proj2 (Z.leb_le 0 (n0 - k))), (proj2 (Z.leb_le 0 (n0 + 1 - 1))) by lia.
        f_equal. rewrite <- Z.pow_add_r by lia.
        replace (k + (n0 - k)) with (n0 + 1 - 1) by lia. lia. }
  destruct Hcase as (Hn & Hsv0 & Hfinite).
  remember (decimal sv) as ds eqn:Hds.
  pose proof (decimal_digits sv Hsv0) as Hdd. rewrite <- Hds in Hdd.
  pose proof (decimal_value sv Hsv0) as Hdv. rewrite <- Hds in Hdv.
  pose proof (decimal_nonempty sv Hsv0) as Hdn. rewrite <- Hds in Hdn.
  replace (n <=? 21) with false by (symmetry; apply Z.leb_gt; lia).
  replace (n <=? 0) with false by (symmetry; apply Z.leb_gt; lia).
  rewrite !andb_false_r.
  replace (n - 1 <? 0) with false by (symmetry; apply Z.ltb_ge; lia).
  replace (Z.abs (n - 1)) with (n - 1) by lia.
  unfold split_at. change (Z.to_nat 1) with 1%nat.
  rewrite literal_exp.
  pose proof (decimal_digits (n - 1) ltac:(lia)) as Hed.
  pose proof (decimal_value (n - 1) ltac:(lia)) as Hev.
  pose proof (decimal_nonempty (n - 1) ltac:(lia)) as Hen.
  destruct (forallb_split is_digit 1 ds Hdd) as [Hd1 Hd2].
  eexists _, _, _. split; [|split; [|split; [|split; [|split; [reflexivity|]]]]].
  - destruct (Z.of_nat (List.length ds) =? 1); [exact Hdn|].
    destruct ds; [congruence|discriminate].
  - destruct (Z.of_nat (List.length ds) =? 1); assumption.
  - destruct (Z.of_nat (List.length ds) =? 1); [exact I|exact Hd2].
  - split; assumption.
  - cbn [exp_value]. rewrite Hev.
    destruct (Z.of_nat (List.length ds) =? 1) eqn:Ek; cbn [frac_digits].
    + apply Z.eqb_eq in Ek. rewrite app_nil_r, Hdv. cbn [List.length].
      rewrite Ek in Hfinite. replace (n - 1 - Z.of_nat 0) with (n - 1) by lia.
      exact Hfinite.
    + rewrite firstn_skipn, Hdv, length_skipn.
      assert (1 <= List.length ds)%nat by (destruct ds; [congruence|cbn; lia]).
      replace (n - 1 - Z.of_nat (List.length ds - 1))
        with (n - Z.of_nat (List.length ds)) by lia.
      exact Hfinite.
Qed.

(** **** The displayed distance reads back as a finite Number *)

Lemma toFixed_reads_finite (x : float) :
  isFinite x = true ->
  exists l, l <> [] /\ ~ In comma l /\ toFixed x 2 = string_of_list_ascii l /\
            isFinite (StringToNumber (string_of_list_ascii l)) = true.
Proof.
  intros Hf. pose proof Hf as Hf'. rewrite isFinite_spec in Hf'.
  destruct (Prim2SF x) as [s|s| |s m e] eqn:E; try discriminate.
  - exists (str "0.00"). unfold toFixed. rewrite E.
    split; [discriminate|]. split; [|split; reflexivity].
    intros [H|[H|[H|[H|[]]]]]; discriminate H.
  - assert (Hlit : forall a b d,
                a <> [] -> forallb is_digit a = true -> digits_opt b -> exp_ok d ->
                literal s a b d <> []).
    { intros a b d Hne _ _ _. unfold literal. destruct s, a; cbn; congruence. }
    destruct (1e21 <=? abs x)%float eqn:Hc.
    + destruct (toFixed_large x s m e E Hc) as (a & b & d & Hne & Ha & Hb & Hd & Ht & Hfin).
      exists (literal s a b d). split; [apply Hlit; assumption|].
      split; [apply literal_no_comma; assumption|]. split; [exact Ht|].
      rewrite Number_of_literal by assumption. exact Hfin.
    + destruct (toFixed_small x s m e E Hc) as (a & b & Hne & Ha & Hb & Ht & Hv & Hl).
      exists (literal s a (Some b) None). split; [apply Hlit; cbn; auto|].
      split; [apply literal_no_comma; cbn; auto|]. split; [exact Ht|].
      rewrite Number_of_literal by (cbn; auto).
      apply small_literal_finite; assumption.
Qed.

(** What [fmt2] shows for a finite Number is not empty, and [recalcTotals]
    reads it back as a finite Number. *)
Lemma fmt2_reads_finite (x : float) :
  isFinite x = true ->
  App.fmt2 (Num x) <> EmptyString /\
  isFinite (ToNumber (Str (replace "," "." (App.fmt2 (Num x))))) = true.
Proof.
  intros Hf. unfold App.fmt2. cbn [ToNumber].
  rewrite (isFinite_not_NaN x Hf).
  destruct (toFixed_reads_finite x Hf) as (l & Hne & Hnc & -> & Hfin).
  change "."%string with (String dot EmptyString).
  change ","%string with (String comma EmptyString).
  rewrite !replace_chars, replace_back by exact Hnc. split; [|exact Hfin].
  pose proof (replace_first_nonempty dot comma l Hne) as Hr.
  destruct (replace_first [dot] [comma] l); [congruence|discriminate].
Qed.

End Printing.


(** ** The row calculator *)

Module RowCalculator.

Import JS App Spec.
Local Open Scope string_scope.

Lemma recalcRowKm_shows (row : Row) (tonsValue old : string) :
  trip_tons row = Some tonsValue -> trip_km row = Some old ->
  trip_km (recalcRowKm row)
  = Some match allocation row with
         | Some km => fmt2 (Num km)
         | None => ""
         end.
Proof.
  intros Ht Hk. unfold recalcRowKm, allocation, deliveredTonnage, capped, rowLength.
  rewrite Hk, Ht.
  destruct (selected row); cbn [negb]; [|reflexivity].
  destruct (numOr0 (Str tonsValue) <=? zero)%float; reflexivity.
Qed.







(** C3. A row without a selected route, or with a tonnage that is not
    positive, has no allocated distance, and its distance cell is emptied:
    it does not show a zero. *)
Theorem undefined_allocation_is_empty (row : Row) (tonsValue old : string) :
  trip_tons row = Some tonsValue -> trip_km row = Some old ->
  selected row = false \/ (deliveredTonnage row <=? zero)%float = true ->
  allocation row = None /\
  trip_km (recalcRowKm row) = Some "" /\
  trip_km (recalcRowKm row) <> Some (fmt2 (Num zero)).
Proof.
  intros Ht Hk H.
  assert (Ha : allocation row = None).
  { unfold allocation. destruct H as [->| ->]; [reflexivity|].
    destruct (negb (selected row)); reflexivity. }
  rewrite (recalcRowKm_shows row tonsValue old Ht Hk), Ha.
  repeat split. discriminate.
Qed.

(** C10. Whatever the width, [coeffByWidth] returns 1.4 or 1.2, a positive
    Number: the division [t / k] is never by zero, and for a finite positive
    tonnage its result is finite. *)
Theorem coeffByWidth_positive (widthM : value) :
  let k := coeffByWidth widthM in
  (k = 1.4%float \/ k = 1.2%float) /\
  (zero <? k)%float = true /\
  (k =? zero)%float = false /\
  (forall t : float,
     isFinite t = true -> (zero <? t)%float = true -> isFinite (t / k)%float = true).
Proof.
  intros k. subst k. unfold coeffByWidth.
  destruct (abs (ToNumber widthM - 7) <? 0.01)%float;
    [|destruct (abs (ToNumber widthM - 6) <? 0.01)%float];
    (split; [auto|split; [reflexivity|split; [reflexivity|]]]);
    intros t Hf _; auto using NumberFacts.div_14_finite, NumberFacts.div_12_finite.
Qed.


Lemma undefined_allocation_is_empty_witness :
  trip_km (recalcRowKm (mkRow "R1" "0" "3,57" "7,0" "10,00" "50,00")) = Some "".
Proof.
  apply (undefined_allocation_is_empty
           (mkRow "R1" "0" "3,57" "7,0" "10,00" "50,00") "0" "3,57" eq_refl eq_refl).
  right. reflexivity.
Defined.

(** C2, at a route whose road length the backend left out: the length cell
    is filled with the empty text, which [Number] reads as 0, so the
    distance 12 / 1.2 = 10 is capped to 0 and shown as "0,00". *)
Theorem missing_length_caps_to_zero :
  let ROUTES := fst (loadRoutes (one_route "R2" [("road_width_m", Num 6)])) in
  let row := on_route_change ROUTES (mkRow "R2" "12" "" "" "" "") in
  js_length row = Some "" /\
  isFinite (rowLength row) = true /\
  (deliveredTonnage row / coeffByWidth (Num (getRowWidth row)))%float = 10%float /\
  trip_km row = Some "0,00" /\
  trip_km row <> Some (fmt2 (Num 10)).
Proof.
  cbv zeta. repeat split; try (vm_compute; reflexivity).
  vm_compute. discriminate.
Qed.

(** X1. The cap of [recalcRowKm], for a row with a selected route and a
    positive tonnage: when the text of the length cell reads as a finite
    Number, the distance shown is that Number if [t / k] exceeds it and
    [t / k] otherwise; when it does not read as a Number, [t / k] stands. *)
Theorem cap_by_road_length (row : Row) (tonsValue old : string) :
  trip_tons row = Some tonsValue -> trip_km row = Some old ->
  selected row = true ->
  (zero <? deliveredTonnage row)%float = true ->
  let raw := (deliveredTonnage row / coeffByWidth (Num (getRowWidth row)))%float in
  (isFinite (rowLength row) = true ->
     trip_km (recalcRowKm row)
     = Some (fmt2 (Num (if (rowLength row <? raw)%float then rowLength row else raw)))) /\
  (isFinite (rowLength row) = false ->
     trip_km (recalcRowKm row) = Some (fmt2 (Num raw))).
Proof.
  intros Ht Hk Hsel Hpos raw.
  rewrite (recalcRowKm_shows row tonsValue old Ht Hk). unfold allocation.
  rewrite Hsel. cbn [negb]. rewrite (NumberFacts.ltb_zero_leb _ Hpos).
  fold raw. unfold capped. split; intros ->; reflexivity.
Qed.

Lemma cap_by_road_length_witness :
  trip_km (recalcRowKm (mkRow "R1" "20" "" "7,0" "10,00" "50,00")) = Some "10,00".
Proof.
  apply (proj1 (cap_by_road_length (mkRow "R1" "20" "" "7,0" "10,00" "50,00") "20" ""
                  eq_refl eq_refl eq_refl eq_refl)).
  reflexivity.
Defined.

Lemma coeffByWidth_positive_witness :
  isFinite (20 / coeffByWidth (Str "abc"))%float = true.
Proof.
  apply (proj2 (proj2 (proj2 (coeffByWidth_positive (Str "abc")))) 20%float);
    reflexivity.
Defined.

End RowCalculator.

(** ** The totals *)

Module Totals.

Import JS App Spec.
Local Open Scope string_scope.

Lemma recalcTotals_cells (rows : list Row) (oidSelect : string) :
  recalcTotals rows oidSelect
  = {| total_tons_sum_cell := fmt2 (Num (tonsSum rows));
       total_km_sum_cell := fmt2 (Num (kmSum rows));
       vehicle_tonnage_cell :=
         if truthy (Num (getVehicleTonnage oidSelect))
         then fmt2 (Num (getVehicleTonnage oidSelect)) else em_dash;
       trips_count_cell :=
         if truthy (Num (tripsCount rows))
         then ToString (Num (tripsCount rows)) else em_dash;
       total_tons_cell :=
         if truthy (Num (tonsSum rows)) then fmt2 (Num (tonsSum rows)) else em_dash |}.
Proof. reflexivity. Qed.

Lemma fmt2_of_zero (x : float) : (x =? zero)%float = true -> fmt2 (Num x) = "0,00".
Proof.
  intros H. destruct (NumberFacts.eqb_zero_inv x H) as [-> | ->]; reflexivity.
Qed.

Lemma falsy_zero (x : float) : (x =? zero)%float = true -> truthy (Num x) = false.
Proof. cbn [truthy]. intros ->. reflexivity. Qed.

Lemma fold_add_map {A} (f : A -> float) (l : list A) (acc : float) :
  fold_left (fun a x => (a + f x)%float) l acc = fold_left add (map f l) acc.
Proof. revert acc. induction l as [|x l IH]; intros acc; cbn; [reflexivity|apply IH]. Qed.




(** C5, as the code has it: the vehicle capacity, the trip count and the
    total tonnage of the vehicle block show a dash when they are zero; the
    tonnage sum and the distance sum of the table show the formatted
    Number, "0,00" when it is zero. *)
Theorem zero_totals (rows : list Row) (oidSelect : string) :
  let cells := recalcTotals rows oidSelect in
  ((getVehicleTonnage oidSelect =? zero)%float = true ->
     vehicle_tonnage_cell cells = em_dash) /\
  ((tripsCount rows =? zero)%float = true -> trips_count_cell cells = em_dash) /\
  ((tonsSum rows =? zero)%float = true ->
     total_tons_cell cells = em_dash /\ total_tons_sum_cell cells = "0,00") /\
  ((kmSum rows =? zero)%float = true -> total_km_sum_cell cells = "0,00").
Proof.
  intros cells. subst cells. rewrite recalcTotals_cells.
  cbn [vehicle_tonnage_cell trips_count_cell total_tons_cell total_tons_sum_cell
         total_km_sum_cell].
  split; [|split; [|split]].
  - intros H. rewrite (falsy_zero _ H). reflexivity.
  - intros H. rewrite (falsy_zero _ H). reflexivity.
  - intros H. rewrite (falsy_zero _ H). split; [reflexivity|apply fmt2_of_zero, H].
  - intros H. apply fmt2_of_zero, H.
Qed.

(** C5 as stated fails: with no rows, both sums are zero and the table
    shows "0,00" for them, not a dash. *)
Lemma zero_sums_are_formatted :
  let cells := recalcTotals [] "" in
  (kmSum [] =? zero)%float = true /\ total_km_sum_cell cells = "0,00" /\
  (tonsSum [] =? zero)%float = true /\ total_tons_sum_cell cells = "0,00" /\
  total_km_sum_cell cells <> em_dash /\ total_tons_sum_cell cells <> em_dash.
Proof. cbv zeta. repeat split; try reflexivity; vm_compute; discriminate. Qed.

(** C6, as the code has it: the tonnage sum adds [numOr0] of every row's
    tonnage input, in row order: the Number in the input when it is finite,
    a negative one included, and 0 when the input is missing or does not
    hold a finite Number. *)
Theorem tonnage_sum (rows : list Row) (oidSelect : string) :
  total_tons_sum_cell (recalcTotals rows oidSelect)
  = fmt2 (Num (fold_left add (map deliveredTonnage rows) zero)) /\
  Forall (fun row =>
            (isFinite (tonnageInput row) = true ->
               deliveredTonnage row = tonnageInput row) /\
            (isFinite (tonnageInput row) = false -> deliveredTonnage row = zero) /\
            (trip_tons row = None -> deliveredTonnage row = zero)) rows.
Proof.
  split.
  - rewrite recalcTotals_cells. cbn [total_tons_sum_cell].
    unfold tonsSum. rewrite fold_add_map. reflexivity.
  - apply Forall_forall. intros row _.
    unfold deliveredTonnage, tonnageInput, numOr0.
    repeat split.
    + intros ->. reflexivity.
    + intros ->. reflexivity.
    + intros ->. reflexivity.
Qed.

(** C6 as stated fails: a row with tonnage -5 contributes -5, not 0. *)
Lemma negative_tonnage_is_summed :
  let row := mkRow "" "-5" "" "" "" "" in
  (deliveredTonnage row <=? zero)%float = true /\
  tonsSum [row] = (-5)%float /\
  total_tons_sum_cell (recalcTotals [row] "") = "-5,00".
Proof. cbv zeta. repeat split; vm_compute; reflexivity. Qed.

Lemma zero_totals_witness :
  let cells := recalcTotals [mkRow "" "" "" "" "" ""] "" in
  total_tons_cell cells = em_dash /\ total_tons_sum_cell cells = "0,00".
Proof.
  apply (proj1 (proj2 (proj2 (zero_totals [mkRow "" "" "" "" "" ""] "")))).
  reflexivity.
Defined.

End Totals.

(** ** The route catalogue *)

Module Catalog.

Import JS App Spec.
Local Open Scope string_scope.
Local Open Scope list_scope.

Lemma truthy_key (k : value) (v : Route) :
  truthy k = true -> map_set k v [] = [(k, v)].
Proof.
  destruct k; cbn; try reflexivity. intros H.
  apply negb_true_iff, orb_false_iff in H. destruct H as [-> _]. reflexivity.
Qed.


Lemma map_get_set (k k0 : value) (v : Route) (m : Map Route) :
  truthy k = true ->
  map_get k0 (map_set k v m) = if SameValueZero k k0 then Some v else map_get k0 m.
Proof.
  intros Hk. induction m as [|[k' v'] m IH].
  - rewrite truthy_key by exact Hk. reflexivity.
  - cbn [map_set map_get].
    destruct (SameValueZero k' k) eqn:E1; cbn [map_get].
    + destruct (SameValueZero k' k0) eqn:E2, (SameValueZero k k0) eqn:E3;
        try reflexivity.
      * rewrite NumberFacts.SameValueZero_sym in E1.
        rewrite (NumberFacts.SameValueZero_trans _ _ _ E1 E2) in E3. discriminate.
      * rewrite (NumberFacts.SameValueZero_trans _ _ _ E1 E3) in E2. discriminate.
    + rewrite IH.
      destruct (SameValueZero k' k0) eqn:E2, (SameValueZero k k0) eqn:E3;
        try reflexivity.
      rewrite NumberFacts.SameValueZero_sym in E3.
      rewrite (NumberFacts.SameValueZero_trans _ _ _ E2 E3) in E1. discriminate.
Qed.

Lemma get_named (r : value) (k : string) :
  truthy (get_opt r k) = true -> get r k = get_opt r k.
Proof. destruct r; cbn; congruence. Qed.

Lemma step_named (m : Map Route) (r : value) :
  step m r
  = if truthy (route_name r) then map_set (route_name r) (route_of r) m else m.
Proof.
  unfold step, route_name.
  destruct (truthy (get_opt r "name")) eqn:Ht; cbn [negb];
    [rewrite get_named by exact Ht|]; reflexivity.
Qed.

Lemma fill_routes_fold (routes : list value) :
  fill_routes routes = fold_left step routes [].
Proof. reflexivity. Qed.





Lemma find_app_last {A} (p : A -> bool) (l : list A) (x : A) :
  find p (l ++ [x])
  = match find p l with
    | Some y => Some y
    | None => if p x then Some x else None
    end.
Proof.
  induction l as [|y l IH]; cbn; [reflexivity|]. destruct (p y); [reflexivity|exact IH].
Qed.

Lemma get_from (routes : list value) (m : Map Route) (k : value) :
  map_get k (fold_left step routes m)
  = match last_named k routes with
    | Some r => Some (route_of r)
    | None => map_get k m
    end.
Proof.
  revert m. induction routes as [|r routes IH]; intros m; [reflexivity|].
  cbn [fold_left]. rewrite IH, step_named. unfold last_named, named. cbn [filter].
  fold (named routes).
  destruct (truthy (route_name r)) eqn:Ht; [|reflexivity].
  cbn [rev]. rewrite find_app_last.
  destruct (find (fun r0 => SameValueZero (route_name r0) k) (rev (named routes)));
    [reflexivity|].
  rewrite map_get_set by exact Ht.
  destruct (SameValueZero (route_name r) k); reflexivity.
Qed.



End Catalog.

(** ** The geometry normaliser *)

Module Geometry.

Import JS App Spec.
Local Open Scope string_scope.
Local Open Scope list_scope.

Lemma mapM_spec {A B} (f : A -> result B) (bad : A -> bool) (g : A -> B) (l : list A) :
  (forall a, f a = if bad a then TypeError else Ok (g a)) ->
  mapM f l = if existsb bad l then TypeError else Ok (map g l).
Proof.
  intros Hf. induction l as [|a l IH]; [reflexivity|].
  cbn [mapM existsb map]. rewrite Hf.
  destruct (bad a); cbn [bind orb]; [reflexivity|].
  rewrite IH. destruct (existsb bad l); reflexivity.
Qed.

Lemma existsb_false {A} (bad : A -> bool) (l : list A) :
  existsb bad l = false <-> forall a, In a l -> bad a = false.
Proof.
  split.
  - intros H a Hin. destruct (bad a) eqn:E; [|reflexivity].
    rewrite <- H. symmetry. apply existsb_exists. eauto.
  - intros H. destruct (existsb bad l) eqn:E; [|reflexivity].
    apply existsb_exists in E. destruct E as (a & Hin & Ha).
    rewrite (H a Hin) in Ha. discriminate Ha.
Qed.

Lemma coords_pair_spec (p : value) :
  coords_pair p
  = if bad_coords p then TypeError
    else Ok (if isArray p then Some (ToNumber (index p 0), ToNumber (index p 1)) else None).
Proof.
  unfold coords_pair, bad_coords, Number_of.
  destruct (isArray p); cbn [andb]; [|reflexivity].
  destruct (unconvertible (index p 0)); cbn [bind orb]; [reflexivity|].
  destruct (unconvertible (index p 1)); reflexivity.
Qed.

Lemma point_pair_spec (p : value) :
  point_pair p = if bad_point p then TypeError else Ok (lat_lon p).
Proof.
  assert (H : forall q, q <> Null -> q <> Undefined ->
              get_strict q "lat" = Ok (get q "lat") /\ get_strict q "lon" = Ok (get q "lon")).
  { intros q; destruct q; intros; split; try reflexivity; congruence. }
  destruct p; try reflexivity;
    unfold point_pair, bad_point, lat_lon, Number_of;
    match goal with
    | |- context [get_strict ?q "lat"] =>
        destruct (H q ltac:(discriminate) ltac:(discriminate)) as [-> ->]
    end; cbn [bind];
    match goal with
    | |- context [unconvertible (get ?q "lat")] =>
        destruct (unconvertible (get q "lat")); cbn [bind orb]; [reflexivity|];
        destruct (unconvertible (get q "lon")); reflexivity
    end.
Qed.

Lemma keep_coords_valid (l : list value) :
  keep_coords (map (fun p => if isArray p
                             then Some (ToNumber (index p 0), ToNumber (index p 1))
                             else None) l)
  = valid_pairs (flat_map (fun p => if isArray p
                                    then [(ToNumber (index p 0), ToNumber (index p 1))]
                                    else []) l).
Proof.
  unfold valid_pairs, keep_coords. induction l as [|p l IH]; [reflexivity|].
  cbn [map flat_map]. rewrite filter_app, IH.
  destruct (isArray p); [|reflexivity].
  cbn [filter]. destruct (finite_pair _); reflexivity.
Qed.

Lemma nonempty_false {A} (l : list A) : nonempty l = false -> l = [].
Proof. destruct l; [reflexivity|discriminate]. Qed.

Lemma points_of_trip_spec (v : value) :
  points_of_trip v
  = if existsb bad_point (points_list v) then TypeError
    else Ok (valid_pairs (map lat_lon (points_list v))).
Proof.
  unfold points_of_trip, points_list, valid_pairs.
  destruct (isArray (get_opt v "points")); cbn [andb]; [|reflexivity].
  destruct (nonempty (elems_of (get_opt v "points"))) eqn:En.
  - rewrite (mapM_spec point_pair bad_point lat_lon _ point_pair_spec).
    destruct (existsb bad_point _); reflexivity.
  - apply nonempty_false in En. rewrite En. reflexivity.
Qed.

(** The normaliser, by cases of what it is given. *)
Lemma normalize_spec (trip : value) :
  normalizeLatLngsFromTrip trip
  = if bad_trip trip then TypeError else Ok (trip_line trip).
Proof.
  unfold normalizeLatLngsFromTrip, bad_trip, trip_line, coords_pairs, coords_list.
  rewrite points_of_trip_spec.
  destruct (isArray (get_opt trip "coords")); cbn [andb].
  - destruct (nonempty (elems_of (get_opt trip "coords"))) eqn:En.
    + rewrite (mapM_spec coords_pair bad_coords _ _ coords_pair_spec).
      destruct (existsb bad_coords _); cbn [bind orb]; [reflexivity|].
      rewrite keep_coords_valid.
      destruct (nonempty (valid_pairs _)); cbn [negb andb]; [reflexivity|].
      destruct (existsb bad_point _); reflexivity.
    + apply nonempty_false in En. rewrite En. cbn.
      destruct (existsb bad_point _); reflexivity.
  - cbn. destruct (existsb bad_point _); reflexivity.
Qed.

Lemma trips_spec (trips : list value) :
  mapM normalizeLatLngsFromTrip trips
  = if existsb bad_trip trips then TypeError else Ok (map trip_line trips).
Proof. apply mapM_spec, normalize_spec. Qed.

Lemma valid_pairs_finite (l : LatLngs) :
  Forall (fun q => isFinite (fst q) = true /\ isFinite (snd q) = true) (valid_pairs l).
Proof.
  apply Forall_forall. intros q Hq. apply filter_In in Hq. destruct Hq as [_ Hq].
  apply andb_true_iff in Hq. exact Hq.
Qed.

Lemma trip_line_cases (trip : value) :
  trip_line trip = valid_pairs (coords_pairs trip) \/
  trip_line trip = valid_pairs (map lat_lon (points_list trip)).
Proof. unfold trip_line. destruct (nonempty _); auto. Qed.

(** What the renderer does outside the GeoJSON branch, by cases of what
    it is given. *)
Lemma render_spec (L_geoJSON : value -> result bool) (data : value) :
  is_feature_collection data = false ->
  renderTripsFromApiData L_geoJSON data
  = if nonempty (trips_of data) then
      if existsb bad_trip (trips_of data) then TypeError
      else
        let drawn := filter at_least_two (map trip_line (trips_of data)) in
        Ok {| tripsLayer := map Polyline drawn;
              fitBounds := if nonempty drawn && existsb isValid drawn
                           then map Polyline drawn else [];
              mapInfo := "Рейсов: "
                           ++ ToString (Num (fold_left (fun n _ => (n + 1)%float)
                                               (map Polyline drawn) zero)) |}
    else if existsb bad_point (points_list data) then TypeError
    else
      let ll := valid_pairs (map lat_lon (points_list data)) in
      if at_least_two ll then
        Ok {| tripsLayer := [Polyline ll];
              fitBounds := if isValid ll then [Polyline ll] else [];
              mapInfo := "Точек: " ++ ToString (Num (length_of ll)) |}
      else
        Ok {| tripsLayer := []; fitBounds := [];
              mapInfo := "Маршруты не найдены (пустой ответ)" |}.
Proof.
  intros Hfc. unfold renderTripsFromApiData. rewrite Hfc.
  destruct (nonempty (trips_of data)).
  - rewrite trips_spec. destruct (existsb bad_trip _); reflexivity.
  - unfold points_list, valid_pairs.
    destruct (isArray (get_opt data "points")); cbn [andb]; [|reflexivity].
    destruct (nonempty (elems_of (get_opt data "points"))) eqn:En.
    + rewrite (mapM_spec point_pair bad_point lat_lon _ point_pair_spec).
      destruct (existsb bad_point _); reflexivity.
    + apply nonempty_false in En. rewrite En. reflexivity.
Qed.

(** C8. Every line the normaliser produces is the list of valid pairs of
    one source list, in order: the pairs of a trip's [coords], of a trip's
    [points] or of the top-level [points], each component converted by
    [Number], with exactly the pairs dropped that have a component
    [Number] does not make a finite Number.  The normaliser returns such a
    line unless it meets, before it has one, a component [Number] throws
    on or a point that is [null]. *)
Theorem only_finite_pairs_are_kept (L_geoJSON : value -> result bool) (v : value) :
  (forall ll, normalizeLatLngsFromTrip v = Ok ll ->
     (ll = valid_pairs (coords_pairs v) \/
      ll = valid_pairs (map lat_lon (points_list v))) /\
     Forall (fun q => isFinite (fst q) = true /\ isFinite (snd q) = true) ll) /\
  (forall view ll, renderTripsFromApiData L_geoJSON v = Ok view ->
     In (Polyline ll) (tripsLayer view) ->
     ((exists trip, In trip (trips_of v) /\ normalizeLatLngsFromTrip trip = Ok ll) \/
      ll = valid_pairs (map lat_lon (points_list v))) /\
     Forall (fun q => isFinite (fst q) = true /\ isFinite (snd q) = true) ll) /\
  (bad_trip v = false -> normalizeLatLngsFromTrip v = Ok (trip_line v)).
Proof.
  assert (H1 : forall w ll, normalizeLatLngsFromTrip w = Ok ll ->
     (ll = valid_pairs (coords_pairs w) \/
      ll = valid_pairs (map lat_lon (points_list w))) /\
     Forall (fun q => isFinite (fst q) = true /\ isFinite (snd q) = true) ll).
  { intros w ll. rewrite normalize_spec. destruct (bad_trip w); [discriminate|].
    intros [= <-]. split; [apply trip_line_cases|].
    destruct (trip_line_cases w) as [-> | ->]; apply valid_pairs_finite. }
  split; [apply H1|]. split.
  - intros view ll. destruct (is_feature_collection v) eqn:Hfc.
    { unfold renderTripsFromApiData. rewrite Hfc.
      destruct (L_geoJSON v) as [valid| |m]; cbn [bind]; try discriminate.
      intros [= <-]. cbn. intros [H|[]]. discriminate. }
    rewrite (render_spec L_geoJSON v Hfc).
    destruct (nonempty (trips_of v)).
    { destruct (existsb bad_trip (trips_of v)) eqn:Eb; [discriminate|].
      intros [= <-]. cbn [tripsLayer]. intros Hin.
      apply in_map_iff in Hin. destruct Hin as (ll' & [= ->] & Hin).
      apply filter_In in Hin. destruct Hin as [Hin _].
      apply in_map_iff in Hin. destruct Hin as (trip & <- & Ht).
      assert (Hn : normalizeLatLngsFromTrip trip = Ok (trip_line trip)).
      { rewrite normalize_spec.
        rewrite (proj1 (existsb_false bad_trip (trips_of v)) Eb trip Ht). reflexivity. }
      split; [left; exists trip; auto|]. apply (H1 trip _ Hn). }
    destruct (existsb bad_point (points_list v)); [discriminate|]. cbv zeta.
    destruct (at_least_two (valid_pairs (map lat_lon (points_list v)))).
    + intros [= <-]. cbn [tripsLayer]. intros [[= <-]|[]].
      split; [right; reflexivity|apply valid_pairs_finite].
    + intros [= <-] [].
  - intros Hb. rewrite normalize_spec, Hb. reflexivity.
Qed.

(** The claim as the spec words it fails: a pair of [null]s does not parse
    to finite numbers, and it is kept, as the point (0, 0). *)
Lemma null_pair_is_kept_as_zero :
  let pair := Arr [Null; Null] in
  let trip := Obj [("coords", Arr [pair; Arr [Num 52; Num 37]])] in
  parses_finite (index pair 0) = false /\
  parses_finite (index pair 1) = false /\
  normalizeLatLngsFromTrip trip = Ok [(0, 0); (52, 37)]%float.
Proof. cbv zeta. repeat split. Qed.

Lemma count_fold {A} (l : list A) (z : float) :
  fold_left (fun n _ => (n + 1)%float) l z
  = Nat.iter (List.length l) (fun x => (x + 1)%float) z.
Proof.
  revert z. induction l as [|a l IH]; intros z; [reflexivity|].
  cbn [fold_left List.length]. rewrite IH.
  change (S (List.length l)) with (1 + List.length l)%nat.
  rewrite Nat.add_comm, Nat.iter_add. reflexivity.
Qed.

(** C9. A payload with the shape of a GeoJSON feature collection goes to
    [L.geoJSON] whatever else it holds: its [trips] and [points] are not
    read, what is shown is the GeoJSON layer and the number of features,
    also with no feature or with bounds that are not valid, and an error
    is Leaflet's.  Otherwise, with a non-empty trip list the normaliser
    can read, a trip gives a line only when it has at least two valid
    points, and the label counts those lines. *)
Theorem geojson_first_then_trips (L_geoJSON : value -> result bool) (data : value) :
  (is_feature_collection data = true ->
     renderTripsFromApiData L_geoJSON data
     = (valid <- L_geoJSON data ;; Ok (geojson_view data valid))) /\
  (is_feature_collection data = false -> nonempty (trips_of data) = true ->
   existsb bad_trip (trips_of data) = false ->
   let drawn := filter at_least_two (map trip_line (trips_of data)) in
   exists view,
     renderTripsFromApiData L_geoJSON data = Ok view /\
     tripsLayer view = map Polyline drawn /\
     mapInfo view = ("Рейсов: " ++ ToString (Num (counted_up (List.length drawn))))%string).
Proof.
  split.
  - intros Hfc. unfold renderTripsFromApiData. rewrite Hfc. reflexivity.
  - intros Hfc Hne Hb drawn. rewrite (render_spec L_geoJSON data Hfc), Hne, Hb.
    eexists. split; [reflexivity|].
    cbn [tripsLayer mapInfo]. split; [reflexivity|].
    rewrite count_fold, length_map. reflexivity.
Qed.

Lemma only_finite_pairs_are_kept_witness :
  let trip :=
    Obj [("coords", Arr [Arr [Num 52; Num 37]; Arr [Str "x"; Num 37]; Num 5;
                         Arr [Num 53; Str "38"]])] in
  normalizeLatLngsFromTrip trip = Ok [(52, 37); (53, 38)]%float /\
  Forall (fun q => isFinite (fst q) = true /\ isFinite (snd q) = true)
    [(52, 37); (53, 38)]%float.
Proof.
  intros trip. split; [reflexivity|].
  apply (proj1 (only_finite_pairs_are_kept (fun _ => Ok true) trip)
               [(52, 37); (53, 38)]%float).
  reflexivity.
Defined.

Lemma geojson_first_then_trips_witness :
  let collection :=
    Obj [("type", Str "FeatureCollection"); ("features", Arr []);
         ("trips", Arr [Obj [("points", Arr [Null])]])] in
  let trips :=
    Obj [("trips", Arr [Obj [("coords", Arr [Arr [Num 52; Num 37]; Arr [Num 53; Num 38]])];
                        Obj [("coords", Arr [Arr [Num 52; Num 37]; Arr [Str "x"; Num 1]])]])] in
  renderTripsFromApiData (fun _ => Ok false) collection
  = Ok {| tripsLayer := [GeoJSON collection]; fitBounds := [];
          mapInfo := "GeoJSON: 0 шт." |} /\
  renderTripsFromApiData (fun _ => LibraryError "Invalid GeoJSON object.") collection
  = LibraryError "Invalid GeoJSON object." /\
  exists view,
    renderTripsFromApiData (fun _ => Ok true) trips = Ok view /\
    tripsLayer view = [Polyline [(52, 37); (53, 38)]%float] /\
    mapInfo view = "Рейсов: 1"%string.
Proof.
  intros collection trips. split; [|split].
  - rewrite (proj1 (geojson_first_then_trips (fun _ => Ok false) collection) eq_refl).
    reflexivity.
  - rewrite (proj1 (geojson_first_then_trips
                      (fun _ => LibraryError "Invalid GeoJSON object.") collection) eq_refl).
    reflexivity.
  - destruct (proj2 (geojson_first_then_trips (fun _ => Ok true) trips)
                eq_refl eq_refl eq_refl) as (view & Hr & Hl & Hi).
    exists view. split; [exact Hr|]. split; [exact Hl|]. rewrite Hi. reflexivity.
Defined.

End Geometry.

(** ** Whole Numbers: printing, reading and counting *)

Module Integers.
Import JS App Spec SF Literal Rounding NumberFacts Printing.
Local Open Scope Z_scope.

Lemma digits_53 (n : Z) : 0 < n < 2 ^ 53 -> 1 <= Zdigits2 n <= 53.
Proof.
  intros [Hp Hlt]. pose proof (Zdigits2_pos n Hp).
  pose proof (Zdigits2_lt_pow2 n 53 ltac:(lia) Hlt ltac:(lia)). lia.
Qed.

(** Rounding [n * 2^t] at exponent [-t] gives [n] itself. *)
Lemma bra_int (n t : Z) :
  0 < n < 2 ^ 53 -> 53 - Zdigits2 n <= t -> 0 <= t ->
  binary_round_aux prec emax false (n * 2 ^ t) (- t) loc_Exact = sf_int n.
Proof.
  intros Hn Ht Ht0. pose proof (digits_53 n Hn) as Hd.
  pose proof (pow2_pos t Ht0) as Hpt.
  destruct (bra_spec false (n * 2 ^ t) (- t) loc_Exact ltac:(nia)) as (m2 & Hm2 & ->).
  rewrite Zdigits2_mul_pow2 in * by lia.
  rewrite fexp_eq in *.
  replace (Z.max (- t) (Z.max (Zdigits2 n + t + - t - 53) (-1074)))
    with (Zdigits2 n - 53) in * by lia.
  remember (Zdigits2 n) as d eqn:Hdn.
  replace (d - 53 - - t) with (t - (53 - d)) in Hm2 by lia.
  assert (Hsplit : n * 2 ^ t = n * 2 ^ (53 - d) * 2 ^ (t - (53 - d))).
  { rewrite <- Z.mul_assoc, <- Z.pow_add_r by lia. do 2 f_equal. lia. }
  pose proof (pow2_pos (t - (53 - d)) ltac:(lia)) as Hp2.
  pose proof (pow2_pos (53 - d) ltac:(lia)) as Hp3.
  rewrite Hsplit in Hm2. rewrite Z.div_mul in Hm2 by lia.
  rewrite Z.mod_mul in Hm2 by lia.
  assert (E : m2 = n * 2 ^ (53 - d)) by (destruct Hm2 as [|[_ [H|H]]]; congruence).
  subst m2. unfold finish, sf_int. rewrite <- Hdn.
  rewrite Zdigits2_mul_pow2 by lia. rewrite <- Hdn, fexp_eq.
  replace (Z.max (d - 53) (Z.max (d + (53 - d) + (d - 53) - 53) (-1074))) with (d - 53) by lia.
  rewrite Z.sub_diag, Z.pow_0_r, Z.div_1_r.
  destruct (n * 2 ^ (53 - d)) as [|q|q] eqn:E; [nia| |nia].
  replace (d - 53 <=? emax - prec) with true; [reflexivity|].
  symmetry. apply Z.leb_le. change (emax - prec) with 971. lia.
Qed.

Lemma sf_int_valid (n : Z) : 0 < n < 2 ^ 53 -> valid_binary (sf_int n) = true.
Proof.
  intros Hn. pose proof (digits_53 n Hn) as Hd.
  rewrite <- (bra_int n (54 - Zdigits2 n)) by lia.
  apply bra_valid.
  - pose proof (pow2_pos (54 - Zdigits2 n) ltac:(lia)). nia.
  - rewrite Zdigits2_mul_pow2 by lia. rewrite fexp_eq. lia.
Qed.

(** An integer below [2^53] is a Number. *)
Lemma number_exact (n : Z) : 0 < n < 2 ^ 53 -> Prim2SF (number n) = sf_int n.
Proof.
  intros Hn. pose proof (digits_53 n Hn) as Hd.
  unfold number, round_ratio. destruct n as [|p|p]; [lia| |lia].
  unfold SFdiv_core_binary.
  change (Zdigits2 1) with 1. rewrite !Z.add_0_r, Z.sub_0_r, fexp_eq.
  replace (Z.min (Z.max (Zdigits2 (Z.pos p) - 1 - 53) (-1074)) 0)
    with (- (54 - Zdigits2 (Z.pos p))) by lia.
  remember (54 - Zdigits2 (Z.pos p)) as t eqn:Ht.
  replace (0 - - t) with t by lia.
  destruct t as [|u|u] eqn:Et; [lia| |lia].
  rewrite Z.shiftl_mul_pow2 by lia.
  pose proof (Z.mod_1_r (Z.pos p * 2 ^ Z.pos u)) as Hm.
  pose proof (Z.div_1_r (Z.pos p * 2 ^ Z.pos u)) as Hq.
  unfold Z.modulo, Z.div in Hm, Hq.
  destruct (Z.div_eucl (Z.pos p * 2 ^ Z.pos u) 1) as [q r]. cbn [fst snd] in Hm, Hq. subst q r.
  change (new_location 1 0) with loc_Exact.
  replace (- Z.pos u) with (- (Z.pos u)) by lia.
  rewrite bra_int by lia.
  apply Prim2SF_SF2Prim, sf_int_valid. lia.
Qed.


Lemma number_inj (a b : Z) :
  0 < a < 2 ^ 53 -> 0 < b < 2 ^ 53 -> number a = number b -> a = b.
Proof.
  intros Ha Hb E. apply (f_equal Prim2SF) in E.
  rewrite !number_exact in E by assumption.
  pose proof (digits_53 a Ha). pose proof (digits_53 b Hb).
  unfold sf_int in E. injection E as Em Ee.
  assert (Ed : Zdigits2 a = Zdigits2 b) by lia. rewrite Ed in Em.
  pose proof (pow2_pos (53 - Zdigits2 b) ltac:(lia)) as Hp.
  assert (0 < a * 2 ^ (53 - Zdigits2 b)) by (apply Z.mul_pos_pos; lia).
  assert (0 < b * 2 ^ (53 - Zdigits2 b)) by (apply Z.mul_pos_pos; lia).
  apply (f_equal Z.pos) in Em. rewrite !Z2Pos.id in Em by assumption.
  apply (Z.mul_reg_r a b (2 ^ (53 - Zdigits2 b))); [lia|exact Em].
Qed.

Lemma number_neq (a b : Z) :
  0 < a < 2 ^ 53 -> 0 < b < 2 ^ 53 -> a <> b ->
  Leibniz.eqb (number a) (number b) = false.
Proof.
  intros Ha Hb Hab. destruct (Leibniz.eqb (number a) (number b)) eqn:E; [|reflexivity].
  apply Leibniz.eqb_spec in E. apply number_inj in E; [contradiction|assumption..].
Qed.


(** *** Decimal numerals *)

Lemma value_of_head (c : ascii) (l : chars) :
  value_of (c :: l) = digit_val c * 10 ^ Z.of_nat (List.length l) + value_of l.
Proof.
  unfold value_of. cbn [map]. rewrite digits_value_cons, length_map. reflexivity.
Qed.

Lemma is_digit_inv (c : ascii) :
  is_digit c = true -> 0 <= digit_val c <= 9 /\ c = digit (digit_val c).
Proof.
  destruct c as [[|] [|] [|] [|] [|] [|] [|] [|]]; vm_compute; intros H;
    try discriminate H; split; (reflexivity || split; discriminate).
Qed.

Lemma value_of_bound (l : chars) :
  forallb is_digit l = true -> 0 <= value_of l < 10 ^ Z.of_nat (List.length l).
Proof.
  induction l as [|c l IH]; intros H.
  - cbv. split; [discriminate|reflexivity].
  - cbn [forallb] in H. apply andb_true_iff in H. destruct H as [Hc Hl].
    specialize (IH Hl). destruct (is_digit_inv c Hc) as [Hv _].
    rewrite value_of_head. cbn [List.length]. rewrite Nat2Z.inj_succ, Z.pow_succ_r by lia.
    nia.
Qed.

(** Two digit strings of one length and one value are the same. *)
Lemma digits_unique (l1 l2 : chars) :
  forallb is_digit l1 = true -> forallb is_digit l2 = true ->
  List.length l1 = List.length l2 -> value_of l1 = value_of l2 -> l1 = l2.
Proof.
  revert l2. induction l1 as [|c1 l1 IH]; intros [|c2 l2] H1 H2 Hlen Hv;
    try discriminate Hlen; [reflexivity|].
  cbn [forallb] in H1, H2. apply andb_true_iff in H1, H2.
  destruct H1 as [Hc1 Hl1], H2 as [Hc2 Hl2].
  injection Hlen as Hlen. rewrite !value_of_head, Hlen in Hv.
  pose proof (value_of_bound l1 Hl1) as B1. pose proof (value_of_bound l2 Hl2) as B2.
  rewrite Hlen in B1.
  destruct (is_digit_inv c1 Hc1) as [V1 E1], (is_digit_inv c2 Hc2) as [V2 E2].
  assert (Hd : digit_val c1 = digit_val c2) by nia.
  rewrite E1, E2, Hd. f_equal. apply IH; try assumption. nia.
Qed.

(** Every positive integer lies in one decade. *)
Lemma decade_exists (s : Z) : 0 < s -> exists k, 1 <= k /\ 10 ^ (k - 1) <= s < 10 ^ k.
Proof.
  intros Hs. remember (Z.to_nat s) as n eqn:Hn.
  revert s Hs Hn. induction n as [n IH] using lt_wf_ind. intros s Hs Hn.
  destruct (Z_lt_ge_dec s 10) as [Hlt|Hge].
  - exists 1. cbn. lia.
  - assert (Hq : 0 < s / 10) by (apply Z.div_str_pos; lia).
    assert (Hlt : s / 10 < s) by (apply Z.div_lt; lia).
    destruct (IH (Z.to_nat (s / 10)) ltac:(lia) (s / 10) Hq eq_refl) as (k & Hk & Hlo & Hhi).
    exists (k + 1). split; [lia|].
    replace (k + 1 - 1) with (Z.succ (k - 1)) by lia.
    replace (k + 1) with (Z.succ k) by lia.
    rewrite !Z.pow_succ_r by lia.
    pose proof (Z.div_mod s 10 ltac:(lia)). pose proof (Z.mod_pos_bound s 10 ltac:(lia)).
    lia.
Qed.

Lemma decade_unique (s k k' : Z) :
  1 <= k -> 1 <= k' -> 10 ^ (k - 1) <= s < 10 ^ k -> 10 ^ (k' - 1) <= s < 10 ^ k' -> k = k'.
Proof.
  intros Hk Hk' [Hlo Hhi] [Hlo' Hhi'].
  destruct (Z.lt_trichotomy k k') as [H|[H|H]]; [exfalso|assumption|exfalso].
  - assert (10 ^ k <= 10 ^ (k' - 1)) by (apply Z.pow_le_mono_r; lia). lia.
  - assert (10 ^ k' <= 10 ^ (k - 1)) by (apply Z.pow_le_mono_r; lia). lia.
Qed.

(** The numeral of [s * 10^z] is the numeral of [s] and [z] zeros. *)
Lemma decimal_shift (s z : Z) :
  0 < s -> 0 <= z -> decimal (s * 10 ^ z) = decimal s ++ zeros z.
Proof.
  intros Hs Hz.
  pose proof (Z.pow_pos_nonneg 10 z ltac:(lia) Hz) as Hp.
  destruct (decade_exists s Hs) as (k & Hk & Hlo & Hhi).
  assert (Hlen : Z.of_nat (List.length (decimal s)) = k)
    by (apply decimal_length; [lia|right; lia|lia]).
  assert (Hlen' : Z.of_nat (List.length (decimal (s * 10 ^ z))) = k + z).
  { apply decimal_length; [|right|lia].
    - rewrite Z.pow_add_r by lia. nia.
    - replace (k + z - 1) with (k - 1 + z) by lia. rewrite Z.pow_add_r by lia. nia. }
  apply digits_unique.
  - apply decimal_digits. nia.
  - rewrite forallb_app, decimal_digits, zeros_digits by lia. reflexivity.
  - apply Nat2Z.inj. rewrite length_app, Nat2Z.inj_add, Hlen', Hlen, zeros_length by lia.
    reflexivity.
  - rewrite value_of_app, value_of_zeros, zeros_length, !decimal_value by nia. lia.
Qed.

(** A positive integer is a number not divisible by ten, times a power of
    ten. *)
Lemma trailing_zeros (n : Z) :
  0 < n -> exists s z, n = s * 10 ^ z /\ 0 <= z /\ 0 < s /\ s mod 10 <> 0.
Proof.
  intros Hn. remember (Z.to_nat n) as m eqn:Hm.
  revert n Hn Hm. induction m as [m IH] using lt_wf_ind. intros n Hn Hm.
  destruct (Z.eq_dec (n mod 10) 0) as [Hz|Hnz].
  - assert (Hq : 0 < n / 10).
    { apply Z.div_str_pos. pose proof (Z.div_mod n 10 ltac:(lia)). lia. }
    assert (Hlt : n / 10 < n) by (apply Z.div_lt; lia).
    destruct (IH (Z.to_nat (n / 10)) ltac:(lia) (n / 10) Hq eq_refl)
      as (s & z & E & Hz0 & Hs & Hs10).
    exists s, (z + 1). split; [|repeat split; try assumption; lia].
    rewrite Z.pow_add_r, Z.pow_1_r by lia.
    pose proof (Z.div_mod n 10 ltac:(lia)). lia.
  - exists n, 0. rewrite Z.pow_0_r. repeat split; try assumption; lia.
Qed.


(** *** [Number::toString] of an integer *)

Lemma next_multiple (n P d p : Z) :
  0 <= p <= d -> P = 10 ^ p -> 0 <= n < 10 ^ d -> (n / P + 1) * P <= 10 ^ d.
Proof.
  intros Hp -> Hn.
  pose proof (Z.pow_pos_nonneg 10 p ltac:(lia) ltac:(lia)) as HP.
  assert (E : 10 ^ d = 10 ^ (d - p) * 10 ^ p).
  { rewrite <- Z.pow_add_r by lia. f_equal. lia. }
  assert (n / 10 ^ p < 10 ^ (d - p)).
  { apply Z.div_lt_upper_bound; [lia|]. rewrite Z.mul_comm, <- E. lia. }
  rewrite E. nia.
Qed.

Lemma shortest_int (fuel : nat) (N den d s z k : Z) :
  0 < den -> N = s * 10 ^ z -> 0 <= z -> 0 < s -> s mod 10 <> 0 ->
  10 ^ (d - 1) <= N < 10 ^ d -> 1 <= d <= 15 ->
  1 <= k <= d - z -> d - z - k < Z.of_nat fuel ->
  shortest fuel (number N) (N * den) den d k = (d, s).
Proof.
  intros Hden HN Hz Hs Hs10 HNd Hd.
  assert (H15 : 10 ^ d <= 10 ^ 15) by (apply Z.pow_le_mono_r; lia).
  assert (H53 : 10 ^ 15 < 2 ^ 53) by reflexivity.
  pose proof (Z.pow_pos_nonneg 10 z ltac:(lia) Hz) as Hpz.
  assert (HN0 : 0 < N) by nia.
  revert k. induction fuel as [|fuel IH]; intros k Hk Hfuel; [cbn in Hfuel; lia|].
  cbn [shortest]. unfold scale10.
  remember (d - k) as p eqn:Hp.
  assert (Hp0 : 0 <= p) by lia.
  rewrite (proj2 (Z.leb_le 0 p) Hp0).
  pose proof (Z.pow_pos_nonneg 10 p ltac:(lia) Hp0) as HP.
  rewrite (Z.mul_comm N den), Z.div_mul_cancel_l by lia.
  unfold of_decimal. rewrite (proj2 (Z.leb_le 0 p) Hp0).
  fold (number (N / 10 ^ p * 10 ^ p)). fold (number ((N / 10 ^ p + 1) * 10 ^ p)).
  pose proof (next_multiple N (10 ^ p) d p ltac:(lia) eq_refl ltac:(lia)) as Hnext.
  pose proof (Z.div_mod N (10 ^ p) ltac:(lia)) as Hdm.
  pose proof (Z.mod_pos_bound N (10 ^ p) HP) as Hr.
  assert (Hhi : Leibniz.eqb (number ((N / 10 ^ p + 1) * 10 ^ p)) (number N) = false)
    by (apply number_neq; nia).
  rewrite Hhi, andb_false_r.
  destruct (Z.eq_dec k (d - z)) as [Ek|Nk].
  - (* all the significant digits *)
    assert (Epz : p = z) by lia. clear Hp. subst p.
    assert (Hlo : N / 10 ^ z = s) by (rewrite HN; apply Z.div_mul; lia).
    rewrite Hlo, <- HN.
    replace (Leibniz.eqb (number N) (number N)) with true
      by (symmetry; apply Leibniz.eqb_spec; reflexivity).
    reflexivity.
  - (* too few digits: neither candidate is [N] *)
    assert (Hr0 : N mod 10 ^ p <> 0).
    { intros E. apply Hs10.
      assert (Ep : 10 ^ p = 10 ^ z * (10 * 10 ^ (p - z - 1))).
      { rewrite <- Z.pow_succ_r, <- Z.pow_add_r by lia. f_equal. lia. }
      rewrite E, Z.add_0_r in Hdm.
      remember (N / 10 ^ p) as q eqn:Hq. clear Hq.
      assert (Es : s = 10 * (10 ^ (p - z - 1) * q)).
      { apply (Z.mul_reg_r _ _ (10 ^ z)); [lia|]. rewrite <- HN, Hdm, Ep. ring. }
      rewrite Es, Z.mul_comm. apply Z.mod_mul. lia. }
    assert (Hge : 10 ^ p <= N).
    { apply Z.le_trans with (10 ^ (d - 1)); [apply Z.pow_le_mono_r; lia|lia]. }
    assert (Hlo1 : 1 <= N / 10 ^ p).
    { apply Z.div_le_lower_bound; lia. }
    assert (Hlo : Leibniz.eqb (number (N / 10 ^ p * 10 ^ p)) (number N) = false)
      by (apply number_neq; nia).
    rewrite Hlo, (Z.mul_comm den N). apply IH; lia.
Qed.


Lemma decade_int (N den d : Z) :
  0 < den -> 1 <= d <= 400 -> 10 ^ (d - 1) <= N < 10 ^ d -> decade (N * den) den = d.
Proof.
  intros Hden Hd HN.
  assert (H1 : 0 < 10 ^ (d - 1)) by (apply Z.pow_pos_nonneg; lia).
  unfold decade. replace (den <=? N * den) with true by (symmetry; apply Z.leb_le; nia).
  assert (Hup : N * den < den * 10 ^ (1 + Z.of_nat 400 - 1)).
  { assert (10 ^ d <= 10 ^ (1 + Z.of_nat 400 - 1)) by (apply Z.pow_le_mono_r; lia). nia. }
  pose proof (decade_up_spec 400 (N * den) den 1 Hden ltac:(lia) ltac:(cbn; nia) Hup) as H.
  cbv zeta in H. destruct H as (Hn & Hlo & Hhi).
  remember (decade_up 400 (N * den) den 1) as n eqn:En. clear En.
  apply (decade_unique N); try lia. split; nia.
Qed.

Lemma ratio_int (N : Z) :
  0 < N < 2 ^ 53 ->
  exists den, 0 < den /\
    ratio_of (Z.pos (Z.to_pos (N * 2 ^ (53 - Zdigits2 N)))) (Zdigits2 N - 53) = (N * den, den).
Proof.
  intros HN. pose proof (digits_53 N HN) as Hd.
  pose proof (pow2_pos (53 - Zdigits2 N) ltac:(lia)) as Hp.
  unfold ratio_of. rewrite Z2Pos.id by nia.
  destruct (0 <=? Zdigits2 N - 53) eqn:E.
  - apply Z.leb_le in E. exists 1. split; [lia|].
    replace (Zdigits2 N - 53) with 0 by lia.
    replace (53 - Zdigits2 N) with 0 by lia. cbn [Z.leb Z.compare].
    rewrite Z.pow_0_r, !Z.mul_1_r. reflexivity.
  - exists (2 ^ (53 - Zdigits2 N)). split; [lia|].
    replace (- (Zdigits2 N - 53)) with (53 - Zdigits2 N) by lia. reflexivity.
Qed.

Lemma abs_number (N : Z) : 0 < N < 2 ^ 53 -> abs (number N) = number N.
Proof.
  intros HN. apply Prim2SF_inj. rewrite abs_spec, number_exact by assumption. reflexivity.
Qed.

(** A whole Number below [10^15] prints as its decimal numeral. *)
Lemma NumberToString_int (N : Z) :
  0 <= N < 10 ^ 15 -> NumberToString (number N) = string_of_list_ascii (decimal N).
Proof.
  intros HN. destruct (Z.eq_dec N 0) as [->|Hnz]; [reflexivity|].
  assert (H53 : 10 ^ 15 < 2 ^ 53) by reflexivity.
  assert (HN' : 0 < N < 2 ^ 53) by lia.
  unfold NumberToString. rewrite abs_number, number_exact by assumption.
  unfold sf_int. cbn [app]. f_equal. unfold positive_to_chars.
  destruct (ratio_int N HN') as (den & Hden & ->).
  destruct (decade_exists N ltac:(lia)) as (d & Hd & HNd).
  assert (Hd15 : d <= 15).
  { destruct (Z_le_gt_dec d 15) as [|Hgt]; [assumption|exfalso].
    assert (10 ^ 15 <= 10 ^ (d - 1)) by (apply Z.pow_le_mono_r; lia). lia. }
  rewrite (decade_int N den d) by (try assumption; lia).
  destruct (trailing_zeros N ltac:(lia)) as (s & z & E & Hz & Hs & Hs10).
  pose proof (Z.pow_pos_nonneg 10 z ltac:(lia) Hz) as Hpz.
  (* [s] has [d - z] digits *)
  assert (Hzd : z <= d - 1).
  { destruct (Z_le_gt_dec z (d - 1)) as [|Hgt]; [assumption|exfalso].
    assert (10 ^ d <= 10 ^ z) by (apply Z.pow_le_mono_r; lia). nia. }
  assert (Hsd : 10 ^ (d - z - 1) <= s < 10 ^ (d - z)).
  { assert (E1 : 10 ^ (d - 1) = 10 ^ (d - z - 1) * 10 ^ z).
    { rewrite <- Z.pow_add_r by lia. f_equal. lia. }
    assert (E2 : 10 ^ d = 10 ^ (d - z) * 10 ^ z).
    { rewrite <- Z.pow_add_r by lia. f_equal. lia. }
    rewrite E1, E2, E in HNd. nia. }
  rewrite (shortest_int 17 N den d s z 1) by (try assumption; cbn; lia).
  assert (Hlen : Z.of_nat (List.length (decimal s)) = d - z)
    by (apply decimal_length; [lia|right; lia|lia]).
  rewrite Hlen.
  replace ((d - z <=? d) && (d <=? 21)) with true
    by (symmetry; apply andb_true_iff; split; apply Z.leb_le; lia).
  replace (d - (d - z)) with z by lia.
  rewrite E. symmetry. apply decimal_shift; assumption.
Qed.

(** A decimal numeral reads as its integer. *)
Lemma StringToNumber_decimal (N : Z) :
  0 <= N -> StringToNumber (string_of_list_ascii (decimal N)) = number N.
Proof.
  intros HN.
  pose proof (Number_of_literal false (decimal N) None None
                (decimal_nonempty N HN) (decimal_digits N HN) I I) as H.
  unfold literal in H. cbn [frac_part exp_part frac_digits exp_value app List.length] in H.
  rewrite !app_nil_r in H. rewrite H, decimal_value by assumption.
  unfold of_decimal. cbn [Z.of_nat Z.sub Z.opp Z.leb Z.compare Z.pow].
  rewrite Z.mul_1_r. reflexivity.
Qed.


(** *** Sums of integers *)

Lemma binary_round_int (K j : Z) :
  0 < K < 2 ^ 53 -> 0 <= j ->
  binary_round prec emax false (Z.to_pos (K * 2 ^ j)) (- j) = sf_int K.
Proof.
  intros HK Hj. pose proof (digits_53 K HK) as Hd.
  pose proof (pow2_pos j Hj) as Hpj.
  assert (HKj : 0 < K * 2 ^ j) by (apply Z.mul_pos_pos; lia).
  unfold binary_round.
  change (Z.pos (digits2_pos (Z.to_pos (K * 2 ^ j))))
    with (Zdigits2 (Z.pos (Z.to_pos (K * 2 ^ j)))).
  rewrite Z2Pos.id by assumption. rewrite Zdigits2_mul_pow2 by lia.
  pose proof (shl_align_spec (Z.to_pos (K * 2 ^ j)) (- j)
                (fexp prec emax (Zdigits2 K + j + - j))) as Hs.
  destruct (shl_align (Z.to_pos (K * 2 ^ j)) (- j) (fexp prec emax (Zdigits2 K + j + - j)))
    as [mz ez].
  destruct Hs as [Hez Hmz]. rewrite Z2Pos.id in Hmz by assumption.
  rewrite fexp_eq in Hez.
  remember (Z.max j (53 - Zdigits2 K)) as t eqn:Ht.
  assert (Eez : ez = - t) by lia.
  assert (Emz : Z.pos mz = K * 2 ^ t).
  { rewrite Hmz, <- Z.mul_assoc, <- Z.pow_add_r by lia. do 2 f_equal. lia. }
  rewrite Emz, Eez. apply bra_int; lia.
Qed.

Lemma add_int (a b : Z) :
  0 < a -> 0 < b -> a + b < 2 ^ 53 -> (number a + number b)%float = number (a + b).
Proof.
  intros Ha Hb Hab. apply Prim2SF_inj.
  rewrite add_spec, !number_exact by lia.
  pose proof (digits_53 a ltac:(lia)) as Hda. pose proof (digits_53 b ltac:(lia)) as Hdb.
  unfold sf_int at 1 2. unfold SF64add. cbn [SFadd].
  remember (Z.min (Zdigits2 a - 53) (Zdigits2 b - 53)) as ez eqn:Hez.
  pose proof (shl_align_spec (Z.to_pos (a * 2 ^ (53 - Zdigits2 a))) (Zdigits2 a - 53) ez) as Sa.
  pose proof (shl_align_spec (Z.to_pos (b * 2 ^ (53 - Zdigits2 b))) (Zdigits2 b - 53) ez) as Sb.
  destruct (shl_align (Z.to_pos (a * 2 ^ (53 - Zdigits2 a))) (Zdigits2 a - 53) ez) as [ma ea].
  destruct (shl_align (Z.to_pos (b * 2 ^ (53 - Zdigits2 b))) (Zdigits2 b - 53) ez) as [mb eb].
  destruct Sa as [Ea Ma], Sb as [Eb Mb]. cbn [fst cond_Zopp].
  pose proof (pow2_pos (53 - Zdigits2 a) ltac:(lia)).
  pose proof (pow2_pos (53 - Zdigits2 b) ltac:(lia)).
  rewrite Z2Pos.id in Ma, Mb by (apply Z.mul_pos_pos; lia).
  assert (Ma' : Z.pos ma = a * 2 ^ (- ez)).
  { rewrite Ma, <- Z.mul_assoc, <- Z.pow_add_r by lia. do 2 f_equal. lia. }
  assert (Mb' : Z.pos mb = b * 2 ^ (- ez)).
  { rewrite Mb, <- Z.mul_assoc, <- Z.pow_add_r by lia. do 2 f_equal. lia. }
  rewrite Ma', Mb', <- Z.mul_add_distr_r.
  pose proof (pow2_pos (- ez) ltac:(lia)).
  destruct ((a + b) * 2 ^ (- ez)) as [|q|q] eqn:E; [nia| |nia].
  cbn [binary_normalize].
  replace q with (Z.to_pos ((a + b) * 2 ^ (- ez))) by (rewrite E; reflexivity).
  replace ez with (- (- ez)) at 2 by lia.
  apply binary_round_int; lia.
Qed.

Lemma counted_up_number (n : nat) :
  Z.of_nat n < 2 ^ 53 -> counted_up n = number (Z.of_nat n).
Proof.
  induction n as [|n IH]; intros Hn; [reflexivity|].
  change (counted_up (S n)) with (counted_up n + 1)%float. rewrite IH by lia.
  destruct n as [|n]; [reflexivity|].
  change 1%float with (number 1). rewrite add_int by lia.
  f_equal. lia.
Qed.

End Integers.

(** ** What the cells show and how it is read back *)

Module Display.
Import JS App Spec SF Literal Rounding NumberFacts Printing.
Local Open Scope Z_scope.

(** [toFixed] with [f] decimals, below 1e21. *)
Lemma toFixed_decimals (x : float) (s : bool) (m : positive) (e f : Z) :
  Prim2SF x = S754_finite s m e ->
  (1e21 <=? abs x)%float = false ->
  1 <= f <= 20 ->
  exists a b,
    a <> [] /\ forallb is_digit a = true /\ forallb is_digit b = true /\
    toFixed x f = string_of_list_ascii (literal s a (Some b) None) /\
    0 <= value_of (a ++ b) < 10 ^ f * 2 ^ 71 /\ Z.of_nat (List.length b) = f.
Proof.
  intros E Hlt Hf. pose proof (Prim2SF_valid x) as Hv. rewrite E in Hv. cbn in Hv.
  pose proof Hlt as Hlt'. rewrite leb_spec, abs_spec, E in Hlt'.
  change (Prim2SF 1e21) with sf_1e21 in Hlt'.
  pose proof (below_1e21 s m e Hv Hlt') as Hb.
  destruct (ratio_of_bounds m e Hv) as (Hnum & Hden & _).
  unfold toFixed. rewrite E, Hlt.
  destruct (ratio_of (Zpos m) e) as [num den]. cbn [fst snd] in *.
  pose proof (Z.pow_pos_nonneg 10 f ltac:(lia) ltac:(lia)) as Hpf.
  remember ((2 * num * 10 ^ f + den) / (2 * den)) as n eqn:Hn.
  assert (Hn0 : 0 <= n) by (subst n; apply Z.div_pos; nia).
  assert (Hn77 : n < 10 ^ f * 2 ^ 71).
  { subst n. apply Z.div_lt_upper_bound; [lia|].
    change (2 ^ 71) with (2 * 2 ^ 70). nia. }
  remember (decimal n) as ds eqn:Hds.
  pose proof (decimal_digits n Hn0) as Hdd. rewrite <- Hds in Hdd.
  pose proof (decimal_value n Hn0) as Hdv. rewrite <- Hds in Hdv.
  pose proof (decimal_nonempty n Hn0) as Hdn. rewrite <- Hds in Hdn.
  remember (if Z.of_nat (List.length ds) <=? f
            then zeros (f + 1 - Z.of_nat (List.length ds)) ++ ds else ds) as ds' eqn:Hds'.
  assert (H' : forallb is_digit ds' = true /\ value_of ds' = n /\
               f + 1 <= Z.of_nat (List.length ds')).
  { subst ds'. destruct (Z.of_nat (List.length ds) <=? f) eqn:Ek.
    - apply Z.leb_le in Ek. rewrite forallb_app, zeros_digits, Hdd.
      rewrite value_of_app, value_of_zeros, length_app, Nat2Z.inj_add.
      rewrite zeros_length by lia. repeat split; lia.
    - apply Z.leb_gt in Ek. repeat split; try assumption; lia. }
  destruct H' as (Hd' & Hv' & Hl').
  replace (f =? 0) with false by (symmetry; apply Z.eqb_neq; lia).
  cbn iota. unfold split_at.
  remember (Z.to_nat (Z.of_nat (List.length ds') - f)) as j eqn:Hj.
  exists (firstn j ds'), (skipn j ds').
  assert (Hlen : List.length (firstn j ds') = j) by (rewrite length_firstn; lia).
  split.
  { intros Ha. rewrite Ha in Hlen. cbn in Hlen. lia. }
  split; [apply (forallb_split _ j _ Hd')|]. split; [apply (forallb_split _ j _ Hd')|].
  split; [rewrite literal_fixed; reflexivity|].
  rewrite firstn_skipn, Hv', length_skipn. split; lia.
Qed.





Lemma replace_first_after (p rest : chars) :
  forallb (fun c => negb (Ascii.eqb dot c)) p = true ->
  replace_first [dot] [comma] (p ++ dot :: rest) = p ++ comma :: rest.
Proof.
  induction p as [|c p IH]; intros H.
  - reflexivity.
  - cbn [forallb] in H. apply andb_true_iff in H. destruct H as [Hc Hp].
    cbn [app]. rewrite replace_first_single.
    apply negb_true_iff in Hc. rewrite Hc, IH by exact Hp. reflexivity.
Qed.

Lemma digits_no_dot (a : chars) :
  forallb is_digit a = true -> forallb (fun c => negb (Ascii.eqb dot c)) a = true.
Proof.
  intros H. rewrite forallb_forall in *. intros c Hc. specialize (H c Hc).
  destruct (Ascii.eqb dot c) eqn:E; [|reflexivity].
  apply Ascii.eqb_eq in E. subst c. discriminate H.
Qed.

Lemma fmt2_of_Num (v : value) :
  v <> Null -> v <> Undefined -> v <> Str "" -> fmt2 v = fmt2 (Num (ToNumber v)).
Proof.
  intros H1 H2 H3. destruct v as [| | | |[|c s]| |]; try reflexivity; congruence.
Qed.

Local Open Scope string_scope.

(** X2. [fmt2] gives the empty text for [null], [undefined], the empty string
    and whatever [Number] turns into [NaN], and for nothing else. *)
Theorem fmt2_empty_iff (v : value) :
  fmt2 v = "" <->
  v = Null \/ v = Undefined \/ v = Str "" \/ isNaN (ToNumber v) = true.
Proof.
  split.
  - intros H.
    assert (Hv : v = Null \/ v = Undefined \/ v = Str "" \/ fmt2 v = fmt2 (Num (ToNumber v))).
    { destruct v as [| | | |[|c s]| |]; auto. }
    destruct Hv as [->|[->|[->|Hv]]]; auto.
    destruct (isNaN (ToNumber v)) eqn:En; [auto|exfalso].
    rewrite Hv in H. clear Hv.
    remember (ToNumber v) as x eqn:Hx. clear Hx v.
    destruct (isFinite x) eqn:Ef.
    + apply (proj1 (fmt2_reads_finite x Ef)). exact H.
    + unfold fmt2 in H. cbn [ToNumber] in H. rewrite En in H.
      rewrite isFinite_spec in Ef. rewrite isNaN_spec in En.
      unfold toFixed, NumberToString in H.
      destruct (Prim2SF x) as [s|[|]| |s m e]; try discriminate; vm_compute in H;
        discriminate H.
  - intros [->|[->|[->|H]]]; try reflexivity.
    unfold fmt2. rewrite H. destruct v as [| | | |[|c s]| |]; reflexivity.
Qed.

(** X3. Below 1e21 [fmt2] shows a finite Number with a decimal comma and
    exactly two decimals: a minus sign when the Number is negative, at
    least one digit, the comma, two digits. *)
Theorem fmt2_two_decimals (x : float) :
  isFinite x = true -> (1e21 <=? abs x)%float = false ->
  exists a b : chars,
    fmt2 (Num x)
    = string_of_list_ascii ((if (x <? zero)%float then ["-"%char] else []) ++ a ++ comma :: b) /\
    a <> [] /\ forallb is_digit a = true /\ forallb is_digit b = true /\
    List.length b = 2%nat.
Proof.
  intros Hfin Hlt. unfold fmt2. cbn [ToNumber]. rewrite (isFinite_not_NaN x Hfin).
  change "." with (String dot EmptyString). change "," with (String comma EmptyString).
  pose proof Hfin as Hf'. rewrite isFinite_spec in Hf'.
  destruct (Prim2SF x) as [s|s| |s m e] eqn:E; try discriminate.
  - exists (str "0"), (str "00").
    assert (Hs : (x <? zero)%float = false).
    { rewrite ltb_spec, E. destruct s; reflexivity. }
    rewrite Hs. unfold toFixed. rewrite E. repeat split; try reflexivity. discriminate.
  - destruct (toFixed_decimals x s m e 2 E Hlt ltac:(lia)) as (a & b & Hne & Ha & Hb & -> & _ & Hl).
    exists a, b.
    assert (Hs : (x <? zero)%float = s).
    { rewrite ltb_spec, E. destruct s; reflexivity. }
    rewrite Hs, replace_chars. unfold literal. cbn [frac_part exp_part].
    rewrite app_nil_r.
    assert (Hp : forallb (fun c => negb (Ascii.eqb dot c))
                   ((if s then ["-"%char] else []) ++ a) = true).
    { rewrite forallb_app, (digits_no_dot a Ha). destruct s; reflexivity. }
    rewrite app_assoc, replace_first_after by exact Hp. rewrite <- app_assoc.
    repeat split; try assumption. lia.
Qed.

Lemma fmt2_two_decimals_witness :
  exists a b : chars, fmt2 (Num (-3.14159)) = string_of_list_ascii ("-"%char :: a ++ comma :: b).
Proof.
  destruct (fmt2_two_decimals (-3.14159)%float eq_refl eq_refl) as (a & b & H & _).
  exists a, b. exact H.
Defined.






End Display.

Module VehicleBlock.
Import JS App Spec.
Local Open Scope string_scope.

Lemma getVehicleTonnage_cases (oidSelect : string) :
  match map_get (Num (ToNumber (Str oidSelect))) VEHICLES with
  | Some v => getVehicleTonnage oidSelect = tonnage v /\
              (tonnage v = 9%float \/ tonnage v = 14%float)
  | None => getVehicleTonnage oidSelect = zero
  end.
Proof.
  unfold getVehicleTonnage, VEHICLES. cbn [map_get].
  repeat (destruct (SameValueZero _ _); [split; [reflexivity|cbn; auto]|]).
  reflexivity.
Qed.

(** X5. The vehicle capacity shown is that of the vehicle registered under the
    chosen OID: "9,00" or "14,00" for the five vehicles of [VEHICLES], and a
    dash for every other choice, no choice included. *)
Theorem vehicle_capacity_cell (rows : list Row) (oidSelect : string) :
  let cell := vehicle_tonnage_cell (recalcTotals rows oidSelect) in
  match map_get (Num (ToNumber (Str oidSelect))) VEHICLES with
  | Some v => cell = fmt2 (Num (tonnage v)) /\ (cell = "9,00" \/ cell = "14,00")
  | None => cell = em_dash
  end.
Proof.
  intros cell. subst cell. unfold recalcTotals. cbn [vehicle_tonnage_cell].
  pose proof (getVehicleTonnage_cases oidSelect) as H.
  destruct (map_get (Num (ToNumber (Str oidSelect))) VEHICLES) as [v|].
  - destruct H as [-> [Ht|Ht]]; rewrite Ht; split; try reflexivity; [left|right]; reflexivity.
  - rewrite H. reflexivity.
Qed.

End VehicleBlock.

(** ** Recalculating a row, choosing a route *)

Module RowUpdates.
Import JS App Spec.
Local Open Scope string_scope.

Lemma recalcRowKm_frame (row : Row) :
  route_select (recalcRowKm row) = route_select row /\
  trip_tons (recalcRowKm row) = trip_tons row /\
  js_width (recalcRowKm row) = js_width row /\
  js_length (recalcRowKm row) = js_length row /\
  js_tons (recalcRowKm row) = js_tons row.
Proof.
  destruct row as [sel [tonsValue|] [old|] w len ref]; unfold recalcRowKm;
    cbn [trip_km trip_tons]; try (repeat split; reflexivity).
  destruct (negb _); [repeat split; reflexivity|].
  destruct (numOr0 (Str tonsValue) <=? zero)%float; repeat split; reflexivity.
Qed.

(** X6. A row that has been recalculated is up to date: recalculating it again
    changes nothing.  The recalculation writes the distance cell only, and
    only on a row that has both a distance cell and a tonnage input. *)
Theorem recalcRowKm_settles (row : Row) :
  let row' := recalcRowKm row in
  recalcRowKm row' = row' /\
  route_select row' = route_select row /\
  trip_tons row' = trip_tons row /\
  js_width row' = js_width row /\
  js_length row' = js_length row /\
  js_tons row' = js_tons row /\
  (trip_km row = None \/ trip_tons row = None -> row' = row).
Proof.
  intros row'. split; [|split; [|split; [|split; [|split; [|split]]]]];
    try apply recalcRowKm_frame.
  - subst row'. destruct row as [sel [tonsValue|] [old|] w len ref]; try reflexivity.
    unfold recalcRowKm at 2 3. unfold selected, getRowWidth.
    cbn [set_trip_km route_select trip_tons trip_km js_width js_length js_tons].
    destruct (negb _) eqn:Es;
      [|destruct (numOr0 (Str tonsValue) <=? zero)%float eqn:Ez];
      unfold recalcRowKm, selected, getRowWidth;
      cbn [set_trip_km route_select trip_tons trip_km js_width js_length js_tons];
      rewrite Es; try rewrite Ez; reflexivity.
  - subst row'. unfold recalcRowKm. intros [-> | ->]; [reflexivity|].
    destruct (trip_km row); reflexivity.
Qed.

End RowUpdates.

Module Choosing.
Import JS App Spec Catalog.
Local Open Scope string_scope.
Local Open Scope list_scope.

Lemma loadRoutes_get (data : value) (k : value) :
  map_get k (fst (loadRoutes data)) = option_map route_of (last_named k (routes_of data)).
Proof.
  change (fst (loadRoutes data)) with (fold_left step (routes_of data) []).
  rewrite get_from. destruct (last_named k (routes_of data)); reflexivity.
Qed.


Lemma last_named_some (k : value) (routes : list value) (r : value) :
  last_named k routes = Some r ->
  In r routes /\ truthy (route_name r) = true /\ SameValueZero (route_name r) k = true.
Proof.
  unfold last_named. intros H. apply find_some in H. destruct H as [Hin Hk].
  apply in_rev in Hin. unfold named in Hin. apply filter_In in Hin. tauto.
Qed.


(** X7. Choosing the placeholder of a route list empties the row: the three
    cells of the route's parameters and, on a row with a tonnage input, the
    distance.  No catalogue has a route of the empty name. *)
Theorem placeholder_clears_row (data : value) (row : Row) :
  route_select row = Some "" ->
  let row' := on_route_change (fst (loadRoutes data)) row in
  map_get (Str "") (fst (loadRoutes data)) = None /\
  js_width row' = option_map (fun _ => "") (js_width row) /\
  js_length row' = option_map (fun _ => "") (js_length row) /\
  js_tons row' = option_map (fun _ => "") (js_tons row) /\
  trip_km row' = match trip_km row, trip_tons row with
                 | Some _, Some _ => Some ""
                 | km, _ => km
                 end /\
  route_select row' = Some "" /\ trip_tons row' = trip_tons row.
Proof.
  intros Hsel row'.
  assert (Hnone : map_get (Str "") (fst (loadRoutes data)) = None).
  { rewrite loadRoutes_get.
    destruct (last_named (Str "") (routes_of data)) as [r|] eqn:E; [exfalso|reflexivity].
    apply last_named_some in E. destruct E as (_ & Ht & Hk).
    destruct (route_name r); cbn in Hk; try discriminate.
    apply String.eqb_eq in Hk. subst s. discriminate Ht. }
  split; [exact Hnone|].
  subst row'. unfold on_route_change, fillRouteRowParams.
  rewrite Hsel. cbn [text_or_empty]. rewrite Hnone.
  destruct row as [sel tons km w len ref]. cbn in Hsel. subst sel.
  unfold recalcRowKm, selected.
  cbn [route_select trip_tons trip_km js_width js_length js_tons].
  destruct km, tons, w, len, ref; repeat split; reflexivity.
Qed.


Lemma placeholder_clears_row_witness :
  let row := on_route_change (fst (loadRoutes (one_route "R1" R1)))
               (mkRow "" "20" "10,00" "7,0" "10,00" "50,00") in
  js_width row = Some "" /\ trip_km row = Some "".
Proof.
  destruct (placeholder_clears_row (one_route "R1" R1)
              (mkRow "" "20" "10,00" "7,0" "10,00" "50,00") eq_refl)
    as (_ & Hw & _ & _ & Hkm & _).
  split; [exact Hw|exact Hkm].
Defined.


End Choosing.

Module RouteChoice.
Import JS App Spec NumberFacts Catalog Choosing Display.
Local Open Scope string_scope.
Local Open Scope list_scope.






End RouteChoice.

(** ** A tonnage with a decimal comma *)

Module DecimalComma.
Import JS App Spec Literal NumberFacts Printing.
Local Open Scope Z_scope.

Lemma starts_with_split (p s r : chars) : starts_with p s = Some r -> s = p ++ r.
Proof.
  revert s. induction p as [|a p IH]; intros s; cbn [starts_with].
  - intros [= <-]. reflexivity.
  - destruct s as [|b s]; [discriminate|].
    destruct (Ascii.eqb a b) eqn:E; [|discriminate].
    apply Ascii.eqb_eq in E. subst b. intros H. rewrite (IH s H). reflexivity.
Qed.

Lemma strip_one_split (ws : list chars) (s r : chars) :
  strip_one ws s = Some r -> exists w, In w ws /\ s = w ++ r.
Proof.
  induction ws as [|w ws IH]; cbn [strip_one]; [discriminate|].
  destruct (starts_with w s) as [r'|] eqn:E.
  - intros [= <-]. exists w. split; [left; reflexivity|apply starts_with_split, E].
  - intros H. destruct (IH H) as (w' & Hin & Hs). exists w'. split; [right|]; assumption.
Qed.

Lemma strip_leading_keeps (ws : list chars) (fuel : nat) (s : chars) :
  (forall w, In w ws -> ~ In comma w) ->
  In comma s -> In comma (strip_leading ws fuel s).
Proof.
  intros Hws. revert s. induction fuel as [|fuel IH]; intros s Hs; cbn [strip_leading];
    [exact Hs|].
  destruct (strip_one ws s) as [r|] eqn:E; [|exact Hs].
  apply IH. destruct (strip_one_split ws s r E) as (w & Hw & ->).
  apply in_app_or in Hs. destruct Hs as [Hs|Hs]; [destruct (Hws w Hw Hs)|exact Hs].
Qed.

Lemma white_space_no_comma (w : chars) : In w str_white_space -> ~ In comma w.
Proof.
  unfold str_white_space. cbn [In]. intros H.
  repeat (destruct H as [<-|H]; [cbn; intros Hc; repeat (destruct Hc as [Hc|Hc]; [discriminate Hc|]); exact Hc|]).
  destruct H.
Qed.

Lemma trim_keeps_comma (s : chars) : In comma s -> In comma (trim s).
Proof.
  intros Hs. unfold trim. apply -> in_rev.
  apply strip_leading_keeps.
  - intros w Hw. apply in_map_iff in Hw. destruct Hw as (w' & <- & Hw').
    intros Hc. apply in_rev in Hc. exact (white_space_no_comma w' Hw' Hc).
  - apply in_rev. rewrite rev_involutive.
    apply strip_leading_keeps; [exact white_space_no_comma|exact Hs].
Qed.

Lemma comma_no_digit (base : Z) : base <= 16 -> digit_of base comma = None.
Proof.
  intros Hb. unfold digit_of. change (code comma) with 44. cbn.
  replace (99 <? base) with false by (symmetry; apply Z.ltb_ge; lia). reflexivity.
Qed.

Lemma take_digits_keeps (base : Z) (s : chars) :
  base <= 16 -> In comma s -> In comma (snd (take_digits base s)).
Proof.
  intros Hb. induction s as [|c s IH]; intros Hs; [destruct Hs|].
  cbn [take_digits]. destruct (digit_of base c) as [d|] eqn:E; [|exact Hs].
  destruct Hs as [->|Hs]; [rewrite comma_no_digit in E by exact Hb; discriminate E|].
  specialize (IH Hs). destruct (take_digits base s) as [ds r]. exact IH.
Qed.

Lemma parse_exponent_comma (s : chars) : In comma s -> parse_exponent s = None.
Proof.
  intros Hs. destruct s as [|c t]; [destruct Hs|]. cbn [parse_exponent].
  destruct (is_char c "eE") eqn:Ec; [|reflexivity].
  destruct Hs as [->|Ht]; [discriminate Ec|].
  assert (Hrest : forall u : chars, In comma u ->
            match take_digits 10 u with
            | ((_ :: _) as ds, []) => Some (digits_value 10 ds)
            | _ => None
            end = None /\
            match take_digits 10 u with
            | ((_ :: _) as ds, []) => Some (- digits_value 10 ds)
            | _ => None
            end = None).
  { intros u Hu. pose proof (take_digits_keeps 10 u ltac:(lia) Hu) as Hk.
    destruct (take_digits 10 u) as [[|d ds] [|x r]]; cbn [snd] in Hk;
      try destruct Hk; split; reflexivity. }
  destruct t as [|sg u]; [destruct Ht|].
  destruct (is_char sg "+") eqn:Ep.
  { destruct Ht as [->|Hu]; [discriminate Ep|]. apply (Hrest u Hu). }
  destruct (is_char sg "-") eqn:Em.
  { destruct Ht as [->|Hu]; [discriminate Em|]. apply (Hrest u Hu). }
  apply (Hrest (sg :: u) Ht).
Qed.

Lemma parse_unsigned_comma (s : chars) : In comma s -> parse_unsigned_decimal s = None.
Proof.
  intros Hs. unfold parse_unsigned_decimal.
  pose proof (take_digits_keeps 10 s ltac:(lia) Hs) as H1.
  destruct (take_digits 10 s) as [ip r1]. cbn [snd] in H1.
  destruct r1 as [|c t]; [destruct H1|].
  destruct (is_char c ".") eqn:Ed.
  - destruct H1 as [->|Ht]; [discriminate Ed|].
    pose proof (take_digits_keeps 10 t ltac:(lia) Ht) as H2.
    destruct (take_digits 10 t) as [fp r2]. cbn [snd] in H2.
    rewrite (parse_exponent_comma r2 H2). destruct ip, fp; reflexivity.
  - rewrite (parse_exponent_comma (c :: t) H1). destruct ip; reflexivity.
Qed.

Lemma parse_str_decimal_comma (s : chars) : In comma s -> parse_str_decimal s = nan.
Proof.
  intros Hs. unfold parse_str_decimal.
  assert (Hu : forall (neg : bool) (u : chars), In comma u ->
            match starts_with (str "Infinity") u with
            | Some [] => if neg then neg_infinity else infinity
            | _ => match parse_unsigned_decimal u with
                   | Some (m, e) => of_decimal neg m e
                   | None => nan
                   end
            end = nan).
  { intros neg u Hc. rewrite (parse_unsigned_comma u Hc).
    destruct (starts_with (str "Infinity") u) as [[|x r]|] eqn:E; try reflexivity.
    apply starts_with_split in E. rewrite E, app_nil_r in Hc.
    cbn in Hc. repeat (destruct Hc as [Hc|Hc]; [discriminate Hc|]). destruct Hc. }
  destruct s as [|sg t]; [destruct Hs|].
  destruct (is_char sg "+") eqn:Ep.
  { destruct Hs as [->|Ht]; [discriminate Ep|]. exact (Hu false t Ht). }
  destruct (is_char sg "-") eqn:Em.
  { destruct Hs as [->|Ht]; [discriminate Em|]. exact (Hu true t Ht). }
  exact (Hu false (sg :: t) Hs).
Qed.

Lemma parse_non_decimal_comma (s : chars) :
  In comma s -> parse_non_decimal s = None \/ parse_non_decimal s = Some nan.
Proof.
  intros Hs. unfold parse_non_decimal.
  destruct s as [|z [|p t]]; auto.
  destruct (is_char z "0") eqn:Ez; auto.
  set (base := if is_char p "xX" then 16 else if is_char p "oO" then 8
               else if is_char p "bB" then 2 else 0).
  assert (Hb : base = 0 \/ (base <= 16 /\ base <> 0 /\ p <> comma)).
  { subst base. destruct (is_char p "xX") eqn:E1; [right|].
    { repeat split; try lia. intros ->. discriminate E1. }
    destruct (is_char p "oO") eqn:E2; [right|].
    { repeat split; try lia. intros ->. discriminate E2. }
    destruct (is_char p "bB") eqn:E3; [right|left; reflexivity].
    repeat split; try lia. intros ->. discriminate E3. }
  destruct Hb as [->|(Hb & Hnz & Hp)]; [left; reflexivity|].
  replace (base =? 0) with false by (symmetry; apply Z.eqb_neq; exact Hnz).
  right.
  assert (Ht : In comma t).
  { destruct Hs as [->|[Hs|Hs]]; [discriminate Ez|congruence|exact Hs]. }
  pose proof (take_digits_keeps base t Hb Ht) as Hk.
  destruct (take_digits base t) as [[|d ds] [|x r]]; cbn [snd] in Hk;
    try destruct Hk; reflexivity.
Qed.

(** A text with a comma in it is not a number for [Number]. *)
Lemma Number_of_comma_text (v : string) : In comma (str v) -> StringToNumber v = nan.
Proof.
  intros Hv. unfold StringToNumber. pose proof (trim_keeps_comma (str v) Hv) as Ht.
  destruct (trim (str v)) as [|c t] eqn:E; [destruct Ht|].
  destruct (parse_non_decimal_comma (c :: t) Ht) as [-> | ->]; [|reflexivity].
  apply parse_str_decimal_comma, Ht.
Qed.

Local Open Scope string_scope.

(** X11. A tonnage written with a decimal comma is not read as a number: the
    row delivers 0 tonnes, adds nothing to the tonnage sum, and its
    distance cell is emptied, whatever route is chosen.  (The cells are
    read with the comma turned into a point; the tonnage input is not.) *)
Theorem comma_tonnage_counts_as_zero (row : Row) (tonsValue old : string) :
  trip_tons row = Some tonsValue -> trip_km row = Some old ->
  In comma (str tonsValue) ->
  isNaN (tonnageInput row) = true /\
  deliveredTonnage row = zero /\
  allocation row = None /\
  trip_km (recalcRowKm row) = Some "".
Proof.
  intros Ht Hk Hc.
  assert (Hn : tonnageInput row = nan).
  { unfold tonnageInput. rewrite Ht. cbn [ToNumber]. apply Number_of_comma_text, Hc. }
  assert (Hd : deliveredTonnage row = zero).
  { unfold deliveredTonnage, numOr0. rewrite Ht. cbn [ToNumber].
    rewrite (Number_of_comma_text tonsValue Hc). reflexivity. }
  assert (Ha : allocation row = None).
  { unfold allocation. rewrite Hd. destruct (negb (selected row)); reflexivity. }
  split; [rewrite Hn; reflexivity|]. split; [exact Hd|]. split; [exact Ha|].
  rewrite (RowCalculator.recalcRowKm_shows row tonsValue old Ht Hk), Ha. reflexivity.
Qed.

Lemma comma_tonnage_counts_as_zero_witness :
  trip_km (recalcRowKm (mkRow "R1" "12,5" "8,93" "7,0" "10,00" "50,00")) = Some "".
Proof.
  apply (comma_tonnage_counts_as_zero (mkRow "R1" "12,5" "8,93" "7,0" "10,00" "50,00")
           "12,5" "8,93" eq_refl eq_refl).
  right. right. left. reflexivity.
Defined.

End DecimalComma.

(** ** The coefficient and the width the row shows *)

Module WidthShown.
Import JS App Spec SF Literal Rounding NumberFacts Printing Integers Display.
Local Open Scope Z_scope.










End WidthShown.

(** ** What is drawn, what the label says, what makes it throw *)

Module Drawing.
Import JS App Spec Geometry Integers.
Local Open Scope string_scope.
Local Open Scope list_scope.

Lemma existsb_true {A} (bad : A -> bool) (l : list A) :
  existsb bad l = true <-> exists a, In a l /\ bad a = true.
Proof. apply existsb_exists. Qed.

Lemma bad_trip_iff (trip : value) :
  bad_trip trip = true <->
  (exists p, In p (coords_list trip) /\ bad_coords p = true) \/
  (valid_pairs (coords_pairs trip) = [] /\
   exists p, In p (points_list trip) /\ bad_point p = true).
Proof.
  unfold bad_trip. rewrite orb_true_iff, andb_true_iff, !existsb_true, negb_true_iff.
  split; intros [H|[H1 H2]]; auto; right; split; auto.
  - apply nonempty_false, H1.
  - rewrite H1. reflexivity.
Qed.

(** X12. [normalizeLatLngsFromTrip] throws, a [TypeError], exactly when one
    of the trip's [coords] is an array with a component [Number] throws
    on, or the [coords] give no valid pair and the [points] list has an
    element that is [null] or [undefined] or whose [lat] or [lon] [Number]
    throws on.  A trip whose [coords] convert and give one valid pair
    returns the valid pairs, and its [points] are not read. *)
Theorem normalize_throws_iff (trip : value) :
  (normalizeLatLngsFromTrip trip = TypeError <->
   (exists p, In p (coords_list trip) /\ bad_coords p = true) \/
   (valid_pairs (coords_pairs trip) = [] /\
    exists p, In p (points_list trip) /\ bad_point p = true)) /\
  (forall message, normalizeLatLngsFromTrip trip <> LibraryError message) /\
  ((forall p, In p (coords_list trip) -> bad_coords p = false) ->
   valid_pairs (coords_pairs trip) <> [] ->
   normalizeLatLngsFromTrip trip = Ok (valid_pairs (coords_pairs trip))).
Proof.
  rewrite normalize_spec, <- bad_trip_iff. split; [|split].
  - destruct (bad_trip trip); split; intros H; first [reflexivity|discriminate H].
  - intros message. destruct (bad_trip trip); discriminate.
  - intros Hc Hv. unfold bad_trip, trip_line.
    rewrite (proj2 (existsb_false bad_coords (coords_list trip)) Hc).
    destruct (valid_pairs (coords_pairs trip)) as [|q l]; [congruence|]. reflexivity.
Qed.

(** X13. [renderTripsFromApiData] throws exactly when the payload is a
    feature collection and [L.geoJSON] throws on it, or it is none and
    either the normaliser throws on a trip of its non-empty trip list, or,
    without a trip list, its [points] list has an element that is [null]
    or [undefined] or whose [lat] or [lon] [Number] throws on. *)
Theorem render_throws_iff (L_geoJSON : value -> result bool) (data : value) :
  throws (renderTripsFromApiData L_geoJSON data) <->
  (is_feature_collection data = true /\ throws (L_geoJSON data)) \/
  (is_feature_collection data = false /\
   ((exists trip, In trip (trips_of data) /\ normalizeLatLngsFromTrip trip = TypeError) \/
    (trips_of data = [] /\
     exists p, In p (points_list data) /\ bad_point p = true))).
Proof.
  destruct (is_feature_collection data) eqn:Hfc.
  - unfold renderTripsFromApiData. rewrite Hfc.
    destruct (L_geoJSON data) as [valid| |m]; cbn [bind throws]; split; auto;
      intros [[_ H]|[H _]]; first [exact H|discriminate H].
  - rewrite (render_spec L_geoJSON data Hfc).
    assert (Ht : existsb bad_trip (trips_of data) = true <->
                 exists trip, In trip (trips_of data) /\
                              normalizeLatLngsFromTrip trip = TypeError).
    { rewrite existsb_true. split; intros (t & Hin & H); exists t; split; auto.
      - rewrite normalize_spec, H. reflexivity.
      - rewrite normalize_spec in H. destruct (bad_trip t); [reflexivity|discriminate H]. }
    destruct (nonempty (trips_of data)) eqn:En.
    + destruct (existsb bad_trip (trips_of data)); cbn [throws].
      * split; auto. intros _. right. split; [reflexivity|]. left. apply Ht. reflexivity.
      * split; [intros []|]. intros [[H _]|[_ [H|[H _]]]].
        -- discriminate H.
        -- apply Ht in H. discriminate H.
        -- rewrite H in En. discriminate En.
    + apply nonempty_false in En.
      destruct (existsb bad_point (points_list data)) eqn:Ep.
      * cbn [throws]. split; auto. intros _. right. split; [reflexivity|]. right.
        split; [exact En|]. apply existsb_true, Ep.
      * assert (Hret : ~ throws
                  (let ll := valid_pairs (map lat_lon (points_list data)) in
                   if at_least_two ll
                   then Ok {| tripsLayer := [Polyline ll];
                              fitBounds := if isValid ll then [Polyline ll] else [];
                              mapInfo := "Точек: " ++ ToString (Num (length_of ll)) |}
                   else Ok {| tripsLayer := []; fitBounds := [];
                              mapInfo := "Маршруты не найдены (пустой ответ)" |})).
        { cbv zeta. destruct (at_least_two _); intros []. }
        split; [intros H; destruct (Hret H)|].
        intros [[H _]|[_ [(t & Hin & _)|[_ H]]]].
        -- discriminate H.
        -- rewrite En in Hin. destruct Hin.
        -- apply existsb_true in H. rewrite H in Ep. discriminate Ep.
Qed.

Lemma filter_length_le {A} (p : A -> bool) (l : list A) :
  (List.length (filter p l) <= List.length l)%nat.
Proof.
  induction l as [|a l IH]; cbn [filter List.length]; [lia|].
  destruct (p a); cbn [List.length]; lia.
Qed.

(** A count below [10^15] prints as its numeral. *)
Lemma count_numeral (n : nat) :
  (Z.of_nat n < 10 ^ 15)%Z ->
  NumberToString (number (Z.of_nat n)) = numeral (Z.of_nat n).
Proof. intros H. apply NumberToString_int. lia. Qed.

Lemma counter_numeral {A} (l : list A) :
  (Z.of_nat (List.length l) < 10 ^ 15)%Z ->
  NumberToString (fold_left (fun n _ => (n + 1)%float) l zero)
  = numeral (Z.of_nat (List.length l)).
Proof.
  intros H. rewrite count_fold. fold (counted_up (List.length l)).
  rewrite counted_up_number by (assert (10 ^ 15 < 2 ^ 53)%Z by reflexivity; lia).
  apply count_numeral, H.
Qed.

(** X14. What the info label says, for payloads of fewer than [10^15]
    items: the number of features of a feature collection; else, with a
    non-empty trip list, the number of lines drawn, which is 0 when no
    trip is usable (the payload's own [points] are not looked at); else
    the number of valid points of the one line drawn from [points]; else,
    with fewer than two valid points, that nothing was found.  The numbers
    are printed as decimal numerals. *)
Theorem info_label_counts (L_geoJSON : value -> result bool) (data : value)
    (view : MapView) :
  renderTripsFromApiData L_geoJSON data = Ok view ->
  (Z.of_nat (List.length (elems_of (get data "features"))) < 10 ^ 15)%Z ->
  (Z.of_nat (List.length (trips_of data)) < 10 ^ 15)%Z ->
  (Z.of_nat (List.length (points_list data)) < 10 ^ 15)%Z ->
  let points := valid_pairs (map lat_lon (points_list data)) in
  (is_feature_collection data = true /\
   tripsLayer view = [GeoJSON data] /\
   mapInfo view
   = ("GeoJSON: " ++ numeral (Z.of_nat (List.length (elems_of (get data "features")))) ++ " шт.")%string) \/
  (is_feature_collection data = false /\ trips_of data <> [] /\
   mapInfo view = ("Рейсов: " ++ numeral (Z.of_nat (List.length (tripsLayer view))))%string) \/
  (is_feature_collection data = false /\ trips_of data = [] /\
   at_least_two points = true /\
   tripsLayer view = [Polyline points] /\
   mapInfo view = ("Точек: " ++ numeral (Z.of_nat (List.length points)))%string) \/
  (is_feature_collection data = false /\ trips_of data = [] /\
   at_least_two points = false /\
   tripsLayer view = [] /\
   mapInfo view = "Маршруты не найдены (пустой ответ)").
Proof.
  intros Hr Hf Ht Hp points.
  destruct (is_feature_collection data) eqn:Hfc.
  { left. unfold renderTripsFromApiData in Hr. rewrite Hfc in Hr.
    destruct (L_geoJSON data) as [valid| |m]; cbn [bind] in Hr; try discriminate Hr.
    injection Hr as <-. cbn [tripsLayer mapInfo ToString].
    unfold length_of. fold (number (Z.of_nat (List.length (elems_of (get data "features"))))).
    rewrite count_numeral by exact Hf. auto. }
  right. rewrite (render_spec L_geoJSON data Hfc) in Hr.
  destruct (nonempty (trips_of data)) eqn:En.
  { left. destruct (existsb bad_trip (trips_of data)); [discriminate Hr|].
    injection Hr as <-. cbn [tripsLayer mapInfo ToString].
    split; [reflexivity|]. split; [intros E; rewrite E in En; discriminate En|].
    rewrite counter_numeral; [reflexivity|].
    rewrite length_map.
    apply Z.le_lt_trans with (Z.of_nat (List.length (map trip_line (trips_of data)))).
    - apply Nat2Z.inj_le, filter_length_le.
    - rewrite length_map. exact Ht. }
  right. apply nonempty_false in En.
  destruct (existsb bad_point (points_list data)); [discriminate Hr|].
  cbv zeta in Hr. fold points in Hr.
  destruct (at_least_two points) eqn:E2.
  - left. injection Hr as <-. cbn [tripsLayer mapInfo ToString].
    unfold length_of. fold (number (Z.of_nat (List.length points))).
    rewrite count_numeral; [auto|].
    apply Z.le_lt_trans with (Z.of_nat (List.length (points_list data))); [|exact Hp].
    subst points. rewrite <- (length_map lat_lon).
    apply Nat2Z.inj_le, filter_length_le.
  - right. injection Hr as <-. auto.
Qed.

Lemma drawn_lines_valid (lls : list LatLngs) :
  (if nonempty (filter at_least_two lls) && existsb isValid (filter at_least_two lls)
   then map Polyline (filter at_least_two lls) else [])
  = map Polyline (filter at_least_two lls).
Proof.
  destruct (filter at_least_two lls) as [|ll l] eqn:E; [reflexivity|].
  assert (H : at_least_two ll = true).
  { assert (Hin : In ll (filter at_least_two lls)) by (rewrite E; left; reflexivity).
    apply filter_In in Hin. apply Hin. }
  cbn [nonempty existsb andb]. destruct ll; [discriminate H|]. reflexivity.
Qed.

(** X15. Whatever the payload, a line on the map has at least two points.
    Outside the GeoJSON branch the map is fitted to the lines drawn, all
    of them and no others (the bounds of a line are valid).  In the
    GeoJSON branch the layer is drawn, and the map is fitted to it only
    when Leaflet finds its bounds valid. *)
Theorem every_line_has_two_points (L_geoJSON : value -> result bool) (data : value)
    (view : MapView) :
  renderTripsFromApiData L_geoJSON data = Ok view ->
  (forall ll, In (Polyline ll) (tripsLayer view) -> at_least_two ll = true) /\
  (is_feature_collection data = false -> fitBounds view = tripsLayer view) /\
  (is_feature_collection data = true ->
   exists valid,
     L_geoJSON data = Ok valid /\ tripsLayer view = [GeoJSON data] /\
     fitBounds view = if valid then [GeoJSON data] else []).
Proof.
  destruct (is_feature_collection data) eqn:Hfc.
  { unfold renderTripsFromApiData. rewrite Hfc.
    destruct (L_geoJSON data) as [valid| |m]; cbn [bind]; try discriminate.
    intros [= <-]. cbn [tripsLayer fitBounds]. split; [|split].
    - intros ll [H|[]]. discriminate H.
    - discriminate.
    - intros _. exists valid. auto. }
  rewrite (render_spec L_geoJSON data Hfc).
  destruct (nonempty (trips_of data)).
  { destruct (existsb bad_trip (trips_of data)); [discriminate|].
    cbv zeta. rewrite drawn_lines_valid.
    intros [= <-]. cbn [tripsLayer fitBounds]. split; [|split].
    - intros ll Hin. apply in_map_iff in Hin. destruct Hin as (ll' & [= ->] & Hin).
      apply filter_In in Hin. apply Hin.
    - reflexivity.
    - discriminate. }
  destruct (existsb bad_point (points_list data)); [discriminate|]. cbv zeta.
  destruct (at_least_two (valid_pairs (map lat_lon (points_list data)))) eqn:E2.
  - intros [= <-]. cbn [tripsLayer fitBounds]. split; [|split].
    + intros ll [[= <-]|[]]. exact E2.
    + intros _. destruct (valid_pairs (map lat_lon (points_list data)));
        [discriminate E2|reflexivity].
    + discriminate.
  - intros [= <-]. cbn [tripsLayer fitBounds]. split; [|split].
    + intros ll [].
    + reflexivity.
    + discriminate.
Qed.

Lemma normalize_throws_iff_witness :
  let trip :=
    Obj [("coords", Arr [Arr [Num 52; Num 37]; Arr [Str "x"; Num 37]]);
         ("points", Arr [Null])] in
  normalizeLatLngsFromTrip trip = Ok [(52, 37)]%float.
Proof.
  intros trip.
  apply (proj2 (proj2 (normalize_throws_iff trip))).
  - intros p [<-|[<-|[]]]; reflexivity.
  - discriminate.
Defined.

Lemma info_label_counts_witness :
  let data :=
    Obj [("trips", Arr [Obj [("coords", Arr [Arr [Num 52; Num 37]; Arr [Num 53; Num 38]])];
                        Obj [("coords", Arr [Arr [Num 52; Num 37]])]]);
         ("points", Arr [Obj [("lat", Num 1); ("lon", Num 2)];
                         Obj [("lat", Num 3); ("lon", Num 4)]])] in
  exists view,
    renderTripsFromApiData (fun _ => Ok true) data = Ok view /\ mapInfo view = "Рейсов: 1".
Proof.
  intros data. eexists. split; [reflexivity|].
  destruct (info_label_counts (fun _ => Ok true) data _ eq_refl eq_refl eq_refl eq_refl)
    as [(H & _)|[(_ & _ & H)|[(_ & H & _)|(_ & H & _)]]].
  - vm_compute in H. discriminate H.
  - exact H.
  - vm_compute in H. discriminate H.
  - vm_compute in H. discriminate H.
Defined.

Lemma every_line_has_two_points_witness :
  let trips :=
    Arr [Obj [("coords", Arr [Arr [Num 52; Num 37]; Arr [Num 53; Num 38]])];
         Obj [("coords", Arr [Arr [Num 52; Num 37]])]] in
  let view :=
    {| tripsLayer := [Polyline [(52, 37); (53, 38)]%float];
       fitBounds := [Polyline [(52, 37); (53, 38)]%float];
       mapInfo := "Рейсов: 1" |} in
  renderTripsFromApiData (fun _ => Ok true) trips = Ok view /\
  at_least_two [(52, 37); (53, 38)]%float = true /\
  fitBounds view = tripsLayer view.
Proof.
  intros trips view.
  assert (Hr : renderTripsFromApiData (fun _ => Ok true) trips = Ok view)
    by (vm_compute; reflexivity).
  destruct (every_line_has_two_points (fun _ => Ok true) trips view Hr) as (H1 & H2 & _).
  split; [exact Hr|]. split; [apply H1; left; reflexivity|apply H2; reflexivity].
Defined.

End Drawing.

(** ** The page after a load *)

Module Loading.
Import JS App Spec Geometry Drawing.
Local Open Scope string_scope.
Local Open Scope list_scope.

Lemma filter_map_app (lines : list layer) (ll : LatLngs) (lls : list LatLngs) :
  (if at_least_two ll then lines ++ [Polyline ll] else lines)
    ++ map Polyline (filter at_least_two lls)
  = lines ++ map Polyline (filter at_least_two (ll :: lls)).
Proof.
  cbn [filter]. destruct (at_least_two ll); [|reflexivity].
  cbn [map]. rewrite <- app_assoc. reflexivity.
Qed.

Lemma draw_trips_returns (trips : list value) (lines : list layer) :
  existsb bad_trip trips = false ->
  draw_trips trips lines
  = (lines ++ map Polyline (filter at_least_two (map trip_line trips)), Ok tt).
Proof.
  revert lines. induction trips as [|t trips IH]; intros lines; cbn [existsb draw_trips map].
  - intros _. cbn. rewrite app_nil_r. reflexivity.
  - intros H. apply orb_false_iff in H. destruct H as [Ht H].
    rewrite normalize_spec, Ht, (IH _ H). rewrite filter_map_app. reflexivity.
Qed.

Lemma draw_trips_throws (trips : list value) (lines : list layer) :
  existsb bad_trip trips = true ->
  exists before t after,
    trips = before ++ t :: after /\
    normalizeLatLngsFromTrip t = TypeError /\
    mapM normalizeLatLngsFromTrip before = Ok (map trip_line before) /\
    draw_trips trips lines
    = (lines ++ map Polyline (filter at_least_two (map trip_line before)), TypeError).
Proof.
  revert lines. induction trips as [|t trips IH]; intros lines; cbn [existsb draw_trips];
    [discriminate|].
  rewrite normalize_spec. destruct (bad_trip t) eqn:Et; cbn [orb].
  - intros _. exists [], t, trips. cbn. rewrite app_nil_r, normalize_spec, Et. auto.
  - intros H.
    destruct (IH (if at_least_two (trip_line t) then lines ++ [Polyline (trip_line t)]
                  else lines) H)
      as (before & t' & after & -> & Ht' & Hb & Hd).
    exists (t :: before), t', after.
    split; [reflexivity|]. split; [exact Ht'|]. split.
    + cbn [mapM map]. rewrite normalize_spec, Et, Hb. reflexivity.
    + rewrite Hd. cbn [map]. rewrite filter_map_app. reflexivity.
Qed.

Lemma lines_of_lines (lls : list LatLngs) : lines_of (map Polyline lls) = lls.
Proof.
  unfold lines_of. induction lls as [|ll lls IH]; [reflexivity|].
  cbn [map flat_map app]. rewrite IH. reflexivity.
Qed.

Lemma nonempty_map {A B} (f : A -> B) (l : list A) : nonempty (map f l) = nonempty l.
Proof. destruct l; reflexivity. Qed.

(** The page and the call agree: on the view when the call returns, on
    the error when it throws, and then the label is empty and the map has
    not been fitted. *)
Lemma render_page_result (L_geoJSON : value -> result bool) (data : value) :
  match renderTripsFromApiData L_geoJSON data with
  | Ok view => render_page L_geoJSON data = (view, Ok tt)
  | TypeError =>
      snd (render_page L_geoJSON data) = TypeError /\
      mapInfo (fst (render_page L_geoJSON data)) = ""%string /\
      fitBounds (fst (render_page L_geoJSON data)) = []
  | LibraryError message =>
      snd (render_page L_geoJSON data) = LibraryError message /\
      mapInfo (fst (render_page L_geoJSON data)) = ""%string /\
      fitBounds (fst (render_page L_geoJSON data)) = []
  end.
Proof.
  destruct (is_feature_collection data) eqn:Hfc.
  { unfold renderTripsFromApiData, render_page. rewrite Hfc.
    destruct (L_geoJSON data) as [valid| |m]; cbn [bind]; auto. }
  rewrite (render_spec L_geoJSON data Hfc). unfold render_page. rewrite Hfc.
  destruct (nonempty (trips_of data)).
  - destruct (existsb bad_trip (trips_of data)) eqn:Eb.
    + destruct (draw_trips_throws _ [] Eb) as (b & t & a & _ & _ & _ & ->). auto.
    + rewrite (draw_trips_returns _ [] Eb). cbn [app]. cbv zeta.
      rewrite lines_of_lines, nonempty_map. reflexivity.
  - unfold points_list, valid_pairs.
    destruct (isArray (get_opt data "points")); cbn [andb existsb]; [|reflexivity].
    destruct (nonempty (elems_of (get_opt data "points"))) eqn:En.
    + rewrite (mapM_spec point_pair bad_point lat_lon _ point_pair_spec).
      destruct (existsb bad_point _); [auto|].
      destruct (at_least_two _); reflexivity.
    + apply nonempty_false in En. rewrite En. reflexivity.
Qed.

(** X16. When [renderTripsFromApiData] returns, the map is as it says.
    When it throws, the label stays empty and the map is not fitted; the
    lines of the trips before the one the normaliser threw on stay on the
    map, and nothing is on the map when it is [L.geoJSON] that threw, or
    the reading of the payload's own [points]. *)
Theorem lines_stay_when_render_throws (L_geoJSON : value -> result bool) (data : value) :
  let page := render_page L_geoJSON data in
  (forall view, renderTripsFromApiData L_geoJSON data = Ok view <-> page = (view, Ok tt)) /\
  (renderTripsFromApiData L_geoJSON data = TypeError <-> snd page = TypeError) /\
  (forall message,
     renderTripsFromApiData L_geoJSON data = LibraryError message <->
     snd page = LibraryError message) /\
  (throws (snd page) ->
   mapInfo (fst page) = ""%string /\
   fitBounds (fst page) = [] /\
   ((is_feature_collection data = true /\ throws (L_geoJSON data) /\
     tripsLayer (fst page) = []) \/
    (is_feature_collection data = false /\ trips_of data = [] /\
     tripsLayer (fst page) = []) \/
    exists before t after lls,
      is_feature_collection data = false /\
      trips_of data = before ++ t :: after /\
      normalizeLatLngsFromTrip t = TypeError /\
      mapM normalizeLatLngsFromTrip before = Ok lls /\
      tripsLayer (fst page) = map Polyline (filter at_least_two lls))).
Proof.
  intros page. subst page.
  pose proof (render_page_result L_geoJSON data) as H.
  split; [|split; [|split]].
  - intros view. destruct (renderTripsFromApiData L_geoJSON data) as [v| |m].
    + rewrite H. split; congruence.
    + destruct H as [H _]. split; [discriminate|]. intros E. rewrite E in H. discriminate H.
    + destruct H as [H _]. split; [discriminate|]. intros E. rewrite E in H. discriminate H.
  - destruct (renderTripsFromApiData L_geoJSON data) as [v| |m].
    + rewrite H. split; discriminate.
    + tauto.
    + destruct H as [H _]. rewrite H. split; discriminate.
  - intros message. destruct (renderTripsFromApiData L_geoJSON data) as [v| |m].
    + rewrite H. split; discriminate.
    + destruct H as [H _]. rewrite H. split; discriminate.
    + destruct H as [H _]. rewrite H. split; intros [= ->]; reflexivity.
  - clear H. unfold render_page.
    destruct (is_feature_collection data) eqn:Hfc.
    { destruct (L_geoJSON data) as [valid| |m]; cbn [snd fst throws]; [intros []| |];
        intros _; (split; [reflexivity|]); (split; [reflexivity|]); left; auto. }
    destruct (nonempty (trips_of data)) eqn:En.
    + destruct (existsb bad_trip (trips_of data)) eqn:Eb.
      * destruct (draw_trips_throws _ [] Eb) as (b & t & a & Hb & Ht & Hl & ->).
        intros _. split; [reflexivity|]. split; [reflexivity|].
        right. right. exists b, t, a, (map trip_line b). auto.
      * rewrite (draw_trips_returns _ [] Eb). intros [].
    + apply nonempty_false in En.
      destruct (isArray (get_opt data "points") && nonempty (elems_of (get_opt data "points")));
        [|intros []].
      destruct (mapM point_pair (elems_of (get_opt data "points"))) as [ps| |m].
      * destruct (at_least_two (filter finite_pair ps)); intros [].
      * intros _. split; [reflexivity|]. split; [reflexivity|]. right. left. auto.
      * intros _. split; [reflexivity|]. split; [reflexivity|]. right. left. auto.
Qed.



Lemma lines_stay_when_render_throws_witness :
  let data :=
    Obj [("trips", Arr [Obj [("coords", Arr [Arr [Num 52; Num 37]; Arr [Num 53; Num 38]])];
                        Obj [("coords", Arr [Arr [Obj [("toString", Num 1)]; Num 2]])]])] in
  tripsLayer (fst (render_page (fun _ => Ok true) data))
  = [Polyline [(52, 37); (53, 38)]%float] /\
  fitBounds (fst (render_page (fun _ => Ok true) data)) = [].
Proof.
  intros data.
  destruct (proj2 (proj2 (proj2 (lines_stay_when_render_throws (fun _ => Ok true) data))) I)
    as (_ & Hfit & _).
  split; [reflexivity|exact Hfit].
Defined.

End Loading.

(** ** The trip count, and dates *)

Module Counting.
Import JS App Spec NumberFacts Geometry Integers.
Local Open Scope string_scope.

Lemma trips_fold (rows : list Row) (z : float) :
  fold_left (fun acc row => if selected row then (acc + 1)%float else acc) rows z
  = fold_left (fun n _ => (n + 1)%float) (filter selected rows) z.
Proof.
  revert z. induction rows as [|row rows IH]; intros z; [reflexivity|].
  cbn [fold_left filter]. destruct (selected row); cbn [fold_left]; apply IH.
Qed.

Lemma truthy_number (n : Z) : (0 < n < 2 ^ 53)%Z -> truthy (Num (number n)) = true.
Proof.
  intros Hn. cbn [truthy]. rewrite eqb_spec, isNaN_spec, number_exact by exact Hn.
  reflexivity.
Qed.

(** X18. The trip count shown is the number of rows with a route chosen, as a
    decimal numeral, and a dash when there is none (for a table of fewer
    than [10^15] rows). *)
Theorem trips_count_is_decimal (rows : list Row) (oidSelect : string) :
  (Z.of_nat (List.length rows) < 10 ^ 15)%Z ->
  let n := Z.of_nat (List.length (filter selected rows)) in
  trips_count_cell (recalcTotals rows oidSelect)
  = if (n =? 0)%Z then em_dash else numeral n.
Proof.
  intros Hrows n. unfold recalcTotals. cbn [trips_count_cell ToString].
  rewrite trips_fold, count_fold. fold (counted_up (List.length (filter selected rows))).
  assert (H53 : (10 ^ 15 < 2 ^ 53)%Z) by reflexivity.
  assert (Hn : (n <= Z.of_nat (List.length rows))%Z).
  { subst n. apply Nat2Z.inj_le. clear. induction rows as [|r rows IH]; cbn [filter List.length]; [lia|].
    destruct (selected r); cbn [List.length]; lia. }
  rewrite counted_up_number by (fold n; lia). fold n.
  destruct (Z.eqb_spec n 0) as [->|Hnz]; [reflexivity|].
  rewrite truthy_number by lia. apply NumberToString_int. lia.
Qed.

Lemma trips_count_is_decimal_witness :
  trips_count_cell
    (recalcTotals [mkRow "R1" "20" "" "7,0" "10,00" "50,00"; mkRow "" "" "" "" "" "";
                   mkRow "R1" "5" "" "7,0" "10,00" "50,00"] "716") = "2".
Proof.
  apply (trips_count_is_decimal
           [mkRow "R1" "20" "" "7,0" "10,00" "50,00"; mkRow "" "" "" "" "" "";
            mkRow "R1" "5" "" "7,0" "10,00" "50,00"] "716").
  reflexivity.
Defined.

End Counting.

Module Dates.
Import JS App Spec Literal NumberFacts Printing Integers.
Local Open Scope string_scope.

Lemma string_app (l1 l2 : chars) :
  string_of_list_ascii (l1 ++ l2) = string_of_list_ascii l1 ++ string_of_list_ascii l2.
Proof. induction l1 as [|c l1 IH]; cbn; [reflexivity|]. rewrite IH. reflexivity. Qed.

Lemma str_app (s1 s2 : string) : str (s1 ++ s2) = (str s1 ++ str s2)%list.
Proof. induction s1 as [|c s1 IH]; cbn; [reflexivity|]. unfold str in IH. rewrite IH. reflexivity. Qed.

Lemma string_length (l : chars) : String.length (string_of_list_ascii l) = List.length l.
Proof. induction l as [|c l IH]; cbn; [reflexivity|]. rewrite IH. reflexivity. Qed.

Lemma string_of_str (s : string) : string_of_list_ascii (str s) = s.
Proof. apply string_of_list_ascii_of_string. Qed.

Lemma decimal_one_digit (n : Z) : (0 <= n < 10)%Z -> decimal n = [byte (48 + n)].
Proof.
  intros Hn. unfold decimal. cbn [digits_loop].
  rewrite (proj2 (Z.ltb_lt n 10)) by lia. rewrite Z.mod_small by lia. reflexivity.
Qed.

Lemma decimal_long (n : Z) : (10 <= n)%Z -> (2 <= List.length (decimal n))%nat.
Proof.
  intros Hn. destruct (decade_exists n ltac:(lia)) as (k & Hk & Hlo & Hhi).
  assert (2 <= k)%Z.
  { destruct (Z_le_gt_dec 2 k) as [|Hgt]; [assumption|exfalso].
    assert (k = 1%Z) by lia. subst k. cbn in Hhi. lia. }
  pose proof (decimal_length n k ltac:(lia) ltac:(right; lia) ltac:(lia)). lia.
Qed.

(** X19. [pad2] of a whole number: a zero before a single digit, and the
    numeral itself from 10 on, however long. *)
Theorem pad2_pads_one_digit (n : Z) :
  (0 <= n < 10 ^ 15)%Z ->
  pad2 (number n) = (if (n <? 10)%Z then "0" ++ numeral n else numeral n) /\
  (2 <= String.length (pad2 (number n)))%nat.
Proof.
  intros Hn. unfold pad2, padStart. rewrite NumberToString_int by exact Hn.
  fold (numeral n). unfold numeral. rewrite string_length.
  destruct (Z.ltb_spec n 10) as [Hlt|Hge].
  - rewrite decimal_one_digit by lia. split; reflexivity.
  - pose proof (decimal_long n Hge) as Hl.
    replace (2 - List.length (decimal n))%nat with 0%nat by lia.
    cbn [repeat string_of_list_ascii append]. rewrite string_length. split; [reflexivity|exact Hl].
Qed.

Lemma pad2_pads_one_digit_witness : pad2 (number 7) = "07".
Proof.
  apply (proj1 (pad2_pads_one_digit 7 ltac:(split; [discriminate|reflexivity]))).
Defined.


Lemma replace_first_T (d t : chars) :
  forallb not_T d = true ->
  replace_first ["T"%char] [" "%char] (d ++ "T"%char :: t)%list
  = (d ++ " "%char :: t)%list.
Proof.
  induction d as [|c d IH]; intros H.
  - reflexivity.
  - cbn [forallb] in H. apply andb_true_iff in H. destruct H as [Hc Hd].
    cbn [app]. rewrite replace_first_single.
    apply negb_true_iff in Hc. rewrite Hc, IH by exact Hd. reflexivity.
Qed.

Lemma replace_first_no_T (d : chars) :
  forallb not_T d = true -> replace_first ["T"%char] [" "%char] d = d.
Proof.
  induction d as [|c d IH]; intros H.
  - reflexivity.
  - cbn [forallb] in H. apply andb_true_iff in H. destruct H as [Hc Hd].
    rewrite replace_first_single.
    apply negb_true_iff in Hc. rewrite Hc, IH by exact Hd. reflexivity.
Qed.

Lemma append_assoc' (a b c : string) : (a ++ b) ++ c = a ++ (b ++ c).
Proof. induction a as [|x a IH]; cbn; [reflexivity|]. rewrite IH. reflexivity. Qed.

Lemma truthy_nonempty (s : string) : truthy (Str s) = negb (String.eqb s "").
Proof. reflexivity. Qed.


Lemma dtLocalToApi_split (d t : string) :
  forallb not_T (str d) = true ->
  dtLocalToApi (d ++ "T" ++ t) = d ++ " " ++ t ++ ":00".
Proof.
  intros Hd. unfold dtLocalToApi. rewrite truthy_nonempty.
  replace (String.eqb (d ++ "T" ++ t) "") with false by (destruct d; reflexivity).
  cbn [negb]. rewrite <- (string_of_str (d ++ "T" ++ t)).
  change "T" with (String "T"%char EmptyString) at 1.
  change " " with (String " "%char EmptyString) at 1.
  rewrite replace_chars, str_app. cbn [str list_ascii_of_string append app].
  fold (str t). rewrite replace_first_T by exact Hd.
  rewrite string_app. cbn [string_of_list_ascii]. rewrite !string_of_str.
  rewrite append_assoc'. reflexivity.
Qed.

Lemma dtLocalToApi_plain (d : string) :
  forallb not_T (str d) = true -> d <> "" -> dtLocalToApi d = d ++ ":00".
Proof.
  intros Hd Hne. unfold dtLocalToApi. rewrite truthy_nonempty.
  replace (String.eqb d "") with false by (symmetry; apply String.eqb_neq; exact Hne).
  cbn [negb]. rewrite <- (string_of_str d) at 1.
  change "T" with (String "T"%char EmptyString).
  change " " with (String " "%char EmptyString).
  rewrite replace_chars, replace_first_no_T by exact Hd.
  rewrite string_of_str. reflexivity.
Qed.

(** X20. [dtLocalToApi] turns the [T] between date and time into a space and
    appends the seconds; a value without a [T] only gets the seconds, and
    an empty value stays empty. *)
Theorem dtLocalToApi_shape (d t : string) :
  forallb not_T (str d) = true ->
  dtLocalToApi (d ++ "T" ++ t) = d ++ " " ++ t ++ ":00" /\
  (d <> "" -> dtLocalToApi d = d ++ ":00") /\
  dtLocalToApi "" = "".
Proof.
  intros Hd. split; [apply dtLocalToApi_split, Hd|].
  split; [apply dtLocalToApi_plain, Hd|reflexivity].
Qed.

Lemma dtLocalToApi_shape_witness :
  dtLocalToApi "2024-01-05T08:30" = "2024-01-05 08:30:00".
Proof.
  apply (proj1 (dtLocalToApi_shape "2024-01-05" "08:30" eq_refl)).
Defined.


Lemma month_number (m : Z) : (0 <= m <= 11)%Z -> (number m + 1)%float = number (m + 1).
Proof.
  intros Hm. destruct (Z.eq_dec m 0) as [->|Hnz]; [reflexivity|].
  change 1%float with (number 1). apply add_int; lia.
Qed.

Lemma pad2_table :
  forallb (fun i => String.eqb (pad2 (number (Z.of_nat i))) (two_digits (Z.of_nat i)))
    (seq 0 100) = true.
Proof. vm_compute. reflexivity. Qed.

Lemma pad2_two (k : Z) : (0 <= k < 100)%Z -> pad2 (number k) = two_digits k.
Proof.
  intros Hk. pose proof pad2_table as H. rewrite forallb_forall in H.
  specialize (H (Z.to_nat k)). rewrite Z2Nat.id in H by lia.
  apply String.eqb_eq, H, in_seq. lia.
Qed.

Lemma digits_not_T (l : chars) : forallb is_digit l = true -> forallb not_T l = true.
Proof.
  intros H. rewrite forallb_forall in *. intros c Hc. specialize (H c Hc).
  unfold not_T. destruct (Ascii.eqb "T" c) eqn:E; [|reflexivity].
  apply Ascii.eqb_eq in E. subst c. discriminate H.
Qed.

Lemma two_digits_not_T (k : Z) : (0 <= k < 100)%Z -> forallb not_T (str (two_digits k)) = true.
Proof.
  intros Hk. unfold two_digits. rewrite str_of_chars. apply digits_not_T.
  cbn [forallb]. fold (digit (k / 10)). fold (digit (k mod 10)).
  pose proof (Z.mod_pos_bound k 10 ltac:(lia)).
  assert (0 <= k / 10 < 10)%Z
    by (split; [apply Z.div_pos; lia|apply Z.div_lt_upper_bound; lia]).
  rewrite !digit_is_digit by lia. reflexivity.
Qed.

(** X21. [setDefaultDateTimes] leaves a field that has a value as it is and
    fills an empty one with today's date, as year, two-digit month and
    two-digit day, at 00:00 for the start and 23:59 for the end; those
    defaults are sent to the backend as "Y-MM-DD 00:00:00" and
    "Y-MM-DD 23:59:00". *)
Theorem default_dates (y m d : Z) (from to : string) :
  (0 <= y < 10 ^ 15)%Z -> (0 <= m <= 11)%Z -> (1 <= d <= 31)%Z ->
  let now := {| getFullYear := number y; getMonth := number m; getDate := number d |} in
  let date := numeral y ++ "-" ++ two_digits (m + 1) ++ "-" ++ two_digits d in
  setDefaultDateTimes now from to
  = (if String.eqb from "" then date ++ "T00:00" else from,
     if String.eqb to "" then date ++ "T23:59" else to) /\
  dtLocalToApi (date ++ "T00:00") = date ++ " 00:00:00" /\
  dtLocalToApi (date ++ "T23:59") = date ++ " 23:59:00".
Proof.
  intros Hy Hm Hd now date. split.
  - unfold setDefaultDateTimes. cbn [getFullYear getMonth getDate now].
    rewrite month_number by exact Hm. rewrite !pad2_two by lia.
    rewrite NumberToString_int by exact Hy. fold (numeral y). fold date.
    rewrite !truthy_nonempty, !negb_involutive. reflexivity.
  - assert (HT : forallb not_T (str date) = true).
    { subst date. rewrite !str_app, !forallb_app, !two_digits_not_T by lia.
      unfold numeral. rewrite str_of_chars, digits_not_T by (apply decimal_digits; lia).
      reflexivity. }
    split; [apply (dtLocalToApi_split date "00:00" HT)|apply (dtLocalToApi_split date "23:59" HT)].
Qed.

Lemma default_dates_witness :
  setDefaultDateTimes {| getFullYear := 2024; getMonth := 0; getDate := 5 |} "" "2020-01-01T10:00"
  = ("2024-01-05T00:00", "2020-01-01T10:00").
Proof.
  apply (proj1 (default_dates 2024 0 5 "" "2020-01-01T10:00"
                  ltac:(lia) ltac:(lia) ltac:(lia))).
Defined.

End Dates.

(** ** The trips request *)

Module Requests.
Import JS App Spec Literal NumberFacts Printing Integers.
Local Open Scope string_scope.

Lemma urlencode_byte_safe (c : ascii) : forallb url_safe (urlencode_byte c) = true.
Proof. destruct c as [[|] [|] [|] [|] [|] [|] [|] [|]]; vm_compute; reflexivity. Qed.

Lemma urlencode_safe (s : string) : forallb url_safe (str (urlencode s)) = true.
Proof.
  unfold urlencode. rewrite str_of_chars.
  induction (str s) as [|c l IH]; [reflexivity|].
  cbn [flat_map]. rewrite forallb_app, urlencode_byte_safe, IH. reflexivity.
Qed.

Lemma limit_sent (v : string) (d : float) :
  isFinite d = true -> (d =? zero)%float = false ->
  sent v d (or_else (numOr0 (Str v)) d).
Proof.
  intros Hd Hz. unfold sent, or_else, numOr0. cbn [truthy].
  destruct (isFinite (ToNumber (Str v))) eqn:Ef; cbn [andb].
  - rewrite (isFinite_not_NaN _ Ef), orb_false_r.
    destruct (ToNumber (Str v) =? zero)%float eqn:E0; cbn [negb]; auto.
  - change (zero =? zero)%float with true. cbn [orb negb]. auto.
Qed.

(** X22. [loadTrips] throws its message, and asks nothing, exactly when the
    vehicle field is blank.  Otherwise it asks for [/api/trips_for_map]
    with the six parameters in their order; their values are made of
    letters, digits, [*-._], [+] and [%XX] escapes only, so that whatever
    the fields hold the query has these six parameters and no other. *)
Theorem trips_request (form : Form) :
  match loadTrips form with
  | Thrown message =>
      trim (str (oidSelect form)) = [] /\ message = "Выбери авто (OID)."
  | Returned url =>
      trim (str (oidSelect form)) <> [] /\
      exists oid from to jump speed km : string,
        url = "/api/trips_for_map?oid=" ++ oid ++ "&from=" ++ from ++ "&to=" ++ to
              ++ "&max_jump_km=" ++ jump ++ "&max_speed_kmh=" ++ speed
              ++ "&min_trip_km=" ++ km /\
        oid = urlencode (trimmed (oidSelect form)) /\
        from = urlencode (dtLocalToApi (dtFrom form)) /\
        to = urlencode (dtLocalToApi (dtTo form)) /\
        Forall (fun field => forallb url_safe (str field) = true)
          [oid; from; to; jump; speed; km]
  end.
Proof.
  unfold loadTrips, trimmed.
  destruct (trim (str (oidSelect form))) as [|c l] eqn:E.
  - split; reflexivity.
  - replace (negb (truthy (Str (string_of_list_ascii (c :: l))))) with false by reflexivity.
    split; [discriminate|].
    exists (urlencode (string_of_list_ascii (c :: l))),
           (urlencode (dtLocalToApi (dtFrom form))),
           (urlencode (dtLocalToApi (dtTo form))),
           (urlencode (NumberToString (or_else (numOr0 (Str (maxJump form))) 1))),
           (urlencode (NumberToString (or_else (numOr0 (Str (maxSpeed form))) 180))),
           (urlencode (NumberToString (or_else (numOr0 (Str (minTripKm form))) 1))).
    split; [|split; [reflexivity|split; [reflexivity|split; [reflexivity|]]]].
    + unfold URLSearchParams. cbn [map join fst snd].
      generalize (urlencode (string_of_list_ascii (c :: l))),
        (urlencode (dtLocalToApi (dtFrom form))), (urlencode (dtLocalToApi (dtTo form))),
        (urlencode (NumberToString (or_else (numOr0 (Str (maxJump form))) 1))),
        (urlencode (NumberToString (or_else (numOr0 (Str (maxSpeed form))) 180))),
        (urlencode (NumberToString (or_else (numOr0 (Str (minTripKm form))) 1))).
      intros a1 a2 a3 a4 a5 a6.
      assert (K1 : urlencode "oid" = "oid") by reflexivity.
      assert (K2 : urlencode "from" = "from") by reflexivity.
      assert (K3 : urlencode "to" = "to") by reflexivity.
      assert (K4 : urlencode "max_jump_km" = "max_jump_km") by reflexivity.
      assert (K5 : urlencode "max_speed_kmh" = "max_speed_kmh") by reflexivity.
      assert (K6 : urlencode "min_trip_km" = "min_trip_km") by reflexivity.
      rewrite K1, K2, K3, K4, K5, K6, !Dates.append_assoc'. reflexivity.
    + repeat constructor; apply urlencode_safe.
Qed.

(** X23. The three limits [loadTrips] sends: each is the Number of its field
    when that is finite and not zero, and otherwise the default (1 km,
    180 km/h, 1 km), an empty or unreadable field included; what is sent is
    never zero and never [NaN] or infinite. *)
Theorem limits_fall_back (form : Form) (url : string) :
  loadTrips form = Returned url ->
  exists jump speed km : float,
    url = "/api/trips_for_map?"
          ++ URLSearchParams
               [ ("oid", trimmed (oidSelect form));
                 ("from", dtLocalToApi (dtFrom form));
                 ("to", dtLocalToApi (dtTo form));
                 ("max_jump_km", NumberToString jump);
                 ("max_speed_kmh", NumberToString speed);
                 ("min_trip_km", NumberToString km) ] /\
    sent (maxJump form) 1 jump /\
    sent (maxSpeed form) 180 speed /\
    sent (minTripKm form) 1 km.
Proof.
  unfold loadTrips.
  destruct (negb (truthy (Str (trimmed (oidSelect form))))); [discriminate|].
  intros H. injection H as H. subst url.
  exists (or_else (numOr0 (Str (maxJump form))) 1),
         (or_else (numOr0 (Str (maxSpeed form))) 180),
         (or_else (numOr0 (Str (minTripKm form))) 1).
  split; [reflexivity|].
  split; [|split]; apply limit_sent; reflexivity.
Qed.

Lemma limits_fall_back_witness :
  exists jump speed km : float,
    sent "" 1 jump /\ sent "90" 180 speed /\ sent "abc" 1 km.
Proof.
  destruct (limits_fall_back
              {| oidSelect := "716"; dtFrom := ""; dtTo := ""; maxJump := "";
                 maxSpeed := "90"; minTripKm := "abc" |} _ eq_refl)
    as (jump & speed & km & _ & H).
  exists jump, speed, km. exact H.
Defined.

End Requests.

(** ** The vehicle list *)

Module VehicleList.
Import JS App Spec NumberFacts Integers.
Local Open Scope string_scope.
Local Open Scope list_scope.

Lemma count_convertible (v : value) :
  unconvertible (coalesce v (Num zero)) = unconvertible v.
Proof. destruct v; reflexivity. Qed.

(** The option of an item, by cases of the item. *)
Lemma oid_option_spec (item : value) :
  oid_option item
  = if bad_item item then TypeError
    else
      let oid := ToNumber (get item "oid") in
      let cnt := ToNumber (coalesce (get item "points_cnt") (Num zero)) in
      let name := match map_get (Num oid) VEHICLES with
                  | Some v => name v
                  | None => ("OID " ++ NumberToString oid)%string
                  end in
      Ok (NumberToString oid,
          (name ++ " (OID " ++ NumberToString oid ++ ", точек: "
             ++ NumberToString cnt ++ ")")%string).
Proof.
  assert (H : forall q, q <> Null -> q <> Undefined ->
              get_strict q "oid" = Ok (get q "oid") /\
              get_strict q "points_cnt" = Ok (get q "points_cnt")).
  { intros q; destruct q; intros; split; try reflexivity; congruence. }
  assert (G : forall q, q <> Null -> q <> Undefined ->
              bad_item q = unconvertible (get q "oid") || unconvertible (get q "points_cnt")).
  { intros q; destruct q; intros; try reflexivity; congruence. }
  destruct (bad_item item) eqn:Eb.
  - destruct item; try reflexivity;
      rewrite G in Eb by discriminate; unfold oid_option, Number_of;
      match goal with
      | |- context [get_strict ?q "oid"] =>
          destruct (H q ltac:(discriminate) ltac:(discriminate)) as [-> ->];
          cbn [bind]; rewrite count_convertible;
          destruct (unconvertible (get q "oid")); cbn [bind orb] in *; [reflexivity|];
          rewrite Eb; reflexivity
      end.
  - assert (Hn : item <> Null /\ item <> Undefined)
      by (split; intros ->; discriminate Eb).
    destruct Hn as [Hn Hu]. rewrite (G item Hn Hu) in Eb.
    apply orb_false_iff in Eb. destruct Eb as [Eo Ec].
    unfold oid_option, Number_of.
    destruct (H item Hn Hu) as [-> ->]. cbn [bind].
    rewrite count_convertible, Eo. cbn [bind]. rewrite Ec. cbn [bind]. reflexivity.
Qed.

Lemma oid_option_throws (item : value) :
  oid_option item = TypeError <-> bad_item item = true.
Proof.
  rewrite oid_option_spec. destruct (bad_item item); split; intros H;
    first [reflexivity|discriminate H].
Qed.

Lemma before_bad_cons (item : value) (items : list value) :
  before_bad (item :: items)
  = match oid_option item with
    | Ok _ => item :: before_bad items
    | _ => []
    end.
Proof. rewrite oid_option_spec. cbn [before_bad]. destruct (bad_item item); reflexivity. Qed.

Lemma append_oids_spec (items : list value) (acc : list (string * string)) :
  exists options,
    fst (append_oids items acc) = acc ++ options /\
    Forall2 (fun item o => oid_option item = Ok o) (before_bad items) options /\
    snd (append_oids items acc)
    = (if (List.length (before_bad items) =? List.length items)%nat
       then Ok tt else TypeError).
Proof.
  revert acc. induction items as [|item items IH]; intros acc.
  - exists []. cbn. rewrite app_nil_r. auto.
  - rewrite before_bad_cons. cbn [append_oids].
    pose proof (oid_option_spec item) as Hs.
    destruct (oid_option item) as [o| |m] eqn:Eo.
    + destruct (IH (acc ++ [o])) as (options & Hf & Hall & Hs').
      exists (o :: options). rewrite Hf, <- app_assoc. split; [reflexivity|].
      split; [constructor; assumption|]. exact Hs'.
    + exists []. cbn. rewrite app_nil_r. auto.
    + destruct (bad_item item); discriminate Hs.
Qed.

(** X24. The vehicle list always starts with the placeholder of the empty
    value.  After it come the options of the backend's items, one each, in
    order, up to the first item that is [null] or [undefined] or whose
    [oid] or [points_cnt] [Number] throws on: there [loadOids] throws, a
    [TypeError], and the options added before stay in the list.  It
    returns when there is no such item. *)
Theorem options_up_to_first_throw (data : value) :
  let items := oids_of data in
  exists options,
    fst (loadOids data) = ("", "— выбери —"%string) :: options /\
    Forall2 (fun item o => oid_option item = Ok o) (before_bad items) options /\
    snd (loadOids data)
    = (if (List.length (before_bad items) =? List.length items)%nat
       then Ok tt else TypeError) /\
    (snd (loadOids data) = TypeError <->
     exists item, In item items /\ bad_item item = true).
Proof.
  intros items. unfold loadOids. fold (oids_of data). fold items.
  destruct (append_oids_spec items [("", "— выбери —"%string)]) as (options & Hf & Hall & Hs).
  exists options. split; [exact Hf|]. split; [exact Hall|]. split; [exact Hs|].
  rewrite Hs. clear. induction items as [|item items IH].
  - cbn. split; [discriminate|intros (i & [] & _)].
  - cbn [before_bad]. destruct (bad_item item) eqn:Eb.
    + cbn [List.length Nat.eqb]. split; [|reflexivity]. intros _.
      exists item. split; [left; reflexivity|exact Eb].
    + cbn [List.length Nat.eqb]. rewrite IH. split.
      * intros (i & Hin & Hi). exists i. split; [right|]; assumption.
      * intros (i & [<-|Hin] & Hi); [congruence|].
        exists i. split; assumption.
Qed.

Lemma oid_option_value (item : value) (o : string * string) :
  oid_option item = Ok o -> fst o = NumberToString (ToNumber (get item "oid")).
Proof.
  rewrite oid_option_spec. destruct (bad_item item); [discriminate|].
  intros [= <-]. reflexivity.
Qed.

(** X25. The option of a vehicle whose OID is a whole number below [10^15]
    has the OID's decimal numeral as its value, and choosing it gives the
    tonnage [VEHICLES] has for that OID: the number the list was built from
    is the number the totals read back. *)
Theorem listed_vehicle_has_its_tonnage (item : value) (n : Z) (o : string * string) :
  (0 <= n < 10 ^ 15)%Z ->
  ToNumber (get item "oid") = number n ->
  oid_option item = Ok o ->
  fst o = numeral n /\
  ToNumber (Str (fst o)) = number n /\
  getVehicleTonnage (fst o)
  = match map_get (Num (number n)) VEHICLES with
    | Some v => tonnage v
    | None => zero
    end.
Proof.
  intros Hn Hoid Ho.
  assert (E : fst o = numeral n).
  { rewrite (oid_option_value item o Ho), Hoid. apply NumberToString_int. exact Hn. }
  assert (R : ToNumber (Str (fst o)) = number n).
  { rewrite E. cbn [ToNumber]. apply StringToNumber_decimal. lia. }
  split; [exact E|]. split; [exact R|].
  unfold getVehicleTonnage. rewrite R. reflexivity.
Qed.

Lemma listed_vehicle_has_its_tonnage_witness :
  getVehicleTonnage "716" = 9%float.
Proof.
  apply (proj2 (proj2 (listed_vehicle_has_its_tonnage
                         (Obj [("oid", Num 716); ("points_cnt", Num 12)]) 716
                         ("716"%string,
                          "КАМАЗ 532150 Е015НВ48 (дут) (OID 716, точек: 12)"%string)
                         ltac:(lia) eq_refl eq_refl))).
Defined.

End VehicleList.

(** ** The model on concrete inputs *)

Module Checks.

Import JS App Spec.
Local Open Scope string_scope.

Example Number_of_decimal : StringToNumber "0.1" = 0.1%float.
Proof. reflexivity. Qed.

Example Number_of_empty : StringToNumber "" = zero.
Proof. reflexivity. Qed.

Example Number_trims : StringToNumber " 7.0 " = 7%float.
Proof. reflexivity. Qed.

Example Number_of_comma : StringToNumber "7,0" = nan.
Proof. reflexivity. Qed.

Example Number_overflows : StringToNumber "1e400" = infinity.
Proof. vm_compute. reflexivity. Qed.

Example Number_of_hex : StringToNumber "0x1F" = 31%float.
Proof. reflexivity. Qed.

Example Number_signed_hex : StringToNumber "-0x10" = nan.
Proof. reflexivity. Qed.

Example Number_of_fraction : StringToNumber "-.5e1" = (-5)%float.
Proof. reflexivity. Qed.

Example Number_smallest : StringToNumber "5e-324" = 5e-324%float.
Proof. vm_compute. reflexivity. Qed.

Example Number_halfway_down : StringToNumber "2.4703282292062327e-324" = zero.
Proof. vm_compute. reflexivity. Qed.

Example Number_halfway_up : StringToNumber "2.4703282292062328e-324" = 5e-324%float.
Proof. vm_compute. reflexivity. Qed.

Example Number_largest :
  StringToNumber "1.7976931348623158e308" = 1.7976931348623157e308%float.
Proof. vm_compute. reflexivity. Qed.

Example Number_past_largest : StringToNumber "1.7976931348623159e308" = infinity.
Proof. vm_compute. reflexivity. Qed.

Example Number_ties_to_even : StringToNumber "9007199254740993" = 9007199254740992%float.
Proof. reflexivity. Qed.

Example Number_minus_zero : StringToNumber "-0" = neg_zero.
Proof. reflexivity. Qed.

Example Number_of_null : ToNumber Null = zero.
Proof. reflexivity. Qed.

Example Number_of_array : ToNumber (Arr [Num 52.5]) = 52.5%float.
Proof. vm_compute. reflexivity. Qed.

Example String_of_array :
  ToString (Arr [Num 1; Null; Str "a"; Arr [Num 2; Num 3]]) = "1,,a,2,3".
Proof. vm_compute. reflexivity. Qed.

Example String_of_tenth : NumberToString 0.1 = "0.1".
Proof. vm_compute. reflexivity. Qed.

Example String_of_sum : NumberToString (0.1 + 0.2) = "0.30000000000000004".
Proof. vm_compute. reflexivity. Qed.

Example String_of_1e21 : NumberToString 1e21 = "1e+21".
Proof. vm_compute. reflexivity. Qed.

Example String_of_1e23 : NumberToString 1e23 = "1e+23".
Proof. vm_compute. reflexivity. Qed.

Example String_below_1e21 :
  NumberToString 123456789012345680000 = "123456789012345680000".
Proof. vm_compute. reflexivity. Qed.

Example String_of_small : NumberToString 1.5e-7 = "1.5e-7".
Proof. vm_compute. reflexivity. Qed.

Example String_of_millionth : NumberToString 0.000001 = "0.000001".
Proof. vm_compute. reflexivity. Qed.

Example String_of_smallest : NumberToString 5e-324 = "5e-324".
Proof. vm_compute. reflexivity. Qed.

Example String_of_largest :
  NumberToString 1.7976931348623157e308 = "1.7976931348623157e+308".
Proof. vm_compute. reflexivity. Qed.

Example String_of_negative : NumberToString (-42) = "-42".
Proof. vm_compute. reflexivity. Qed.

Example toFixed_rounds : toFixed (20 / 1.4) 2 = "14.29".
Proof. vm_compute. reflexivity. Qed.

Example toFixed_binary : toFixed 1.005 2 = "1.00".
Proof. vm_compute. reflexivity. Qed.

Example toFixed_half_up : toFixed 2.5 0 = "3".
Proof. vm_compute. reflexivity. Qed.

Example toFixed_negative : toFixed (-1.5) 0 = "-2".
Proof. vm_compute. reflexivity. Qed.

Example toFixed_small_negative : toFixed (-0.001) 2 = "-0.00".
Proof. vm_compute. reflexivity. Qed.

Example toFixed_pads : toFixed 0.005 2 = "0.01".
Proof. vm_compute. reflexivity. Qed.

Example toFixed_1e21 : toFixed 1e21 2 = "1e+21".
Proof. vm_compute. reflexivity. Qed.

Example toFixed_below_1e21 :
  toFixed 999999999999999900000 2 = "999999999999999868928.00".
Proof. vm_compute. reflexivity. Qed.

Example toFixed_width : toFixed 6.96 1 = "7.0".
Proof. vm_compute. reflexivity. Qed.

Example fmt2_of_NaN : fmt2 (Num nan) = "".
Proof. reflexivity. Qed.

(** The end-to-end scenarios of the design: route R1 of width 7 and length
    10; 20 tonnes give 14.29, capped to 10.00; 5 tonnes give 3.57. *)

Example route_R1_20_tonnes :
  on_route_change (fst (loadRoutes (one_route "R1" R1))) (mkRow "R1" "20" "" "" "" "")
  = mkRow "R1" "20" "10,00" "7,0" "10,00" "50,00".
Proof. vm_compute. reflexivity. Qed.

Example route_R1_5_tonnes :
  on_route_change (fst (loadRoutes (one_route "R1" R1))) (mkRow "R1" "5" "" "" "" "")
  = mkRow "R1" "5" "3,57" "7,0" "10,00" "50,00".
Proof. vm_compute. reflexivity. Qed.

Example route_options_R1 :
  snd (loadRoutes (one_route "R1" R1)) = [("", "— маршрут —"); ("R1", "R1")].
Proof. vm_compute. reflexivity. Qed.

Example totals_of_three_rows :
  recalcTotals [mkRow "R1" "5" "3,57" "" "" ""; mkRow "R1" "20" "10,00" "" "" "";
                mkRow "" "" "" "" "" ""] "182"
  = {| total_tons_sum_cell := "25,00"; total_km_sum_cell := "13,57";
       vehicle_tonnage_cell := "14,00"; trips_count_cell := "2";
       total_tons_cell := "25,00" |}.
Proof. vm_compute. reflexivity. Qed.

Example trips_two_of_three :
  renderTripsFromApiData (fun _ => Ok true)
    (Obj [("trips",
           Arr [Obj [("coords", Arr [Arr [Num 52; Num 37]; Arr [Num 53; Num 38]])];
                Obj [("coords", Arr [Arr [Num 52; Num 37]])];
                Obj [("points", Arr [Obj [("lat", Str "52"); ("lon", Num 37)];
                                     Obj [("lat", Str "x"); ("lon", Num 1)];
                                     Obj [("lat", Num 53); ("lon", Num 38)]])]])])
  = Ok {| tripsLayer := [Polyline [(52, 37); (53, 38)]; Polyline [(52, 37); (53, 38)]]%float;
          fitBounds := [Polyline [(52, 37); (53, 38)]; Polyline [(52, 37); (53, 38)]]%float;
          mapInfo := "Рейсов: 2" |}.
Proof. vm_compute. reflexivity. Qed.

Example null_point_throws :
  renderTripsFromApiData (fun _ => Ok true)
    (Obj [("trips", Arr [Obj [("points", Arr [Null])]])]) = TypeError.
Proof. reflexivity. Qed.

Example flat_points :
  renderTripsFromApiData (fun _ => Ok true)
    (Obj [("points", Arr [Obj [("lat", Num 1); ("lon", Num 2)];
                          Obj [("lat", Num 3); ("lon", Num 4)]])])
  = Ok {| tripsLayer := [Polyline [(1, 2); (3, 4)]]%float;
          fitBounds := [Polyline [(1, 2); (3, 4)]]%float;
          mapInfo := "Точек: 2" |}.
Proof. vm_compute. reflexivity. Qed.

Example nothing_found :
  renderTripsFromApiData (fun _ => Ok true) Null
  = Ok {| tripsLayer := []; fitBounds := [];
          mapInfo := "Маршруты не найдены (пустой ответ)" |}.
Proof. reflexivity. Qed.

Example query_value_is_encoded :
  urlencode "2024-01-05 00:00:00" = "2024-01-05+00%3A00%3A00"
  /\ urlencode "a&b=c/д" = "a%26b%3Dc%2F%D0%B4".
Proof. split; reflexivity. Qed.

Example trips_url :
  loadTrips {| oidSelect := " 716 "; dtFrom := "2024-01-05T00:00"; dtTo := "2024-01-05T23:59";
               maxJump := ""; maxSpeed := "90"; minTripKm := "0.5" |}
  = Returned ("/api/trips_for_map?oid=716&from=2024-01-05+00%3A00%3A00"
                ++ "&to=2024-01-05+23%3A59%3A00"
                ++ "&max_jump_km=1&max_speed_kmh=90&min_trip_km=0.5").
Proof. vm_compute. reflexivity. Qed.

Example trips_without_vehicle :
  loadTrips {| oidSelect := "  "; dtFrom := "2024-01-05T00:00"; dtTo := "";
               maxJump := "1"; maxSpeed := "180"; minTripKm := "1" |}
  = Thrown "Выбери авто (OID).".
Proof. reflexivity. Qed.

Example dates_of_new_year_eve :
  setDefaultDateTimes {| getFullYear := 2024; getMonth := 11; getDate := 31 |} "" ""
  = ("2024-12-31T00:00", "2024-12-31T23:59").
Proof. vm_compute. reflexivity. Qed.

Example oids_up_to_null :
  loadOids (Obj [("oids", Arr [Obj [("oid", Num 716); ("points_cnt", Num 12)];
                               Obj [("oid", Str "5")]; Null; Obj [("oid", Num 1)]])])
  = ([("", "— выбери —");
      ("716", "КАМАЗ 532150 Е015НВ48 (дут) (OID 716, точек: 12)");
      ("5", "OID 5 (OID 5, точек: 0)")],
     TypeError).
Proof. vm_compute. reflexivity. Qed.

Example lines_before_the_throw :
  render_page (fun _ => Ok true)
    (Obj [("trips", Arr [Obj [("coords", Arr [Arr [Num 52; Num 37]; Arr [Num 53; Num 38]])];
                         Obj [("points", Arr [Null])];
                         Obj [("coords", Arr [Arr [Num 1; Num 2]; Arr [Num 3; Num 4]])]])])
  = ({| tripsLayer := [Polyline [(52, 37); (53, 38)]%float]; fitBounds := [];
        mapInfo := "" |}, TypeError).
Proof. vm_compute. reflexivity. Qed.

Example click_without_vehicle :
  btnLoad_click {| oidSelect := ""; dtFrom := ""; dtTo := ""; maxJump := "";
                   maxSpeed := ""; minTripKm := "" |}
    (fun _ => Returned Null) (fun _ => Ok true) "" (Some "")
  = (cleared, Some "Ошибка загрузки рейсов: Выбери авто (OID).").
Proof. reflexivity. Qed.

Example click_draws_points :
  btnLoad_click {| oidSelect := "716"; dtFrom := ""; dtTo := ""; maxJump := "";
                   maxSpeed := ""; minTripKm := "" |}
    (fun _ => Returned (Obj [("points", Arr [Obj [("lat", Num 1); ("lon", Num 2)];
                                             Obj [("lat", Str "3"); ("lon", Num 4)]])]))
    (fun _ => Ok true) "" (Some "")
  = ({| tripsLayer := [Polyline [(1, 2); (3, 4)]%float];
        fitBounds := [Polyline [(1, 2); (3, 4)]%float];
        mapInfo := "Точек: 2" |}, Some "Готово.").
Proof. vm_compute. reflexivity. Qed.

Example numeric_name_is_offered_but_not_found :
  let ROUTES := fst (loadRoutes (Obj [("routes", Arr [Obj [("name", Num 5)]])])) in
  route_options ROUTES = [("", "— маршрут —"); ("5", "5")]
  /\ js_width (fillRouteRowParams ROUTES (mkRow "5" "" "" "7,0" "" "") "5") = Some "".
Proof. split; vm_compute; reflexivity. Qed.

Example width_7_04_counts_as_7 :
  let ROUTES := fst (loadRoutes (one_route "R1" [("road_width_m", Num 7.04)])) in
  let row := fillRouteRowParams ROUTES (mkRow "R1" "14" "" "" "" "") "R1" in
  coeffByWidth (Num 7.04) = 1.2%float
  /\ js_width row = Some "7,0"
  /\ coeffByWidth (Num (getRowWidth row)) = 1.4%float.
Proof. repeat split; vm_compute; reflexivity. Qed.

Example Number_of_objects :
  Number_of (Obj [("toString", Num 1)]) = TypeError
  /\ Number_of (Arr [Num 1; Arr [Obj [("toString", Null)]]]) = TypeError
  /\ Number_of (Obj [("valueOf", Num 1)]) = Ok nan
  /\ Number_of (Arr [Null]) = Ok zero
  /\ Number_of (Arr [Str "7"]) = Ok 7%float.
Proof. repeat split; vm_compute; reflexivity. Qed.

Example coords_that_do_not_convert :
  normalizeLatLngsFromTrip
    (Obj [("coords", Arr [Arr [Num 52; Num 37]; Arr [Obj [("toString", Num 1)]; Num 2]])])
  = TypeError.
Proof. reflexivity. Qed.

Example null_coords_are_kept_as_zero :
  normalizeLatLngsFromTrip (Obj [("coords", Arr [Arr [Null; Str ""]; Arr [Num 52; Num 37]])])
  = Ok [(0, 0); (52, 37)]%float.
Proof. reflexivity. Qed.

Example geojson_that_throws :
  let data :=
    Obj [("type", Str "FeatureCollection"); ("features", Arr [Null]);
         ("trips", Arr [Obj [("coords", Arr [Arr [Num 52; Num 37]; Arr [Num 53; Num 38]])]])] in
  renderTripsFromApiData (fun _ => TypeError) data = TypeError
  /\ render_page (fun _ => TypeError) data = (cleared, TypeError).
Proof. split; reflexivity. Qed.

Example empty_collection_is_not_fitted :
  let data := Obj [("type", Str "FeatureCollection"); ("features", Arr [])] in
  renderTripsFromApiData (fun _ => Ok false) data
  = Ok {| tripsLayer := [GeoJSON data]; fitBounds := []; mapInfo := "GeoJSON: 0 шт." |}.
Proof. vm_compute. reflexivity. Qed.

Example oid_that_does_not_convert :
  loadOids (Obj [("oids", Arr [Obj [("oid", Num 716)];
                               Obj [("oid", Obj [("toString", Num 1)])]])])
  = ([("", "— выбери —");
      ("716", "КАМАЗ 532150 Е015НВ48 (дут) (OID 716, точек: 0)")],
     TypeError).
Proof. vm_compute. reflexivity. Qed.

Example click_on_a_collection_leaflet_refuses :
  btnLoad_click {| oidSelect := "716"; dtFrom := ""; dtTo := ""; maxJump := "";
                   maxSpeed := ""; minTripKm := "" |}
    (fun _ => Returned (Obj [("type", Str "FeatureCollection"); ("features", Arr [Num 1])]))
    (fun _ => LibraryError "Invalid GeoJSON object.") "" (Some "")
  = (cleared, Some "Ошибка загрузки рейсов: Invalid GeoJSON object.").
Proof. reflexivity. Qed.

End Checks.
